(** * Draw.io flowchart pipeline: decode, extract, classify, analyze

    A shallow embedding of the diagram utilities (decodeDiagramContent,
    extractFlowchartElements, detectShapeType, analyzeNodeContent,
    determineNodeType, detectCycles, analyzeFlowchart, parseDrawioXml,
    getBasicDiagramInfo, extractXmlFromSvg) and the properties established
    about them.

    Conventions of the embedding:
    - a JavaScript string is the list of its UTF-16 code units;
    - an optional field ([value?: string]) is an [option];
    - an exception is an [Err] outcome of the [Exc] monad, and [try]/[catch]
      is [tryCatch];
    - [Set<string>] is a [gset], [Map<string, T>] an insertion-ordered
      association list; an object literal used as a map
      ([Record<string, T>]) is the [gmap] of its own properties, and a read
      by key that no hasOwnProperty test guards goes through [readSlot],
      which falls back to Object.prototype;
    - functions of the platform that are not part of the repository
      (String.prototype.toLowerCase / toUpperCase with their Unicode tables,
      pako.inflateRaw, pako.inflate, DOMParser, parseFloat) are Section
      variables. *)

From Stdlib Require Import NArith List Bool Lia String Ascii Permutation DecimalNat.
From stdpp Require Import base list gmap sets relations.

#[local] Set Warnings "-clear-no-such-hyp,-register-all".

Local Open Scope N_scope.

(** ** JavaScript strings *)

Abbreviation jsstring := (list N).

(** The code units of an ASCII literal. *)
Definition lit (s : string) : jsstring :=
  map N_of_ascii (list_ascii_of_string s).

(** WhiteSpace and LineTerminator code points, as String.prototype.trim
    strips them. *)
Definition isWhiteSpace (c : N) : bool :=
  existsb (N.eqb c)
    [9; 10; 11; 12; 13; 32; 160; 5760; 8232; 8233; 8239; 8287; 12288; 65279]
  || ((8192 <=? c) && (c <=? 8202)).

Fixpoint trimStart (s : jsstring) : jsstring :=
  match s with
  | [] => []
  | c :: t => if isWhiteSpace c then trimStart t else s
  end.

Definition trimEnd (s : jsstring) : jsstring := rev (trimStart (rev s)).

Definition trim (s : jsstring) : jsstring := trimEnd (trimStart s).

Fixpoint startsWith (s p : jsstring) {struct p} : bool :=
  match p with
  | [] => true
  | a :: p' =>
      match s with
      | [] => false
      | b :: s' => (a =? b) && startsWith s' p'
      end
  end.

Arguments startsWith : simpl never.

Definition endsWith (s p : jsstring) : bool := startsWith (rev s) (rev p).

Fixpoint includes (s p : jsstring) : bool :=
  startsWith s p ||
  match s with
  | [] => false
  | _ :: t => includes t p
  end.

(** [s.replace(/pat/g, rep)] for a literal, non-empty pattern: matches are
    searched left to right and do not overlap. [skip] counts the code units
    of the current match still to be dropped. *)
Fixpoint replaceFrom (pat rep : jsstring) (skip : nat) (s : jsstring) : jsstring :=
  match s with
  | [] => []
  | c :: t =>
      match skip with
      | S k => replaceFrom pat rep k t
      | O =>
          if startsWith s pat
          then rep ++ replaceFrom pat rep (Nat.pred (length pat)) t
          else c :: replaceFrom pat rep O t
      end
  end.

Definition replaceAll (s pat rep : jsstring) : jsstring := replaceFrom pat rep O s.

(** Truthiness of a string and of an optional string ([undefined] and the
    empty string are falsy). *)
Definition nonEmpty (s : jsstring) : bool :=
  match s with [] => false | _ :: _ => true end.

Definition truthy (o : option jsstring) : bool :=
  match o with Some s => nonEmpty s | None => false end.

(** [o || d] for an optional string [o] and a string [d]. *)
Definition orElse (o : option jsstring) (d : jsstring) : jsstring :=
  match o with
  | Some s => if nonEmpty s then s else d
  | None => d
  end.

(** [attr || undefined], as applied to the result of getAttribute. *)
Definition orUndefined (o : option jsstring) : option jsstring :=
  if truthy o then o else None.

(** Decimal digits of a non-negative integer, as a template literal prints
    an array length or a counter. *)
Fixpoint uintDigits (d : Decimal.uint) : jsstring :=
  match d with
  | Decimal.Nil => []
  | Decimal.D0 d => 48 :: uintDigits d
  | Decimal.D1 d => 49 :: uintDigits d
  | Decimal.D2 d => 50 :: uintDigits d
  | Decimal.D3 d => 51 :: uintDigits d
  | Decimal.D4 d => 52 :: uintDigits d
  | Decimal.D5 d => 53 :: uintDigits d
  | Decimal.D6 d => 54 :: uintDigits d
  | Decimal.D7 d => 55 :: uintDigits d
  | Decimal.D8 d => 56 :: uintDigits d
  | Decimal.D9 d => 57 :: uintDigits d
  end.

Definition numberToString (n : nat) : jsstring := uintDigits (Nat.to_uint n).

(** The double quote, which the message templates put around node labels. *)
Definition dquote : jsstring := [34].

(** ** Exceptions *)

Inductive Failure : Type :=
| TypeError
| URIError
| InvalidCharacterError
| InflateError
| FuelExhausted.

Inductive Exc (A : Type) : Type :=
| Ok (a : A)
| Err (e : Failure).

Arguments Ok {A} a.
Arguments Err {A} e.

Definition bindExc {A B : Type} (m : Exc A) (k : A -> Exc B) : Exc B :=
  match m with
  | Ok a => k a
  | Err e => Err e
  end.

(** [try { body } catch { handler }] *)
Definition tryCatch {A : Type} (body : Exc A) (handler : Exc A) : Exc A :=
  match body with
  | Ok a => Ok a
  | Err _ => handler
  end.

Notation "x <- m ;; k" := (bindExc m (fun x => k))
  (at level 100, m at next level, right associativity).

(** A loop over a list whose body may throw; [s] is the state the body
    updates. *)
Fixpoint forEachExc {A St : Type} (f : St -> A -> Exc St) (l : list A) (s : St) : Exc St :=
  match l with
  | [] => Ok s
  | x :: rest => s' <- f s x ;; forEachExc f rest s'
  end.

(** ** window.atob (forgiving-base64 decode) *)

Definition isAsciiWhitespace (c : N) : bool :=
  existsb (N.eqb c) [9; 10; 12; 13; 32].

Definition base64Value (c : N) : option N :=
  if (65 <=? c) && (c <=? 90) then Some (c - 65)
  else if (97 <=? c) && (c <=? 122) then Some (c - 71)
  else if (48 <=? c) && (c <=? 57) then Some (c + 4)
  else if c =? 43 then Some 62
  else if c =? 47 then Some 63
  else None.

(** Drops one or two trailing '=' of a string whose length is a multiple of
    four ([r] is the reversed string). *)
Definition stripPadding (s : jsstring) : jsstring :=
  if (length s mod 4 =? 0)%nat then
    match rev s with
    | 61 :: 61 :: r => rev r
    | 61 :: r => rev r
    | _ => s
    end
  else s.

Fixpoint sextets (s : jsstring) : option (list N) :=
  match s with
  | [] => Some []
  | c :: t =>
      match base64Value c, sextets t with
      | Some v, Some vs => Some (v :: vs)
      | _, _ => None
      end
  end.

Fixpoint decodeSextets (l : list N) : list N :=
  match l with
  | a :: b :: c :: d :: rest =>
      let n := N.lor (N.shiftl a 18) (N.lor (N.shiftl b 12) (N.lor (N.shiftl c 6) d)) in
      N.shiftr n 16 :: N.land (N.shiftr n 8) 255 :: N.land n 255 :: decodeSextets rest
  | [a; b; c] =>
      let n := N.shiftr (N.lor (N.shiftl a 12) (N.lor (N.shiftl b 6) c)) 2 in
      [N.shiftr n 8; N.land n 255]
  | [a; b] => [N.shiftr (N.lor (N.shiftl a 6) b) 4]
  | _ => []
  end.

Definition atob (data : jsstring) : Exc jsstring :=
  let s := stripPadding (filter (fun c => isAsciiWhitespace c = false) data) in
  if (length s mod 4 =? 1)%nat then Err InvalidCharacterError
  else match sextets s with
       | Some vs => Ok (decodeSextets vs)
       | None => Err InvalidCharacterError
       end.

(** ** decodeURIComponent *)

Definition hexValue (c : N) : option N :=
  if (48 <=? c) && (c <=? 57) then Some (c - 48)
  else if (65 <=? c) && (c <=? 70) then Some (c - 55)
  else if (97 <=? c) && (c <=? 102) then Some (c - 87)
  else None.

Inductive UriToken : Type :=
| Plain (c : N)      (* a code unit copied as it is *)
| Escaped (b : N).   (* the octet of a %XX escape *)

Fixpoint uriTokens (s : jsstring) : Exc (list UriToken) :=
  match s with
  | [] => Ok []
  | c :: t =>
      if c =? 37 then
        match t with
        | h1 :: h2 :: t' =>
            match hexValue h1, hexValue h2 with
            | Some x, Some y =>
                ts <- uriTokens t' ;; Ok (Escaped (16 * x + y) :: ts)
            | _, _ => Err URIError
            end
        | _ => Err URIError
        end
      else ts <- uriTokens t ;; Ok (Plain c :: ts)
  end.

Definition inRange (lo hi b : N) : bool := (lo <=? b) && (b <=? hi).

Definition isContinuation (b : N) : bool := inRange 128 191 b.

(** UTF16EncodeCodePoint *)
Definition utf16 (cp : N) : jsstring :=
  if cp <? 65536 then [cp]
  else [55296 + N.shiftr (cp - 65536) 10; 56320 + N.land (cp - 65536) 1023].

(** Well-formed UTF-8 sequences (Unicode Table 3-7); anything else is a
    URIError. *)
Fixpoint uriDecodeTokens (ts : list UriToken) : Exc jsstring :=
  match ts with
  | [] => Ok []
  | Plain c :: r => s <- uriDecodeTokens r ;; Ok (c :: s)
  | Escaped b :: r =>
      if b <? 128 then s <- uriDecodeTokens r ;; Ok (b :: s)
      else if inRange 194 223 b then
        match r with
        | Escaped b2 :: r2 =>
            if isContinuation b2
            then s <- uriDecodeTokens r2 ;;
                 Ok (utf16 (N.lor (N.shiftl (N.land b 31) 6) (N.land b2 63)) ++ s)
            else Err URIError
        | _ => Err URIError
        end
      else if inRange 224 239 b then
        match r with
        | Escaped b2 :: Escaped b3 :: r3 =>
            if inRange (if b =? 224 then 160 else 128) (if b =? 237 then 159 else 191) b2
               && isContinuation b3
            then s <- uriDecodeTokens r3 ;;
                 Ok (utf16 (N.lor (N.shiftl (N.land b 15) 12)
                              (N.lor (N.shiftl (N.land b2 63) 6) (N.land b3 63))) ++ s)
            else Err URIError
        | _ => Err URIError
        end
      else if inRange 240 244 b then
        match r with
        | Escaped b2 :: Escaped b3 :: Escaped b4 :: r4 =>
            if inRange (if b =? 240 then 144 else 128) (if b =? 244 then 143 else 191) b2
               && isContinuation b3 && isContinuation b4
            then s <- uriDecodeTokens r4 ;;
                 Ok (utf16 (N.lor (N.shiftl (N.land b 7) 18)
                              (N.lor (N.shiftl (N.land b2 63) 12)
                                 (N.lor (N.shiftl (N.land b3 63) 6) (N.land b4 63)))) ++ s)
            else Err URIError
        | _ => Err URIError
        end
      else Err URIError
  end.

Definition decodeURIComponent (s : jsstring) : Exc jsstring :=
  ts <- uriTokens s ;; uriDecodeTokens ts.

(** ** Draw.io data model *)

Record Geometry (number : Type) : Type := mkGeometry {
  geo_x : number;
  geo_y : number;
  geo_width : number;
  geo_height : number
}.

Arguments mkGeometry {number}.

Record FlowchartNode (number : Type) : Type := mkNode {
  node_id : jsstring;
  node_value : option jsstring;
  node_style : option jsstring;
  node_type : option jsstring;
  node_vertex : bool;
  node_parentId : option jsstring;
  node_color : option jsstring;
  node_geometry : option (Geometry number)
}.

Arguments mkNode {number}.
Arguments node_id {number}.
Arguments node_value {number}.
Arguments node_style {number}.
Arguments node_type {number}.
Arguments node_vertex {number}.
Arguments node_parentId {number}.
Arguments node_color {number}.
Arguments node_geometry {number}.

Record FlowchartEdge : Type := mkEdge {
  edge_id : jsstring;
  edge_value : option jsstring;
  edge_style : option jsstring;
  edge_edge : bool;
  edge_parentId : option jsstring;
  sourceId : option jsstring;
  targetId : option jsstring
}.

Record Elements (number : Type) : Type := mkElements {
  nodes : list (FlowchartNode number);
  edges : list FlowchartEdge
}.

Arguments mkElements {number}.
Arguments nodes {number}.
Arguments edges {number}.

Record FlowchartAnalysis (number : Type) : Type := mkAnalysis {
  totalElements : nat;
  startNodes : list (FlowchartNode number);
  endNodes : list (FlowchartNode number);
  decisionNodes : list (FlowchartNode number);
  processNodes : list (FlowchartNode number);
  ioNodes : list (FlowchartNode number);
  connections : list FlowchartEdge;
  issues : list jsstring
}.

Arguments mkAnalysis {number}.
Arguments totalElements {number}.
Arguments startNodes {number}.
Arguments endNodes {number}.
Arguments decisionNodes {number}.
Arguments processNodes {number}.
Arguments ioNodes {number}.
Arguments connections {number}.
Arguments issues {number}.

(** ** decodeHtml *)

Definition decodeHtml (raw : jsstring) : jsstring :=
  replaceAll
    (replaceAll
       (replaceAll
          (replaceAll
             (replaceAll
                (replaceAll raw (lit "&lt;") (lit "<"))
                (lit "&gt;") (lit ">"))
             (lit "&quot;") dquote)
          (lit "&#39;") (lit "'"))
       (lit "&nbsp;") (lit " "))
    (lit "&amp;") (lit "&").

(** ** Node classification *)

Section Classifier.

(** String.prototype.toLowerCase *)
Variable toLowerCase : jsstring -> jsstring.

Definition detectShapeType (style : jsstring) : jsstring :=
  let lowerStyle := toLowerCase style in
  if includes lowerStyle (lit "ellipse") || includes lowerStyle (lit "oval")
  then lit "oval"
  else if includes lowerStyle (lit "rhombus") || includes lowerStyle (lit "diamond")
  then lit "diamond"
  else if includes lowerStyle (lit "parallelogram")
  then lit "parallelogram"
  else if includes lowerStyle (lit "rounded=0")
          || includes lowerStyle (lit "whiteSpace=wrap")
          || includes lowerStyle (lit "rectangle")
          || (negb (includes lowerStyle (lit "ellipse"))
              && negb (includes lowerStyle (lit "rhombus"))
              && negb (includes lowerStyle (lit "parallelogram")))
  then lit "rectangle"
  else lit "rectangle".

Definition startKeywords : list jsstring :=
  map lit ["start"; "begin"; "initialize"; "init"; "launch"; "commence"; "open"]%string.

Definition endKeywords : list jsstring :=
  map lit ["end"; "stop"; "finish"; "terminate"; "exit"; "close"; "complete"; "done"]%string.

Definition inputKeywords : list jsstring :=
  map lit ["input"; "read"; "enter"; "get"; "scan"; "prompt"; "ask"]%string.

Definition outputKeywords : list jsstring :=
  map lit ["output"; "print"; "display"; "show"; "write"; "say"; "tell"]%string.

Definition decisionKeywords : list jsstring :=
  map lit ["if"; "while"; "for"; "check"; "test"; "compare"; "?"; "=="; "!=";
           "<"; ">"; "<="; ">="]%string.

Definition processKeywords : list jsstring :=
  map lit ["="; "calculate"; "compute"; "set"; "assign"; "update"; "increment";
           "decrement"; "+"; "-"; "*"; "/"]%string.

(** [keywords.some(keyword => lowerValue.includes(keyword))] *)
Definition someIncluded (keywords : list jsstring) (lowerValue : jsstring) : bool :=
  existsb (fun keyword => includes lowerValue keyword) keywords.

Definition analyzeNodeContent (value : jsstring) : jsstring :=
  if negb (nonEmpty value) then lit "unknown"
  else
    let lowerValue := trim (toLowerCase value) in
    if someIncluded startKeywords lowerValue then lit "start"
    else if someIncluded endKeywords lowerValue then lit "end"
    else if someIncluded inputKeywords lowerValue then lit "input"
    else if someIncluded outputKeywords lowerValue then lit "output"
    else if someIncluded decisionKeywords lowerValue then lit "decision"
    else if someIncluded processKeywords lowerValue then lit "process"
    else lit "process".

(** String comparison with [===]. *)
Definition strEq (a b : jsstring) : bool := bool_decide (a = b).

Definition determineNodeType (shapeType contentType : jsstring)
    (hasIncoming hasOutgoing : bool) : jsstring :=
  if strEq shapeType (lit "oval") then
    if negb hasIncoming && hasOutgoing then lit "start"
    else if hasIncoming && negb hasOutgoing then lit "end"
    else if strEq contentType (lit "start") || strEq contentType (lit "end")
    then contentType
    else if hasIncoming then lit "end" else lit "start"
  else if strEq shapeType (lit "diamond") then lit "decision"
  else if strEq shapeType (lit "parallelogram") then
    if strEq contentType (lit "input") || strEq contentType (lit "output")
    then contentType
    else lit "input"
  else if strEq shapeType (lit "rectangle") then
    if strEq contentType (lit "start") && negb hasIncoming then lit "start"
    else if strEq contentType (lit "end") && negb hasOutgoing then lit "end"
    else if strEq contentType (lit "decision") then lit "decision"
    else if strEq contentType (lit "input") || strEq contentType (lit "output")
    then contentType
    else lit "process"
  else lit "process".

(** The three stages as extractFlowchartElements composes them for a node
    with style [style], text [value] and the two topology flags. *)
Definition classify (style value : jsstring) (hasIncoming hasOutgoing : bool) : jsstring :=
  determineNodeType (detectShapeType style) (analyzeNodeContent value)
    hasIncoming hasOutgoing.

End Classifier.

(** ** extractFillColor *)

Definition isHexDigit (c : N) : bool :=
  match hexValue c with Some _ => true | None => false end.

(** [n] hexadecimal digits at the start of [s]. *)
Definition hexRun (n : nat) (s : jsstring) : bool :=
  (length (take n s) =? n)%nat && forallb isHexDigit (take n s).

(** A match of [/fillColor=([#]?[0-9a-fA-F]{n})/] anchored at the start of
    [s]; the result is the captured group. *)
Definition fillColorAt (n : nat) (s : jsstring) : option jsstring :=
  if startsWith s (lit "fillColor=") then
    let r := drop 10 s in
    match r with
    | 35 :: r' =>
        if hexRun n r' then Some (35 :: take n r')
        else if hexRun n r then Some (take n r) else None
    | _ => if hexRun n r then Some (take n r) else None
    end
  else None.

(** The leftmost match, as String.prototype.match returns it. *)
Fixpoint fillColorMatch (n : nat) (s : jsstring) : option jsstring :=
  match fillColorAt n s with
  | Some c => Some c
  | None =>
      match s with
      | [] => None
      | _ :: t => fillColorMatch n t
      end
  end.

Definition namedColors : list (string * string) :=
  [("red", "#ff0000"); ("blue", "#0000ff"); ("green", "#00ff00");
   ("yellow", "#ffff00"); ("orange", "#ffa500"); ("purple", "#800080");
   ("pink", "#ffc0cb"); ("cyan", "#00ffff"); ("white", "#ffffff");
   ("black", "#000000")]%string.

Fixpoint namedColor (style : jsstring) (table : list (string * string)) : jsstring :=
  match table with
  | [] => lit "#f0f0f0"
  | (name, hex) :: rest =>
      if includes style (lit "fillColor=" ++ lit name) then lit hex
      else namedColor style rest
  end.

Definition extractFillColor (style : jsstring) : jsstring :=
  if negb (nonEmpty style) then lit "#f0f0f0"
  else
    match fillColorMatch 6 style with
    | Some color => if startsWith color (lit "#") then color else lit "#" ++ color
    | None =>
        match fillColorMatch 3 style with
        | Some color =>
            let hexColor := if startsWith color (lit "#") then drop 1 color else color in
            lit "#" ++ flat_map (fun c => [c; c]) hexColor
        | None => namedColor style namedColors
        end
    end.

(** ** decodeDiagramContent *)

Section Decoder.

(** [pako.inflateRaw(bytes, { to: 'string' })] *)
Variable inflateRaw : list N -> Exc jsstring.

(** [Uint8Array.from(atob(b64), c => c.charCodeAt(0))]: each element is
    stored modulo 256. *)
Definition b64ToUint8 (b64 : jsstring) : Exc (list N) :=
  s <- atob b64 ;; Ok (map (fun c => c mod 256) s).

(** base64 -> inflateRaw -> URI decode; [Some xml] when the block returns
    [xml], [None] when control falls out of it. *)
Definition inflatePath (b64 : jsstring) : Exc (option jsstring) :=
  bytes <- b64ToUint8 b64 ;;
  inflated <- inflateRaw bytes ;;
  xml <- decodeURIComponent inflated ;;
  Ok (if startsWith (trim xml) (lit "<") then Some xml else None).

Definition decodeDiagramContent (data : jsstring) : Exc jsstring :=
  if negb (nonEmpty data) then Ok []
  else if startsWith (trim data) (lit "<") then Ok data
  else
    r1 <- tryCatch (inflatePath data) (Ok None) ;;
    match r1 with
    | Some xml => Ok xml
    | None =>
        r2 <- tryCatch (uriDecoded <- decodeURIComponent data ;; inflatePath uriDecoded)
                       (Ok None) ;;
        match r2 with
        | Some xml => Ok xml
        | None =>
            let htmlDecoded := decodeHtml data in
            if startsWith (trim htmlDecoded) (lit "<") then Ok htmlDecoded
            else Ok []
        end
    end.

End Decoder.

(** ** The DOM, as far as the extractor reads it *)

Inductive DomNode : Type :=
| ElementNode (tag : jsstring) (attrs : list (jsstring * jsstring)) (children : list DomNode)
| TextNode (data : jsstring).

Record Element : Type := mkElement {
  tagName : jsstring;
  attributes : list (jsstring * jsstring);
  childNodes : list DomNode
}.

(** A document; [documentElement] is [None] when the document has no root. *)
Record XMLDocument : Type := mkDocument {
  documentElement : option Element
}.

(** The elements of a subtree in document order, its root first. *)
Fixpoint elementsOf (n : DomNode) : list Element :=
  match n with
  | ElementNode t a cs => mkElement t a cs :: flat_map elementsOf cs
  | TextNode _ => []
  end.

Fixpoint textContentOf (n : DomNode) : jsstring :=
  match n with
  | ElementNode _ _ cs => flat_map textContentOf cs
  | TextNode d => d
  end.

(** The text nodes of a subtree in document order (XPath [//text()]). *)
Fixpoint textNodesOf (n : DomNode) : list jsstring :=
  match n with
  | ElementNode _ _ cs => flat_map textNodesOf cs
  | TextNode d => [d]
  end.

Definition asNode (e : Element) : DomNode :=
  ElementNode (tagName e) (attributes e) (childNodes e).

Definition textContent (e : Element) : jsstring := textContentOf (asNode e).

Definition withTag (tag : jsstring) (es : list Element) : list Element :=
  filter (fun e => tagName e = tag) es.

(** [document.getElementsByTagName(tag)] *)
Definition docElementsByTagName (d : XMLDocument) (tag : jsstring) : list Element :=
  match documentElement d with
  | Some root => withTag tag (elementsOf (asNode root))
  | None => []
  end.

(** [element.getElementsByTagName(tag)]: descendants only. *)
Definition elementsByTagName (e : Element) (tag : jsstring) : list Element :=
  withTag tag (flat_map elementsOf (childNodes e)).

Definition docTextNodes (d : XMLDocument) : list jsstring :=
  match documentElement d with
  | Some root => textNodesOf (asNode root)
  | None => []
  end.

Fixpoint lookupAttr (name : jsstring) (l : list (jsstring * jsstring)) : option jsstring :=
  match l with
  | [] => None
  | (k, v) :: rest => if strEq k name then Some v else lookupAttr name rest
  end.

Definition getAttribute (e : Element) (name : jsstring) : option jsstring :=
  lookupAttr name (attributes e).

(** ** extractFlowchartElements *)

Section Extractor.

Variable number : Type.
Variable toLowerCase : jsstring -> jsstring.
Variable inflateRaw : list N -> Exc jsstring.
(** [new DOMParser().parseFromString(text, 'text/xml')]. A parse failure is
    reported by a [parsererror] element in the returned document; [Err]
    stands for an exception raised by the parser itself. *)
Variable parseFromString : jsstring -> Exc XMLDocument.
Variable parseFloat : jsstring -> number.

(** An entry of [nodeMap]. *)
Record NodeData : Type := mkNodeData {
  nd_node : FlowchartNode number;
  nd_incoming : gset jsstring;
  nd_outgoing : gset jsstring
}.

(** [Map.prototype.get] *)
Fixpoint mapGet (k : jsstring) (m : list (jsstring * NodeData)) : option NodeData :=
  match m with
  | [] => None
  | (k', v) :: rest => if strEq k' k then Some v else mapGet k rest
  end.

(** [Map.prototype.set]: an existing key keeps its position. *)
Fixpoint mapSet (k : jsstring) (v : NodeData) (m : list (jsstring * NodeData))
    : list (jsstring * NodeData) :=
  match m with
  | [] => [(k, v)]
  | (k', v') :: rest =>
      if strEq k' k then (k, v) :: rest else (k', v') :: mapSet k v rest
  end.

(** In-place update of the entry stored under [k], if any. *)
Fixpoint mapAlter (f : NodeData -> NodeData) (k : jsstring)
    (m : list (jsstring * NodeData)) : list (jsstring * NodeData) :=
  match m with
  | [] => []
  | (k', v) :: rest =>
      if strEq k' k then (k', f v) :: rest else (k', v) :: mapAlter f k rest
  end.

Definition addOutgoing (targetId : jsstring) (d : NodeData) : NodeData :=
  mkNodeData (nd_node d) (nd_incoming d) (nd_outgoing d ∪ {[targetId]}).

Definition addIncoming (sourceId : jsstring) (d : NodeData) : NodeData :=
  mkNodeData (nd_node d) (nd_incoming d ∪ {[sourceId]}) (nd_outgoing d).

Definition hasParserError (d : XMLDocument) : bool :=
  (0 <? length (docElementsByTagName d (lit "parsererror")))%nat.

(** The mxfile branch: [Some doc] is the working document, [None] stands
    for [return null]. *)
Definition unwrapMxfile (xmlDoc : XMLDocument) (root : Element)
    : Exc (option XMLDocument) :=
  if strEq (tagName root) (lit "mxfile") then
    match head (docElementsByTagName xmlDoc (lit "diagram")) with
    | Some diagramNode =>
        let diagramContent := textContent diagramNode in
        if nonEmpty diagramContent then
          decodedXml <- decodeDiagramContent inflateRaw diagramContent ;;
          if nonEmpty decodedXml then
            workingDoc <- parseFromString decodedXml ;;
            if hasParserError workingDoc then Ok None else Ok (Some workingDoc)
          else Ok None
        else Ok (Some xmlDoc)
    | None => Ok (Some xmlDoc)
    end
  else Ok (Some xmlDoc).

(** The fallback loop over the text nodes of the document that had no
    mxCell; the result is the working document when the loop ends. *)
Fixpoint fallbackDecode (texts : list jsstring) (workingDoc : XMLDocument)
    : Exc XMLDocument :=
  match texts with
  | [] => Ok workingDoc
  | text :: rest =>
      if nonEmpty text && (50 <? length (trim text))%nat then
        decodedXml <- decodeDiagramContent inflateRaw (trim text) ;;
        if nonEmpty decodedXml then
          parsed <- parseFromString decodedXml ;;
          if (0 <? length (docElementsByTagName parsed (lit "mxCell")))%nat
          then Ok parsed
          else fallbackDecode rest parsed
        else fallbackDecode rest workingDoc
      else fallbackDecode rest workingDoc
  end.

(** The effective text of a cell: the [mn] contents of embedded MathML, or
    the value attribute. *)
Definition cellValue (cell : Element) : Exc (option jsstring) :=
  let value := orUndefined (getAttribute cell (lit "value")) in
  match value with
  | Some v =>
      if nonEmpty v && includes v (lit "<math") then
        valueDoc <- parseFromString v ;;
        let mathNodes := docElementsByTagName valueDoc (lit "mn") in
        if (0 <? length mathNodes)%nat
        then Ok (Some (flat_map textContent mathNodes))
        else Ok value
      else Ok value
  | None => Ok None
  end.

Definition cellGeometry (cell : Element) : option (Geometry number) :=
  match head (elementsByTagName cell (lit "mxGeometry")) with
  | Some g =>
      Some (mkGeometry
              (parseFloat (orElse (getAttribute g (lit "x")) (lit "0")))
              (parseFloat (orElse (getAttribute g (lit "y")) (lit "0")))
              (parseFloat (orElse (getAttribute g (lit "width")) (lit "0")))
              (parseFloat (orElse (getAttribute g (lit "height")) (lit "0"))))
  | None => None
  end.

(** The body of the first loop; the state is [nodeMap] and [edges]. *)
Definition firstPassCell
    (st : list (jsstring * NodeData) * list FlowchartEdge) (cell : Element)
    : Exc (list (jsstring * NodeData) * list FlowchartEdge) :=
  let (nodeMap, edges) := st in
  match getAttribute cell (lit "id") with
  | None => Ok st
  | Some id =>
      if negb (nonEmpty id) then Ok st
      else
        value <- cellValue cell ;;
        let style := orUndefined (getAttribute cell (lit "style")) in
        let parentId := orUndefined (getAttribute cell (lit "parent")) in
        if bool_decide (getAttribute cell (lit "vertex") = Some (lit "1")) then
          let node :=
            mkNode id value style None true parentId
                   (Some (extractFillColor (orElse style [])))
                   (cellGeometry cell) in
          Ok (mapSet id (mkNodeData node ∅ ∅) nodeMap, edges)
        else if bool_decide (getAttribute cell (lit "edge") = Some (lit "1")) then
          let source := orUndefined (getAttribute cell (lit "source")) in
          let target := orUndefined (getAttribute cell (lit "target")) in
          let edge := mkEdge id value style true parentId source target in
          match source, target with
          | Some s, Some t =>
              let sourceData := mapGet s nodeMap in
              let targetData := mapGet t nodeMap in
              let nodeMap1 :=
                match sourceData with
                | Some _ => mapAlter (addOutgoing t) s nodeMap
                | None => nodeMap
                end in
              let nodeMap2 :=
                match targetData with
                | Some _ => mapAlter (addIncoming s) t nodeMap1
                | None => nodeMap1
                end in
              Ok (nodeMap2, edges ++ [edge])
          | _, _ => Ok (nodeMap, edges ++ [edge])
          end
        else Ok st
  end.

Definition initialTypeStats : gmap jsstring nat :=
  list_to_map
    (map (fun k => (lit k, O))
         ["start"; "end"; "process"; "decision"; "input"; "output"; "unknown"]%string).

Definition bump (k : jsstring) (stats : gmap jsstring nat) : gmap jsstring nat :=
  <[k := S (default O (stats !! k))]> stats.

(** The three filters of the second pass. *)
Definition isContainerCell (node : FlowchartNode number) : bool :=
  bool_decide (node_parentId node = Some (lit "0"))
  || (bool_decide (node_parentId node = Some (lit "1")) && negb (node_vertex node)).

Definition isTextLabel (node : FlowchartNode number) : bool :=
  match node_style node with
  | Some style => nonEmpty style && includes style (lit "text;html=1")
  | None => false
  end.

Definition hasNoContent (node : FlowchartNode number) : bool :=
  (match node_value node with
   | Some v => negb (nonEmpty v) || negb (nonEmpty (trim v))
   | None => true
   end)
  && (match node_style node with
      | Some style => nonEmpty style && negb (includes style (lit "group"))
      | None => false
      end).

Definition withType (node : FlowchartNode number) (t : jsstring) : FlowchartNode number :=
  mkNode (node_id node) (node_value node) (node_style node) (Some t)
         (node_vertex node) (node_parentId node) (node_color node) (node_geometry node).

(** State of the second pass: [nodes] and [typeStats]. *)
Definition secondPassEntry
    (st : list (FlowchartNode number) * gmap jsstring nat)
    (entry : jsstring * NodeData)
    : list (FlowchartNode number) * gmap jsstring nat :=
  let (nodes, typeStats) := st in
  let node := nd_node (snd entry) in
  if isContainerCell node then st
  else if isTextLabel node then st
  else if hasNoContent node then st
  else
    let shapeType := detectShapeType toLowerCase (orElse (node_style node) []) in
    let contentType := analyzeNodeContent toLowerCase (orElse (node_value node) []) in
    let finalType :=
      determineNodeType shapeType contentType
        (0 <? size (nd_incoming (snd entry)))%nat
        (0 <? size (nd_outgoing (snd entry)))%nat in
    (nodes ++ [withType node finalType],
     if bool_decide (is_Some (typeStats !! finalType))
     then bump finalType typeStats
     else bump (lit "unknown") typeStats).

(** The body of the [try] block; [None] stands for [return null]. *)
Definition extractBody (xmlDoc : XMLDocument) (root : Element)
    : Exc (option (Elements number)) :=
  unwrapped <- unwrapMxfile xmlDoc root ;;
  match unwrapped with
  | None => Ok None
  | Some workingDoc0 =>
      workingDoc <-
        (if (length (docElementsByTagName workingDoc0 (lit "mxCell")) =? 0)%nat
         then fallbackDecode (docTextNodes workingDoc0) workingDoc0
         else Ok workingDoc0) ;;
      let finalCells := docElementsByTagName workingDoc (lit "mxCell") in
      firstPass <- forEachExc firstPassCell finalCells ([], []) ;;
      let (nodeMap, edges) := firstPass in
      let (nodes, _) := fold_left secondPassEntry nodeMap ([], initialTypeStats) in
      Ok (Some (mkElements nodes edges))
  end.

Definition extractFlowchartElements (xmlDoc : option XMLDocument)
    : option (Elements number) :=
  match xmlDoc with
  | None => None
  | Some doc =>
      match documentElement doc with
      | None => None
      | Some root =>
          match extractBody doc root with
          | Ok result => result
          | Err _ => None   (* catch (error) { return null; } *)
          end
      end
  end.

End Extractor.

(** ** Object literals used as maps

    [graph] and [outgoingConnections] are created as [{}]: a read of a key
    that is not an own property goes on to Object.prototype. Its property
    names are those of the language standard, with the legacy accessors of
    its annex B, which browsers and Node.js define. *)

Definition objectPrototypeNames : list jsstring :=
  map lit ["constructor"; "hasOwnProperty"; "isPrototypeOf"; "propertyIsEnumerable";
           "toLocaleString"; "toString"; "valueOf"; "__proto__";
           "__defineGetter__"; "__defineSetter__"; "__lookupGetter__";
           "__lookupSetter__"]%string.

Definition isObjectPrototypeName (key : jsstring) : bool :=
  existsb (strEq key) objectPrototypeNames.

(** What [obj[key]] finds: an own property, a property of Object.prototype
    (a function, or Object.prototype itself for '__proto__'; truthy in
    either case), or nothing, which reads as [undefined]. *)
Inductive Slot (A : Type) : Type :=
| Own (v : A)
| Inherited
| Absent.

Arguments Own {A} v.
Arguments Inherited {A}.
Arguments Absent {A}.

Definition readSlot {A : Type} (obj : gmap jsstring A) (key : jsstring) : Slot A :=
  match obj !! key with
  | Some v => Own v
  | None => if isObjectPrototypeName key then Inherited else Absent
  end.

(** ** Cycle detection *)

(** [if (!graph[s]) graph[s] = []; graph[s].push(t)] for an edge that has
    both ends. Under a key found in Object.prototype [graph[s]] is truthy, so
    no array is stored, and the value has no [push]: the call throws. *)
Definition addEdge (graph : gmap jsstring (list jsstring)) (edge : FlowchartEdge)
    : Exc (gmap jsstring (list jsstring)) :=
  if truthy (sourceId edge) && truthy (targetId edge) then
    match sourceId edge, targetId edge with
    | Some s, Some t =>
        match readSlot graph s with
        | Absent => Ok (<[s := [t]]> graph)
        | Own targets => Ok (<[s := targets ++ [t]]> graph)
        | Inherited => Err TypeError
        end
    | _, _ => Ok graph
    end
  else Ok graph.

Definition buildGraph (edges : list FlowchartEdge) : Exc (gmap jsstring (list jsstring)) :=
  forEachExc addEdge edges ∅.

(** The two sets the depth-first search mutates. *)
Record DfsState : Type := mkDfs {
  visited : gset jsstring;
  recursionStack : gset jsstring
}.

(** [const neighbors = graph[nodeId] || []], as the [for ... of] that follows
    reads it: a value inherited from Object.prototype is not iterable, and
    the loop throws. *)
Definition neighborsOf (graph : gmap jsstring (list jsstring)) (nodeId : jsstring)
    : Exc (list jsstring) :=
  match readSlot graph nodeId with
  | Own neighbors => Ok neighbors
  | Absent => Ok []
  | Inherited => Err TypeError
  end.

(** [for (const neighbor of neighbors) if (hasCycle(neighbor)) return true;]
    for a given recursive call [visit]. *)
Fixpoint anyNeighbor (visit : jsstring -> DfsState -> Exc (bool * DfsState))
    (neighbors : list jsstring) (st : DfsState) : Exc (bool * DfsState) :=
  match neighbors with
  | [] => Ok (false, st)
  | neighbor :: rest =>
      match visit neighbor st with
      | Err e => Err e
      | Ok (true, st') => Ok (true, st')
      | Ok (false, st') => anyNeighbor visit rest st'
      end
  end.

(** The recursive closure [hasCycle]; [fuel] bounds the recursion depth. *)
Fixpoint hasCycle (fuel : nat) (graph : gmap jsstring (list jsstring))
    (nodeId : jsstring) (st : DfsState) : Exc (bool * DfsState) :=
  match fuel with
  | O => Err FuelExhausted
  | S fuel' =>
      if decide (nodeId ∈ recursionStack st) then Ok (true, st)
      else if decide (nodeId ∈ visited st) then Ok (false, st)
      else
        let st1 := mkDfs (visited st ∪ {[nodeId]}) (recursionStack st ∪ {[nodeId]}) in
        match neighborsOf graph nodeId with
        | Err e => Err e
        | Ok neighbors =>
            match anyNeighbor (hasCycle fuel' graph) neighbors st1 with
            | Err e => Err e
            | Ok (true, st2) => Ok (true, st2)
            | Ok (false, st2) =>
                Ok (false, mkDfs (visited st2) (recursionStack st2 ∖ {[nodeId]}))
            end
        end
  end.

Definition loopIssue : jsstring :=
  lit "Potential infinite loop detected in the flowchart.".

Section Analyzer.

Variable number : Type.
(** String.prototype.toUpperCase *)
Variable toUpperCase : jsstring -> jsstring.

(** The loop over [nodes] of detectCycles, which breaks at the first cycle. *)
Fixpoint detectFrom (fuel : nat) (graph : gmap jsstring (list jsstring))
    (nodes : list (FlowchartNode number)) (st : DfsState) : Exc (list jsstring) :=
  match nodes with
  | [] => Ok []
  | node :: rest =>
      if decide (node_id node ∈ visited st) then detectFrom fuel graph rest st
      else
        match hasCycle fuel graph (node_id node) st with
        | Err e => Err e
        | Ok (true, _) => Ok [loopIssue]
        | Ok (false, st') => detectFrom fuel graph rest st'
        end
  end.

(** Every unvisited key of the graph costs one level of recursion, and a
    call on a visited node or on a node without successors one more. *)
Definition detectCycles (nodes : list (FlowchartNode number)) (edges : list FlowchartEdge)
    : Exc (list jsstring) :=
  graph <- buildGraph edges ;;
  detectFrom (S (size (dom graph))) graph nodes (mkDfs ∅ ∅).

(** ** analyzeFlowchart *)

Definition pushIssue (a : FlowchartAnalysis number) (issue : jsstring)
    : FlowchartAnalysis number :=
  mkAnalysis (totalElements a) (startNodes a) (endNodes a) (decisionNodes a)
             (processNodes a) (ioNodes a) (connections a) (issues a ++ [issue]).

Definition pushIssues (a : FlowchartAnalysis number) (l : list jsstring)
    : FlowchartAnalysis number :=
  mkAnalysis (totalElements a) (startNodes a) (endNodes a) (decisionNodes a)
             (processNodes a) (ioNodes a) (connections a) (issues a ++ l).

(** [node.type === t]; false when the node has no type. *)
Definition hasType (t : string) (node : FlowchartNode number) : bool :=
  match node_type node with
  | Some ty => strEq ty (lit t)
  | None => false
  end.

(** The [switch (node.type)] of step 1. *)
Definition categorize (a : FlowchartAnalysis number) (node : FlowchartNode number)
    : FlowchartAnalysis number :=
  if hasType "start" node then
    mkAnalysis (totalElements a) (startNodes a ++ [node]) (endNodes a) (decisionNodes a)
               (processNodes a) (ioNodes a) (connections a) (issues a)
  else if hasType "end" node then
    mkAnalysis (totalElements a) (startNodes a) (endNodes a ++ [node]) (decisionNodes a)
               (processNodes a) (ioNodes a) (connections a) (issues a)
  else if hasType "decision" node then
    mkAnalysis (totalElements a) (startNodes a) (endNodes a) (decisionNodes a ++ [node])
               (processNodes a) (ioNodes a) (connections a) (issues a)
  else if hasType "input" node || hasType "output" node then
    mkAnalysis (totalElements a) (startNodes a) (endNodes a) (decisionNodes a)
               (processNodes a) (ioNodes a ++ [node]) (connections a) (issues a)
  else
    mkAnalysis (totalElements a) (startNodes a) (endNodes a) (decisionNodes a)
               (processNodes a ++ [node]) (ioNodes a) (connections a) (issues a).

Definition noStartIssue : jsstring :=
  lit "Flowchart must have exactly one start node, but none were found.".

Definition manyStartIssue (count : nat) : jsstring :=
  lit "Flowchart must have exactly one start node, but "
  ++ numberToString count ++ lit " were found.".

Definition noEndIssue : jsstring :=
  lit "Flowchart must have at least one end node, but none were found.".

(** [node.value || `(ID: ${node.id})`] *)
Definition nodeLabel (node : FlowchartNode number) : jsstring :=
  orElse (node_value node) (lit "(ID: " ++ node_id node ++ lit ")").

Definition disconnectedIssue (node : FlowchartNode number) : jsstring :=
  lit "Node " ++ dquote ++ nodeLabel node ++ dquote ++ lit " is disconnected.".

Definition decisionIssue (node : FlowchartNode number) (outgoingCount : nat) : jsstring :=
  lit "Decision node " ++ dquote ++ nodeLabel node ++ dquote
  ++ lit " should have at least two outgoing branches, but has "
  ++ numberToString outgoingCount ++ lit ".".

(** [node.type?.charAt(0).toUpperCase() + node.type!.slice(1)]: the second
    operand reads a property of [undefined] when the node has no type. *)
Definition capitalizedType (node : FlowchartNode number) : Exc jsstring :=
  match node_type node with
  | Some ty => Ok (toUpperCase (take 1 ty) ++ drop 1 ty)
  | None => Err TypeError
  end.

Definition deadEndIssue (typeName : jsstring) (node : FlowchartNode number) : jsstring :=
  typeName ++ lit " node " ++ dquote ++ nodeLabel node ++ dquote ++ lit " is a dead end.".

Definition checkTerminals (a : FlowchartAnalysis number) : FlowchartAnalysis number :=
  let a1 :=
    if (length (startNodes a) =? 0)%nat then pushIssue a noStartIssue
    else if (1 <? length (startNodes a))%nat
    then pushIssue a (manyStartIssue (length (startNodes a)))
    else a in
  if (length (endNodes a1) =? 0)%nat then pushIssue a1 noEndIssue else a1.

Definition connectEdge (ids : gset jsstring) (edge : FlowchartEdge) : gset jsstring :=
  let ids1 := match sourceId edge with
              | Some s => if nonEmpty s then ids ∪ {[s]} else ids
              | None => ids
              end in
  match targetId edge with
  | Some t => if nonEmpty t then ids1 ∪ {[t]} else ids1
  | None => ids1
  end.

Definition checkConnected (nodes : list (FlowchartNode number)) (edges : list FlowchartEdge)
    (a : FlowchartAnalysis number) : FlowchartAnalysis number :=
  if (1 <? length nodes)%nat then
    let connectedNodeIds := fold_left connectEdge edges ∅ in
    fold_left
      (fun a node =>
         if decide (node_id node ∈ connectedNodeIds) then a
         else pushIssue a (disconnectedIssue node))
      nodes a
  else a.

(** What a property of [outgoingConnections] holds: a count or, under a key
    found in Object.prototype, a value that is not a number: the inherited
    function or object, or the string that [+ 1] makes of it. Such a value is
    truthy, converts to NaN in [< 2] and is not [=== 0]. *)
Inductive Tally : Type :=
| Count (n : nat)
| NotANumber.

(** [outgoingConnections[key] || 0] *)
Definition tallyOf (outgoingConnections : gmap jsstring Tally) (key : jsstring) : Tally :=
  match readSlot outgoingConnections key with
  | Own v => v
  | Inherited => NotANumber
  | Absent => Count O
  end.

(** [v + 1]: addition on a number, concatenation otherwise. *)
Definition plusOne (v : Tally) : Tally :=
  match v with
  | Count n => Count (n + 1)%nat
  | NotANumber => NotANumber
  end.

(** [outgoingConnections[s] = (outgoingConnections[s] || 0) + 1]. The
    assignment to '__proto__' calls the setter of Object.prototype, which
    ignores a value that is not an object. *)
Definition countOutgoing (outgoingConnections : gmap jsstring Tally) (edge : FlowchartEdge)
    : gmap jsstring Tally :=
  match sourceId edge with
  | Some s =>
      if nonEmpty s then
        let v := plusOne (tallyOf outgoingConnections s) in
        if strEq s (lit "__proto__") then outgoingConnections
        else <[s := v]> outgoingConnections
      else outgoingConnections
  | None => outgoingConnections
  end.

Definition outgoingOf (outgoingConnections : gmap jsstring Tally)
    (node : FlowchartNode number) : Tally :=
  tallyOf outgoingConnections (node_id node).

Definition checkDecision (outgoingConnections : gmap jsstring Tally)
    (a : FlowchartAnalysis number) (node : FlowchartNode number) : FlowchartAnalysis number :=
  match outgoingOf outgoingConnections node with
  | Count outgoingCount =>
      if (outgoingCount <? 2)%nat then pushIssue a (decisionIssue node outgoingCount) else a
  | NotANumber => a
  end.

Definition checkDeadEnd (outgoingConnections : gmap jsstring Tally)
    (a : FlowchartAnalysis number) (node : FlowchartNode number)
    : Exc (FlowchartAnalysis number) :=
  match outgoingOf outgoingConnections node with
  | Count O =>
      typeName <- capitalizedType node ;; Ok (pushIssue a (deadEndIssue typeName node))
  | _ => Ok a
  end.

Definition analyzeFlowchart (elements : option (Elements number))
    : Exc (option (FlowchartAnalysis number)) :=
  match elements with
  | None => Ok None
  | Some elements =>
      if (length (nodes elements) =? 0)%nat then Ok None
      else
        let nodes := nodes elements in
        let edges := edges elements in
        let analysis0 :=
          mkAnalysis (length nodes + length edges)%nat [] [] [] [] [] edges [] in
        let analysis1 := fold_left categorize nodes analysis0 in
        let analysis2 := checkTerminals analysis1 in
        let analysis3 := checkConnected nodes edges analysis2 in
        cycleIssues <- detectCycles nodes edges ;;
        let analysis4 := pushIssues analysis3 cycleIssues in
        let outgoingConnections := fold_left countOutgoing edges ∅ in
        let analysis5 :=
          fold_left (checkDecision outgoingConnections) (decisionNodes analysis4) analysis4 in
        let deadEndCandidates :=
          processNodes analysis5 ++ ioNodes analysis5 ++ decisionNodes analysis5 in
        analysis6 <- forEachExc (checkDeadEnd outgoingConnections) deadEndCandidates analysis5 ;;
        Ok (Some analysis6)
  end.

End Analyzer.

(** ** parseDrawioXml *)

Section Parser.

Variable inflateRaw : list N -> Exc jsstring.
Variable parseFromString : jsstring -> Exc XMLDocument.

(** The loop over the candidates: the first document without a parsererror
    element is returned; an exception of the parser is caught and the next
    candidate is tried. *)
Fixpoint firstParsed (attempts : list jsstring) : option XMLDocument :=
  match attempts with
  | [] => None
  | candidate :: rest =>
      match parseFromString candidate with
      | Ok doc => if hasParserError doc then firstParsed rest else Some doc
      | Err _ => firstParsed rest
      end
  end.

Definition parseDrawioXml (raw : jsstring) : Exc (option XMLDocument) :=
  if negb (nonEmpty raw) || negb (nonEmpty (trim raw)) then Ok None
  else
    decodedViaHelper <- decodeDiagramContent inflateRaw raw ;;
    let attempts :=
      [raw; decodeHtml raw]
      ++ (if nonEmpty decodedViaHelper then [decodedViaHelper] else []) in
    Ok (firstParsed attempts).

End Parser.

(** ** getBasicDiagramInfo *)

Record DiagramInfo : Type := mkDiagramInfo {
  rootTagName : jsstring;
  cellCount : nat
}.

Definition getBasicDiagramInfo (xmlDoc : option XMLDocument) : option DiagramInfo :=
  match xmlDoc with
  | None => None
  | Some doc =>
      match documentElement doc with
      | None => None
      | Some rootElement =>
          let cells := elementsByTagName rootElement (lit "mxCell") in
          Some (mkDiagramInfo (tagName rootElement) (length cells))
      end
  end.

(** ** extractXmlFromSvg *)

(** [element.hasAttribute(name)] *)
Definition hasAttribute (e : Element) (name : jsstring) : bool :=
  match getAttribute e name with Some _ => true | None => false end.

Section SvgExtractor.

Variable toLowerCase : jsstring -> jsstring.
(** [pako.inflate(bytes, { to: 'string' })] *)
Variable inflate : list N -> Exc jsstring.
(** [parser.parseFromString(text, 'text/xml')] *)
Variable parseFromString : jsstring -> Exc XMLDocument.
(** [parser.parseFromString(text, 'image/svg+xml')] *)
Variable parseSvg : jsstring -> Exc XMLDocument.

(** atob -> inflate -> decodeURIComponent, as both decompression steps of
    extractXmlFromSvg run it; the elements of the Uint8Array are the code
    units modulo 256. *)
Definition inflateContent (content : jsstring) : Exc jsstring :=
  decodedData <- atob content ;;
  inflated <- inflate (map (fun c => c mod 256) decodedData) ;;
  decodeURIComponent inflated.

(** The inner [try] block: [Some finalXml] when it returns, [None] when
    control falls out of it. *)
Definition unwrapDiagram (decodedUri : jsstring) : Exc (option jsstring) :=
  doc2 <- parseFromString decodedUri ;;
  match documentElement doc2 with
  | Some mxFile =>
      if strEq (tagName mxFile) (lit "mxfile") then
        match head (elementsByTagName mxFile (lit "diagram")) with
        | Some diagramNode =>
            let diagramContent := orElse (Some (textContent diagramNode)) [] in
            finalXml <- inflateContent diagramContent ;;
            Ok (Some finalXml)
        | None => Ok None
        end
      else Ok None
  | None => Ok None
  end.

(** The middle [try] block. *)
Definition decompressContent (content : jsstring) : Exc jsstring :=
  decodedUri <- inflateContent content ;;
  unwrapped <- tryCatch (unwrapDiagram decodedUri) (Ok None) ;;
  match unwrapped with
  | Some finalXml => Ok finalXml
  | None => Ok decodedUri
  end.

(** The body of the outer [try] block; [None] stands for [return null]. *)
Definition extractXmlFromSvgBody (svgContent : jsstring) : Exc (option jsstring) :=
  svgDoc <- parseSvg svgContent ;;
  match documentElement svgDoc with
  | Some rootSvg =>
      if strEq (toLowerCase (tagName rootSvg)) (lit "svg")
         && hasAttribute rootSvg (lit "content")
      then
        match getAttribute rootSvg (lit "content") with
        | Some content =>
            if nonEmpty content then
              tempDoc <- parseFromString content ;;
              if negb (hasParserError tempDoc) then Ok (Some content)
              else
                xml <- tryCatch (decompressContent content) (Ok content) ;;
                Ok (Some xml)
            else Ok None
        | None => Ok None
        end
      else Ok None
  | None => Ok None
  end.

Definition extractXmlFromSvg (svgContent : jsstring) : option jsstring :=
  match extractXmlFromSvgBody svgContent with
  | Ok result => result
  | Err _ => None   (* catch (error) { return null; } *)
  end.

End SvgExtractor.

(** ** Notions used to state the properties *)

(** toLowerCase on the ASCII letters; it agrees with the platform function on
    strings of ASCII code units and instantiates the examples. *)
Definition asciiLower (s : jsstring) : jsstring :=
  map (fun c => if (65 <=? c) && (c <=? 90) then c + 32 else c) s.

(** An edge with both ends present links its source to its target; this is
    the directed graph detectCycles searches. *)
Definition linked (edges : list FlowchartEdge) (u v : jsstring) : Prop :=
  exists e, e ∈ edges /\ sourceId e = Some u /\ targetId e = Some v /\ u <> [] /\ v <> [].

(** The edges that leave the node [id]: their source is present and is
    [id]. This is what [outgoingConnections] counts under a key that is not
    a name of Object.prototype. *)
Definition sourceIs (id : jsstring) (e : FlowchartEdge) : bool :=
  match sourceId e with
  | Some s => nonEmpty s && strEq s id
  | None => false
  end.

Definition outgoingEdges (edges : list FlowchartEdge) (id : jsstring) : list FlowchartEdge :=
  List.filter (sourceIs id) edges.


(** The six types the classifier assigns. *)
Definition knownTypes : list jsstring :=
  map lit ["start"; "end"; "decision"; "input"; "output"; "process"]%string.

Inductive Bucket : Type :=
| StartBucket | EndBucket | DecisionBucket | IoBucket | ProcessBucket.

#[global] Instance Bucket_eq_dec : EqDecision Bucket.
Proof. solve_decision. Defined.

Definition bucket {number : Type} (a : FlowchartAnalysis number) (b : Bucket)
    : list (FlowchartNode number) :=
  match b with
  | StartBucket => startNodes a
  | EndBucket => endNodes a
  | DecisionBucket => decisionNodes a
  | IoBucket => ioNodes a
  | ProcessBucket => processNodes a
  end.

(** The bucket the [switch] of step 1 selects for a node. *)
Definition bucketFor {number : Type} (node : FlowchartNode number) : Bucket :=
  if hasType number "start" node then StartBucket
  else if hasType number "end" node then EndBucket
  else if hasType number "decision" node then DecisionBucket
  else if hasType number "input" node || hasType number "output" node then IoBucket
  else ProcessBucket.

Definition isDigit (c : N) : bool := (48 <=? c) && (c <=? 57).

(** The five families of issue messages, told apart by their last code
    units: a branch issue ends in a digit and a full stop, the others in
    'und.', 'ted.', 'art.' and 'end.' (found, disconnected, flowchart,
    dead end). *)
Inductive IssueKind : Type :=
| TerminalIssue | DisconnectedIssue | LoopIssue | BranchIssue | DeadEndIssue | OtherIssue.

Definition issueKind (s : jsstring) : IssueKind :=
  match rev s with
  | _ :: d :: _ =>
      if negb (endsWith s (lit ".")) then OtherIssue
      else if isDigit d then BranchIssue
      else if endsWith s (lit "und.") then TerminalIssue
      else if endsWith s (lit "ted.") then DisconnectedIssue
      else if endsWith s (lit "art.") then LoopIssue
      else if endsWith s (lit "end.") then DeadEndIssue
      else OtherIssue
  | _ => OtherIssue
  end.

Local Close Scope N_scope.

(** *** The search on own keys

    The functions of cycle detection as they run when no key is found in
    Object.prototype: a key without own property has no successor. They are
    the reference the functions of the program are compared with. *)

Definition addArc (graph : gmap jsstring (list jsstring)) (edge : FlowchartEdge)
    : gmap jsstring (list jsstring) :=
  if truthy (sourceId edge) && truthy (targetId edge) then
    match sourceId edge, targetId edge with
    | Some s, Some t => <[s := default [] (graph !! s) ++ [t]]> graph
    | _, _ => graph
    end
  else graph.

(** The own properties of the object buildGraph returns. *)
Definition adjacency (edges : list FlowchartEdge) : gmap jsstring (list jsstring) :=
  fold_left addArc edges ∅.

Fixpoint searchNeighbors (visit : jsstring -> DfsState -> option (bool * DfsState))
    (neighbors : list jsstring) (st : DfsState) : option (bool * DfsState) :=
  match neighbors with
  | [] => Some (false, st)
  | neighbor :: rest =>
      match visit neighbor st with
      | None => None
      | Some (true, st') => Some (true, st')
      | Some (false, st') => searchNeighbors visit rest st'
      end
  end.

(** [None] when the fuel runs out. *)
Fixpoint search (fuel : nat) (graph : gmap jsstring (list jsstring))
    (nodeId : jsstring) (st : DfsState) : option (bool * DfsState) :=
  match fuel with
  | O => None
  | S fuel' =>
      if decide (nodeId ∈ recursionStack st) then Some (true, st)
      else if decide (nodeId ∈ visited st) then Some (false, st)
      else
        let st1 := mkDfs (visited st ∪ {[nodeId]}) (recursionStack st ∪ {[nodeId]}) in
        let neighbors := default [] (graph !! nodeId) in
        match searchNeighbors (search fuel' graph) neighbors st1 with
        | None => None
        | Some (true, st2) => Some (true, st2)
        | Some (false, st2) =>
            Some (false, mkDfs (visited st2) (recursionStack st2 ∖ {[nodeId]}))
        end
  end.

Fixpoint searchFrom {number : Type} (fuel : nat) (graph : gmap jsstring (list jsstring))
    (nodes : list (FlowchartNode number)) (st : DfsState) : option (list jsstring) :=
  match nodes with
  | [] => Some []
  | node :: rest =>
      if decide (node_id node ∈ visited st) then searchFrom fuel graph rest st
      else
        match search fuel graph (node_id node) st with
        | None => None
        | Some (true, _) => Some [loopIssue]
        | Some (false, st') => searchFrom fuel graph rest st'
        end
  end.

Definition searchCycles {number : Type} (nodes : list (FlowchartNode number))
    (edges : list FlowchartEdge) : option (list jsstring) :=
  let graph := adjacency edges in
  searchFrom (S (size (dom graph))) graph nodes (mkDfs ∅ ∅).

(** A result of the program against the result of the search on own keys:
    the same value, or a TypeError, or both out of fuel. *)
Definition agrees {A : Type} (result : Exc A) (reference : option A) : Prop :=
  match result with
  | Ok r => reference = Some r
  | Err e => e = TypeError \/ (e = FuelExhausted /\ reference = None)
  end.

(** No id of a node and no end of an edge with both ends is the name of a
    property of Object.prototype. *)
Definition plainEdge (e : FlowchartEdge) : bool :=
  negb (truthy (sourceId e) && truthy (targetId e))
  || (negb (isObjectPrototypeName (orElse (sourceId e) []))
      && negb (isObjectPrototypeName (orElse (targetId e) []))).

Definition prototypeFree {number : Type} (nodes : list (FlowchartNode number))
    (edges : list FlowchartEdge) : bool :=
  forallb (fun n => negb (isObjectPrototypeName (node_id n))) nodes
  && forallb plainEdge edges.

Section DfsNotions.

Variable graph : gmap jsstring (list jsstring).

(** The successor relation the search follows. *)
Definition arc (u v : jsstring) : Prop := v ∈ default [] (graph !! u).

(** The nodes whose call has returned. *)
Definition black (st : DfsState) : gset jsstring := visited st ∖ recursionStack st.

(** Finished nodes only lead to finished nodes, and none lies on a cycle. *)
Definition settled (B : gset jsstring) : Prop :=
  (forall u v, u ∈ B -> arc u v -> v ∈ B) /\ (forall u, u ∈ B -> ~ tc arc u u).

(** What a call [hasCycle(nodeId)] from state [st] guarantees. *)
Definition dfsPost (st : DfsState) (nodeId : jsstring) (r : bool * DfsState) : Prop :=
  visited st ⊆ visited (snd r)
  /\ (fst r = false ->
      recursionStack (snd r) = recursionStack st
      /\ nodeId ∈ black (snd r)
      /\ (settled (black st) -> settled (black (snd r))))
  /\ (fst r = true ->
      (forall s, s ∈ recursionStack st -> tc arc s nodeId) ->
      exists c, tc arc c c).

(** The same for the loop over the successors [ns] of a node. *)
Definition loopPost (st : DfsState) (ns : list jsstring) (r : bool * DfsState) : Prop :=
  visited st ⊆ visited (snd r)
  /\ (fst r = false ->
      recursionStack (snd r) = recursionStack st
      /\ (forall v, v ∈ ns -> v ∈ black (snd r))
      /\ (settled (black st) -> settled (black (snd r))))
  /\ (fst r = true ->
      (forall s v, s ∈ recursionStack st -> v ∈ ns -> tc arc s v) ->
      exists c, tc arc c c).

End DfsNotions.

Section IssueLists.

Variable number : Type.

(** The issues each check appends, as functions of the input. *)
Definition terminalIssues (starts ends : nat) : list jsstring :=
  (if (starts =? 0)%nat then [noStartIssue]
   else if (1 <? starts)%nat then [manyStartIssue starts] else [])
  ++ (if (ends =? 0)%nat then [noEndIssue] else []).

Definition disconnectedIssues (nodes : list (FlowchartNode number))
    (edges : list FlowchartEdge) : list jsstring :=
  if (1 <? length nodes)%nat then
    flat_map
      (fun node =>
         if decide (node_id node ∈ fold_left connectEdge edges ∅) then []
         else [disconnectedIssue number node])
      nodes
  else [].

Definition branchIssues (outgoingConnections : gmap jsstring Tally)
    (decisions : list (FlowchartNode number)) : list jsstring :=
  flat_map
    (fun node =>
       match outgoingOf number outgoingConnections node with
       | Count outgoingCount =>
           if (outgoingCount <? 2)%nat then [decisionIssue number node outgoingCount] else []
       | NotANumber => []
       end)
    decisions.

Definition typed (node : FlowchartNode number) : Prop := is_Some (node_type node).

End IssueLists.


(** The outgoing count the branch check reads for a node. *)
Definition outgoingCount {number : Type} (edges : list FlowchartEdge)
    (node : FlowchartNode number) : nat :=
  length (outgoingEdges edges (node_id node)).


(** The second pass keeps a node when none of its three filters applies. *)
Definition kept {number : Type} (node : FlowchartNode number) : bool :=
  negb (isContainerCell number node) && negb (isTextLabel number node)
  && negb (hasNoContent number node).

Section ExtractorNotions.

Variable number : Type.
Variable toLowerCase : jsstring -> jsstring.

(** The type the second pass writes into a node it keeps. *)
Definition assignedType (entry : jsstring * NodeData number) : jsstring :=
  classify toLowerCase
    (orElse (node_style (nd_node number (snd entry))) [])
    (orElse (node_value (nd_node number (snd entry))) [])
    (0 <? size (nd_incoming number (snd entry)))
    (0 <? size (nd_outgoing number (snd entry))).

End ExtractorNotions.

(** The mxfile wrapper whose first diagram page cannot be used: its text is
    not empty and decodes to the empty string, or to text the parser
    rejects. *)
Definition mxfileRejected (inflateRaw : list N -> Exc jsstring)
    (parseFromString : jsstring -> Exc XMLDocument) (doc : XMLDocument) (root : Element)
    : Prop :=
  tagName root = lit "mxfile"
  /\ exists diagramNode decoded,
       head (docElementsByTagName doc (lit "diagram")) = Some diagramNode
       /\ textContent diagramNode <> []
       /\ decodeDiagramContent inflateRaw (textContent diagramNode) = Ok decoded
       /\ (decoded = []
           \/ exists parsed, parseFromString decoded = Ok parsed
                             /\ hasParserError parsed = true).

(** The parser reports every failure in the document it returns. *)
Definition parserNeverThrows (parseFromString : jsstring -> Exc XMLDocument) : Prop :=
  forall text, exists parsed, parseFromString text = Ok parsed.


(** *** decodeHtml and the decoder *)

Local Open Scope N_scope.

(** The entity written for a code unit by the escaping decodeHtml undoes:
    the five characters with a special meaning in XML text and attribute
    values have one, every other code unit stands for itself. *)
Definition escapeCodeUnit (c : N) : jsstring :=
  if c =? 38 then lit "&amp;"
  else if c =? 60 then lit "&lt;"
  else if c =? 62 then lit "&gt;"
  else if c =? 34 then lit "&quot;"
  else if c =? 39 then lit "&#39;"
  else [c].

(** An escaped text, piece by piece: a code unit is written raw or as its
    entity. *)
Inductive Piece : Type :=
| Raw (c : N)
| Entity (c : N).

Definition pieceCodeUnit (p : Piece) : N :=
  match p with Raw c | Entity c => c end.

Definition written (p : Piece) : jsstring :=
  match p with
  | Raw c => [c]
  | Entity c => escapeCodeUnit c
  end.

Definition escapedText (ps : list Piece) : jsstring := flat_map written ps.

Definition plainText (ps : list Piece) : jsstring := map pieceCodeUnit ps.

(** Every ampersand of the plain text is written as its entity. *)
Definition ampersandsEscaped (ps : list Piece) : bool :=
  forallb (fun p => match p with Raw c => negb (c =? 38) | Entity _ => true end) ps.

Definition rawOk (p : Piece) : Prop := p <> Raw 38.

(** What is left of a piece after the first [k] replacements of
    decodeHtml. *)
Definition partlyDecoded (k : nat) (p : Piece) : jsstring :=
  if existsb (N.eqb (pieceCodeUnit p)) (take k [60; 62; 34; 39])
  then [pieceCodeUnit p] else written p.

(** A code unit that rules out base64 text, also behind a URI encoding: it
    is outside the base64 alphabet and is neither ASCII white space, nor the
    padding '=', nor the '%' of an escape. *)
Definition notBase64 (c : N) : bool :=
  match base64Value c with
  | Some _ => false
  | None => negb (isAsciiWhitespace c) && negb (c =? 61) && negb (c =? 37)
  end.

(** A colour as extractFillColor returns it: '#' and six hexadecimal
    digits. *)
Definition isHexColor (s : jsstring) : bool :=
  match s with
  | c :: digits => (c =? 35) && (length digits =? 6)%nat && forallb isHexDigit digits
  | [] => false
  end.

Local Close Scope N_scope.

(** *** The extractor *)

(** What every node of an extraction result satisfies. *)
Definition extractedNode {number : Type} (node : FlowchartNode number) : Prop :=
  node_id node <> []
  /\ node_vertex node = true
  /\ (exists t, node_type node = Some t /\ In t knownTypes)
  /\ (exists c, node_color node = Some c /\ isHexColor c = true)
  /\ node_style node <> Some []
  /\ node_parentId node <> Some []
  /\ kept node = true.

(** What every edge of an extraction result satisfies: an attribute that is
    missing or empty in the cell is undefined in the edge. *)
Definition extractedEdge (edge : FlowchartEdge) : Prop :=
  edge_id edge <> []
  /\ edge_edge edge = true
  /\ edge_style edge <> Some []
  /\ edge_parentId edge <> Some []
  /\ sourceId edge <> Some []
  /\ targetId edge <> Some [].

(** An entry of nodeMap after the first pass. *)
Definition entryOk {number : Type} (entry : jsstring * NodeData number) : Prop :=
  let node := nd_node number (snd entry) in
  node_id node = fst entry
  /\ fst entry <> []
  /\ node_vertex node = true
  /\ node_type node = None
  /\ (exists c, node_color node = Some c /\ isHexColor c = true)
  /\ node_style node <> Some []
  /\ node_parentId node <> Some [].

(** What the first pass keeps true of nodeMap and edges. *)
Definition firstPassInv {number : Type}
    (st : list (jsstring * NodeData number) * list FlowchartEdge) : Prop :=
  List.NoDup (map fst (fst st)) /\ Forall entryOk (fst st) /\ Forall extractedEdge (snd st).

(** Number of nodes of type [t]. *)
Definition typeCount {number : Type} (t : jsstring) (ns : list (FlowchartNode number)) : nat :=
  length (List.filter (fun n => bool_decide (node_type n = Some t)) ns).

(** The id under which the first pass handles a cell, if any. *)
Definition cellId (cell : Element) : option jsstring :=
  orUndefined (getAttribute cell (lit "id")).

(** The cell is stored in nodeMap under the id [k]. *)
Definition definesVertex (k : jsstring) (cell : Element) : bool :=
  bool_decide (cellId cell = Some k)
  && bool_decide (getAttribute cell (lit "vertex") = Some (lit "1")).

(** The connection an edge cell records: its source and its target, when it
    has both. *)
Definition connection (cell : Element) : option (jsstring * jsstring) :=
  match cellId cell with
  | Some _ =>
      if bool_decide (getAttribute cell (lit "vertex") = Some (lit "1")) then None
      else if bool_decide (getAttribute cell (lit "edge") = Some (lit "1")) then
        match orUndefined (getAttribute cell (lit "source")),
              orUndefined (getAttribute cell (lit "target")) with
        | Some s, Some t => Some (s, t)
        | _, _ => None
        end
      else None
  | None => None
  end.

(** Some cell of the list records a connection that arrives at [k], and
    one that leaves [k]. *)
Definition arrivesAt (k : jsstring) (cells : list Element) : bool :=
  existsb (fun cell => match connection cell with
                       | Some (_, t) => strEq t k
                       | None => false
                       end) cells.

Definition leavesFrom (k : jsstring) (cells : list Element) : bool :=
  existsb (fun cell => match connection cell with
                       | Some (s, _) => strEq s k
                       | None => false
                       end) cells.

(** *** The analyzer *)

(** The node [id] is an end of some edge: the set connectedNodeIds of the
    connectivity check. *)
Definition isEndpoint (edges : list FlowchartEdge) (id : jsstring) : Prop :=
  id <> [] /\ exists e, In e edges /\ (sourceId e = Some id \/ targetId e = Some id).

(** A cycle of complete edges that can be reached from a node of the
    list. *)
Definition reachableCycle {number : Type} (nodes : list (FlowchartNode number))
    (edges : list FlowchartEdge) : Prop :=
  exists n c, In n nodes /\ rtc (linked edges) (node_id n) c /\ tc (linked edges) c c.

(** The type of a node as the dead-end message prints it. *)
Definition capitalized (toUpperCase : jsstring -> jsstring) (ty : jsstring) : jsstring :=
  toUpperCase (take 1 ty) ++ drop 1 ty.

(** The issues the dead-end check appends for the candidates [l]. *)
Definition deadEndIssues (number : Type) (toUpperCase : jsstring -> jsstring)
    (outgoingConnections : gmap jsstring Tally) (l : list (FlowchartNode number))
    : list jsstring :=
  flat_map
    (fun node =>
       match node_type node, outgoingOf number outgoingConnections node with
       | Some ty, Count O => [deadEndIssue number (capitalized toUpperCase ty) node]
       | _, _ => []
       end)
    l.

(** The nodes the dead-end check looks at: every node that is neither a
    start nor an end node. *)
Definition deadEndCandidate (number : Type) (node : FlowchartNode number) : bool :=
  negb (hasType number "start" node) && negb (hasType number "end" node).

(** The structure the checks of analyzeFlowchart ask for. *)
Definition wellStructured {number : Type} (el : Elements number) : Prop :=
  length (List.filter (hasType number "start") (nodes el)) = 1
  /\ 0 < length (List.filter (hasType number "end") (nodes el))
  /\ (1 < length (nodes el) ->
      forall n, In n (nodes el) -> isEndpoint (edges el) (node_id n))
  /\ ~ reachableCycle (nodes el) (edges el)
  /\ (forall n, In n (nodes el) -> hasType number "decision" n = true ->
                2 <= outgoingCount (edges el) n)
  /\ (forall n, In n (nodes el) -> deadEndCandidate number n = true ->
                0 < outgoingCount (edges el) n).

(** *** The parsers *)

(** The verdict of the parser on one text. *)
Definition cleanParse (parseFromString : jsstring -> Exc XMLDocument) (text : jsstring)
    : option XMLDocument :=
  match parseFromString text with
  | Ok doc => if hasParserError doc then None else Some doc
  | Err _ => None
  end.

(** The content attribute of an SVG export: the root element is an svg
    element that carries a non-empty content attribute. *)
Definition svgContentOf (toLowerCase : jsstring -> jsstring) (svgDoc : XMLDocument)
    : option jsstring :=
  match documentElement svgDoc with
  | Some rootSvg =>
      if strEq (toLowerCase (tagName rootSvg)) (lit "svg") then
        match getAttribute rootSvg (lit "content") with
        | Some content => if nonEmpty content then Some content else None
        | None => None
        end
      else None
  | None => None
  end.

(** ** Example documents and flowcharts *)

Local Open Scope string_scope.

(** <mxfile><diagram>!</diagram></mxfile> *)
Definition undecodableMxfile : XMLDocument :=
  mkDocument (Some (mkElement (lit "mxfile") []
                      [ElementNode (lit "diagram") [] [TextNode (lit "!")]])).

(** <mxGraphModel><root/></mxGraphModel> *)
Definition emptyDiagram : XMLDocument :=
  mkDocument (Some (mkElement (lit "mxGraphModel") [] [ElementNode (lit "root") [] []])).

(** <mxGraphModel><root><mxCell id='0'/><mxCell id='1' parent='0'/>
    <mxCell id='2' vertex='1' parent='1'/></root></mxGraphModel> *)
Definition bareVertexDiagram : XMLDocument :=
  mkDocument
    (Some (mkElement (lit "mxGraphModel") []
             [ElementNode (lit "root") []
                [ElementNode (lit "mxCell") [(lit "id", lit "0")] [];
                 ElementNode (lit "mxCell") [(lit "id", lit "1"); (lit "parent", lit "0")] [];
                 ElementNode (lit "mxCell")
                   [(lit "id", lit "2"); (lit "vertex", lit "1"); (lit "parent", lit "1")] []]])).

(** The same diagram with a style on the empty vertex. *)
Definition styledVertexDiagram : XMLDocument :=
  mkDocument
    (Some (mkElement (lit "mxGraphModel") []
             [ElementNode (lit "root") []
                [ElementNode (lit "mxCell") [(lit "id", lit "0")] [];
                 ElementNode (lit "mxCell") [(lit "id", lit "1"); (lit "parent", lit "0")] [];
                 ElementNode (lit "mxCell")
                   [(lit "id", lit "2"); (lit "style", lit "rounded=0;html=1;");
                    (lit "vertex", lit "1"); (lit "parent", lit "1")] []]])).

Definition exNode (id : string) (type : option string) : FlowchartNode N :=
  mkNode (lit id) (Some (lit id)) None (option_map lit type) true (Some (lit "1")) None None.

Definition exEdge (id source : string) (target : option string) : FlowchartEdge :=
  mkEdge (lit id) None None true (Some (lit "1")) (Some (lit source)) (option_map lit target).

Definition nodeA : FlowchartNode N := exNode "A" (Some "start").
Definition testNode : FlowchartNode N := exNode "test" (Some "decision").
Definition stepNode : FlowchartNode N := exNode "step" None.
Definition otherNode : FlowchartNode N := exNode "other" (Some "process").


(** A -> B -> C -> A *)
Definition loopChart : Elements N :=
  mkElements [nodeA; exNode "B" (Some "process"); exNode "C" (Some "process")]
             [exEdge "e1" "A" (Some "B"); exEdge "e2" "B" (Some "C");
              exEdge "e3" "C" (Some "A")].


(** go -> test -> stop, and a second connector that leaves test and ends
    nowhere. *)
Definition danglingChart : Elements N :=
  mkElements [exNode "go" (Some "start"); testNode; exNode "stop" (Some "end")]
             [exEdge "e1" "go" (Some "test"); exEdge "e2" "test" (Some "stop");
              exEdge "e3" "test" None].

(** A node without a type that leads to an end node. *)
Definition untypedChart : Elements N :=
  mkElements [stepNode; exNode "done" (Some "end")]
             [exEdge "e1" "step" (Some "done")].

(** Entries of [nodeMap] that agree on style, value and topology flags and
    differ in id, parent and neighbours. *)
Definition ovalEntry (id parent : string) (sources targets : list string)
    : jsstring * NodeData N :=
  (lit id,
   mkNodeData N
     (mkNode (lit id) (Some (lit "Begin")) (Some (lit "ellipse;html=1;")) None true
             (Some (lit parent)) None None)
     (list_to_set (map lit sources)) (list_to_set (map lit targets))).

Definition ovalEntry1 : jsstring * NodeData N := ovalEntry "n1" "1" [] ["a"].
Definition ovalEntry2 : jsstring * NodeData N := ovalEntry "n2" "layer" [] ["b"; "c"].

(** Platform functions for the examples: an inflater that rejects every
    input, a parser that returns the same document for every text, and a
    parseFloat that reads every text as zero. *)
Definition noInflate : list N -> Exc jsstring := fun _ => Err InflateError.
Definition parserOf (doc : XMLDocument) : jsstring -> Exc XMLDocument := fun _ => Ok doc.
Definition zeroFloat : jsstring -> N := fun _ => 0%N.

(** The five cells of a two-step diagram: the two containers, an ellipse
    labelled Start, an ellipse labelled Stop, and the edge between them. *)
Definition containerCells : list Element :=
  [mkElement (lit "mxCell") [(lit "id", lit "0")] [];
   mkElement (lit "mxCell") [(lit "id", lit "1"); (lit "parent", lit "0")] []].

Definition startCell : Element :=
  mkElement (lit "mxCell")
    [(lit "id", lit "2"); (lit "value", lit "Start"); (lit "style", lit "ellipse;");
     (lit "vertex", lit "1"); (lit "parent", lit "1")] [].

Definition stopCell : Element :=
  mkElement (lit "mxCell")
    [(lit "id", lit "3"); (lit "value", lit "Stop"); (lit "style", lit "ellipse;");
     (lit "vertex", lit "1"); (lit "parent", lit "1")] [].

Definition edgeCell : Element :=
  mkElement (lit "mxCell")
    [(lit "id", lit "4"); (lit "edge", lit "1"); (lit "parent", lit "1");
     (lit "source", lit "2"); (lit "target", lit "3")] [].

Definition twoStepRoot : Element :=
  mkElement (lit "mxGraphModel") []
    [ElementNode (lit "root") []
       (map asNode (containerCells ++ [startCell; stopCell; edgeCell]))].

Definition twoStepDiagram : XMLDocument := mkDocument (Some twoStepRoot).

(** The same diagram as the text of an uncompressed mxfile. *)
Definition wrappedRoot : Element :=
  mkElement (lit "mxfile") []
    [ElementNode (lit "diagram") [] [TextNode (lit "<mxGraphModel>...</mxGraphModel>")]].

Definition wrappedDiagram : XMLDocument := mkDocument (Some wrappedRoot).

(** An SVG export whose content attribute holds XML text. *)
Definition svgExport : XMLDocument :=
  mkDocument (Some (mkElement (lit "svg") [(lit "content", lit "<mxfile/>")] [])).

(** go -> stop, and a process node that no edge touches. *)
Definition idleNode : FlowchartNode N := exNode "idle" (Some "process").

Definition isolatedChart : Elements N :=
  mkElements [exNode "go" (Some "start"); exNode "stop" (Some "end"); idleNode]
             [exEdge "e1" "go" (Some "stop")].

(** A single node whose id is the name of a property of Object.prototype. *)
Definition constructorNode : FlowchartNode N := exNode "constructor" (Some "process").

Definition constructorChart : Elements N := mkElements [constructorNode] [].

(** A <-> B, and a process node 'toString' that no edge touches: the loop
    is found before the search reaches the third node. *)
Definition shadowedChart : Elements N :=
  mkElements [nodeA; exNode "B" (Some "end"); exNode "toString" (Some "process")]
             [exEdge "e1" "A" (Some "B"); exEdge "e2" "B" (Some "A")].

(** '&lt;mxGraphModel&gt;&lt;root/&gt;&lt;/mxGraphModel&gt;', piece by
    piece. *)
Definition escapedModel : list Piece :=
  map Entity (lit "<mxGraphModel><root/></mxGraphModel>").

Local Close Scope string_scope.

(** * Properties *)

Example atob_hello : atob (lit "aGVsbG8=") = Ok (lit "hello").
Proof. reflexivity. Qed.

Example atob_bang : atob (lit "!") = Err InvalidCharacterError.
Proof. reflexivity. Qed.

Example uri_euro : decodeURIComponent (lit "%3Ca%E2%82%AC") = Ok [60; 97; 8364]%N.
Proof. reflexivity. Qed.

Example number_12 : numberToString 120 = lit "120".
Proof. reflexivity. Qed.

Example fill_short : extractFillColor (lit "rounded=1;fillColor=#abc;") = lit "#aabbcc".
Proof. reflexivity. Qed.

Example fill_six : extractFillColor (lit "fillColor=dae8fc;strokeColor=#6c8ebf") = lit "#dae8fc".
Proof. reflexivity. Qed.

Example html_decoded : decodeHtml (lit "&lt;a b=&quot;1&quot;&gt;&amp;lt;") = lit "<a b=" ++ dquote ++ lit "1" ++ dquote ++ lit ">&lt;".
Proof. reflexivity. Qed.

(** ** Strings *)

Lemma trim_nil : trim [] = [].
Proof. reflexivity. Qed.

Lemma startsWith_nil_l (p : jsstring) : startsWith [] p = true -> p = [].
Proof. destruct p; [reflexivity | discriminate]. Qed.

Lemma trimmed_lt_nonEmpty (s : jsstring) :
  startsWith (trim s) (lit "<") = true -> nonEmpty s = true.
Proof.
  destruct s as [| c s]; [| reflexivity].
  rewrite trim_nil. intros H. apply startsWith_nil_l in H. discriminate.
Qed.

Lemma nonEmpty_true (s : jsstring) : nonEmpty s = true <-> s <> [].
Proof. destruct s; simpl; split; congruence. Qed.

Lemma nonEmpty_false (s : jsstring) : nonEmpty s = false <-> s = [].
Proof. destruct s; simpl; split; congruence. Qed.

Lemma startsWith_cons (s p : jsstring) (c d : N) :
  startsWith (d :: s) (c :: p) = (N.eqb c d && startsWith s p).
Proof. reflexivity. Qed.

Lemma startsWith_app (p x : jsstring) : startsWith (p ++ x) p = true.
Proof.
  induction p as [| c p IH]; [reflexivity |].
  rewrite <- app_comm_cons, startsWith_cons, N.eqb_refl. exact IH.
Qed.

Lemma startsWith_app_short (s y p : jsstring) :
  length p <= length s -> startsWith (s ++ y) p = startsWith s p.
Proof.
  revert s. induction p as [| c p IH]; intros s Hlen; [reflexivity |].
  destruct s as [| d s]; simpl in Hlen; [lia |].
  rewrite <- app_comm_cons, !startsWith_cons, IH by lia. reflexivity.
Qed.

Lemma startsWith_prefix (s p : jsstring) :
  startsWith s p = true <-> exists x, s = p ++ x.
Proof.
  split.
  - revert s. induction p as [| c p IH]; intros s H; [exists s; reflexivity |].
    destruct s as [| d s]; [discriminate |]. rewrite startsWith_cons in H.
    apply andb_true_iff in H as [Hc Hp]. apply N.eqb_eq in Hc as <-.
    destruct (IH s Hp) as [x ->]. exists x. reflexivity.
  - intros [x ->]. apply startsWith_app.
Qed.

Lemma endsWith_app (x s : jsstring) : endsWith (x ++ s) s = true.
Proof. unfold endsWith. rewrite rev_app_distr. apply startsWith_app. Qed.

Lemma endsWith_app_r (x s p : jsstring) : endsWith s p = true -> endsWith (x ++ s) p = true.
Proof.
  unfold endsWith. rewrite !startsWith_prefix. intros [y Hy].
  exists (y ++ rev x). rewrite rev_app_distr, Hy, app_assoc. reflexivity.
Qed.

Lemma uintDigits_digits (u : Decimal.uint) :
  Forall (fun c => isDigit c = true) (uintDigits u).
Proof. induction u; simpl; constructor; solve [reflexivity | assumption]. Qed.



Lemma numberToString_digits (n : nat) :
  Forall (fun c => isDigit c = true) (numberToString n).
Proof. apply uintDigits_digits. Qed.

Lemma numberToString_nonempty (n : nat) : numberToString n <> [].
Proof.
  unfold numberToString. rewrite <- (Unsigned.of_to n) at 1. rewrite Unsigned.to_of.
  unfold Decimal.unorm. destruct (Decimal.nzhead (Nat.to_uint n)); simpl; discriminate.
Qed.

(** The decimal notation ends in a digit. *)
Lemma numberToString_last (n : nat) :
  exists ds d, numberToString n = ds ++ [d] /\ isDigit d = true
               /\ Forall (fun c => isDigit c = true) ds.
Proof.
  pose proof (numberToString_digits n) as Hd.
  destruct (exists_last (numberToString_nonempty n)) as (ds & d & E).
  rewrite E in Hd. apply Forall_app in Hd as [Hs Hc].
  inversion Hc; subst. exists ds, d. auto.
Qed.

(** ** The decoder *)

Section DecoderFacts.

Variable inflateRaw : list N -> Exc jsstring.

Lemma tryCatch_default {A : Type} (body : Exc (option A)) :
  exists r, tryCatch body (Ok None) = Ok r /\ (r = None \/ body = Ok r).
Proof.
  destruct body as [r | e]; simpl.
  - exists r. split; [reflexivity | right; reflexivity].
  - exists None. split; [reflexivity | left; reflexivity].
Qed.

Lemma inflatePath_Some (b64 xml : jsstring) :
  inflatePath inflateRaw b64 = Ok (Some xml) ->
  startsWith (trim xml) (lit "<") = true.
Proof.
  unfold inflatePath.
  destruct (b64ToUint8 b64) as [bytes |]; simpl; [| discriminate].
  destruct (inflateRaw bytes) as [inflated |]; simpl; [| discriminate].
  destruct (decodeURIComponent inflated) as [x |]; simpl; [| discriminate].
  destruct (startsWith (trim x) (lit "<")) eqn:E; intros H; inversion H; subst.
  exact E.
Qed.

Lemma decode_cases (data : jsstring) :
  exists r, decodeDiagramContent inflateRaw data = Ok r
            /\ (r = [] \/ startsWith (trim r) (lit "<") = true).
Proof.
  unfold decodeDiagramContent.
  destruct (nonEmpty data); simpl; [| eauto].
  destruct (startsWith (trim data) (lit "<")) eqn:E0; [eauto |].
  destruct (tryCatch_default (inflatePath inflateRaw data)) as (r1 & -> & H1). simpl.
  destruct r1 as [xml |].
  { destruct H1 as [H1 | H1]; [discriminate |].
    exists xml. split; [reflexivity | right; eauto using inflatePath_Some]. }
  set (second := bindExc (decodeURIComponent data) _).
  destruct (tryCatch_default second) as (r2 & -> & H2). simpl.
  destruct r2 as [xml |].
  { destruct H2 as [H2 | H2]; [discriminate |].
    exists xml. split; [reflexivity | right].
    subst second. destruct (decodeURIComponent data) as [u |]; simpl in H2; [| discriminate].
    eauto using inflatePath_Some. }
  destruct (startsWith (trim (decodeHtml data)) (lit "<")) eqn:E3; eauto.
Qed.

End DecoderFacts.

(** C1. For every input string whose trimmed form starts with '<',
    decodeDiagramContent returns the input unchanged: decode(s) = s. No
    decoding strategy is tried, whatever the inflater does. *)
Theorem decode_passthrough (inflateRaw : list N -> Exc jsstring) (data : jsstring) :
  startsWith (trim data) (lit "<") = true ->
  decodeDiagramContent inflateRaw data = Ok data.
Proof.
  intros H. unfold decodeDiagramContent.
  rewrite (trimmed_lt_nonEmpty data H). simpl. rewrite H. reflexivity.
Qed.

(** An XML text with leading blanks passes through. *)
Lemma decode_passthrough_witness :
  startsWith (trim (lit "  <mxGraphModel/>")) (lit "<") = true
  /\ forall inflateRaw,
       decodeDiagramContent inflateRaw (lit "  <mxGraphModel/>") = Ok (lit "  <mxGraphModel/>").
Proof.
  split; [reflexivity |].
  intros inflateRaw. apply (decode_passthrough inflateRaw (lit "  <mxGraphModel/>")). reflexivity.
Defined.

(** C9. For every input string, decodeDiagramContent never throws, and its
    result is either the empty string or a string whose trimmed form starts
    with '<': it never returns non-empty text that does not begin, after
    trimming, with '<'. Exceptions of atob, inflateRaw and decodeURIComponent
    are caught by the two try blocks. *)
Theorem decode_result_shape (inflateRaw : list N -> Exc jsstring) (data : jsstring) :
  (forall e, decodeDiagramContent inflateRaw data <> Err e)
  /\ exists r, decodeDiagramContent inflateRaw data = Ok r
               /\ (r = [] \/ (r <> [] /\ startsWith (trim r) (lit "<") = true)).
Proof.
  destruct (decode_cases inflateRaw data) as (r & Hr & Hshape).
  split.
  - intros e He. rewrite Hr in He. discriminate.
  - exists r. split; [exact Hr |].
    destruct Hshape as [-> | Hlt]; [left; reflexivity | right].
    split; [| exact Hlt].
    intros ->. rewrite trim_nil in Hlt. apply startsWith_nil_l in Hlt. discriminate.
Qed.

(** ** The classifier *)

Lemma strEq_true (a b : jsstring) : strEq a b = true <-> a = b.
Proof. unfold strEq. apply bool_decide_eq_true. Qed.

Lemma strEq_false (a b : jsstring) : strEq a b = false <-> a <> b.
Proof. unfold strEq. apply bool_decide_eq_false. Qed.

Lemma strEq_refl (a : jsstring) : strEq a a = true.
Proof. apply strEq_true. reflexivity. Qed.

Section ClassifierFacts.

Variable toLowerCase : jsstring -> jsstring.

(** C5. For every node whose style maps to the oval shape bucket, the final
    type is 'start' when it has no incoming edge and has an outgoing edge;
    'end' when it has an incoming edge and no outgoing edge; otherwise the
    content-derived type when that type is 'start' or 'end'; otherwise 'end'
    if it has any incoming edge and 'start' if it has none. *)
Theorem oval_resolution (style value : jsstring) (hasIncoming hasOutgoing : bool) :
  detectShapeType toLowerCase style = lit "oval" ->
  let contentType := analyzeNodeContent toLowerCase value in
  let final := classify toLowerCase style value hasIncoming hasOutgoing in
  (hasIncoming = false -> hasOutgoing = true -> final = lit "start")
  /\ (hasIncoming = true -> hasOutgoing = false -> final = lit "end")
  /\ (hasIncoming = hasOutgoing ->
      contentType = lit "start" \/ contentType = lit "end" -> final = contentType)
  /\ (hasIncoming = hasOutgoing ->
      contentType <> lit "start" -> contentType <> lit "end" ->
      final = if hasIncoming then lit "end" else lit "start").
Proof.
  intros Hoval contentType final. subst final. unfold classify.
  rewrite Hoval. fold contentType. unfold determineNodeType.
  rewrite strEq_refl.
  repeat split.
  - intros -> ->. reflexivity.
  - intros -> ->. reflexivity.
  - intros -> Hc.
    assert (strEq contentType (lit "start") || strEq contentType (lit "end") = true) as ->.
    { apply orb_true_iff. rewrite !strEq_true. exact Hc. }
    destruct hasOutgoing; reflexivity.
  - intros -> Hs He.
    apply strEq_false in Hs, He. rewrite Hs, He.
    destruct hasOutgoing; reflexivity.
Qed.

End ClassifierFacts.

(** An ellipse labelled Begin with an outgoing edge only, and one labelled
    Done between two edges. *)
Lemma oval_resolution_witness :
  detectShapeType asciiLower (lit "ELLIPSE;whiteSpace=wrap;html=1;") = lit "oval"
  /\ classify asciiLower (lit "ELLIPSE;whiteSpace=wrap;html=1;") (lit "Begin") false true
     = lit "start"
  /\ classify asciiLower (lit "ELLIPSE;whiteSpace=wrap;html=1;") (lit "Done") true true
     = lit "end".
Proof.
  assert (detectShapeType asciiLower (lit "ELLIPSE;whiteSpace=wrap;html=1;") = lit "oval")
    as Hoval by reflexivity.
  split; [exact Hoval |].
  split.
  - apply (proj1 (oval_resolution asciiLower _ (lit "Begin") false true Hoval)); reflexivity.
  - apply (proj1 (proj2 (proj2 (oval_resolution asciiLower _ (lit "Done") true true Hoval)))).
    + reflexivity.
    + right. reflexivity.
Defined.

(** ** Cycle detection

    The search colours a node grey while its call is running (it is in
    [recursionStack]) and black once the call has returned false. The black
    nodes are closed under the successor relation and lie on no cycle; the
    grey nodes all lead to the node being visited, so a grey successor
    closes a cycle. *)

Section DfsFacts.

Variable graph : gmap jsstring (list jsstring).

Lemma unvisited_mono (V V' : gset jsstring) :
  V ⊆ V' -> size (dom graph ∖ V') <= size (dom graph ∖ V).
Proof. intros H. apply subseteq_size. set_solver. Qed.

Lemma unvisited_shrinks (V : gset jsstring) (u : jsstring) :
  u ∈ dom graph -> u ∉ V ->
  size (dom graph ∖ (V ∪ {[u]})) < size (dom graph ∖ V).
Proof. intros Hd Hv. apply subset_size. set_solver. Qed.

Lemma searchNeighbors_spec (fuel : nat) :
  (forall u st, size (dom graph ∖ visited st) < fuel ->
                exists r, search fuel graph u st = Some r /\ dfsPost graph st u r) ->
  forall ns st, size (dom graph ∖ visited st) < fuel ->
                exists r, searchNeighbors (search fuel graph) ns st = Some r /\ loopPost graph st ns r.
Proof.
  intros IH ns. induction ns as [| v ns IHns]; intros st Hfuel; simpl.
  - exists (false, st). split; [reflexivity |].
    split; [done |]. split; [| discriminate].
    intros _. split; [done |]. split; [| done].
    intros v Hv. set_solver.
  - destruct (IH v st Hfuel) as ([b st1] & -> & Hsub1 & Hfalse1 & Htrue1). simpl in *.
    destruct b.
    + exists (true, st1). split; [reflexivity |].
      split; [done |]. split; [discriminate |].
      intros _ Hreach. apply Htrue1; [reflexivity |].
      intros s Hs. apply Hreach; [exact Hs | set_solver].
    + destruct (Hfalse1 eq_refl) as (Hstack1 & Hv1 & Hset1).
      destruct (IHns st1) as ([b' st2] & Heq & Hsub2 & Hfalse2 & Htrue2).
      { pose proof (unvisited_mono _ _ Hsub1). lia. }
      simpl in *. exists (b', st2). split; [exact Heq |].
      unfold loopPost. simpl.
      split; [set_solver |]. split.
      * intros ->. destruct (Hfalse2 eq_refl) as (Hstack2 & Hns2 & Hset2).
        split; [congruence |]. split; [| tauto].
        intros w Hw. apply elem_of_cons in Hw as [-> | Hw]; [| auto].
        unfold black in *. rewrite Hstack2. set_solver.
      * intros -> Hreach. apply Htrue2; [reflexivity |].
        intros s w Hs Hw. apply Hreach; [congruence | set_solver].
Qed.

Lemma tc_first_step (u w : jsstring) :
  tc (arc graph) u w -> exists v, (arc graph) u v /\ rtc (arc graph) v w.
Proof.
  intros H. destruct H as [x y H | x y z H1 H2].
  - exists y. split; [exact H | apply rtc_refl].
  - exists y. split; [exact H1 | apply tc_rtc; exact H2].
Qed.

Lemma settled_closed (B : gset jsstring) (u w : jsstring) :
  settled graph B -> u ∈ B -> rtc (arc graph) u w -> w ∈ B.
Proof.
  intros [Hc _] Hu Hr. induction Hr as [| x y z Hxy _ IH]; [exact Hu |].
  apply IH. eapply Hc; eauto.
Qed.

Lemma search_spec (fuel : nat) :
  forall u st, size (dom graph ∖ visited st) < fuel ->
               exists r, search fuel graph u st = Some r /\ dfsPost graph st u r.
Proof.
  induction fuel as [| fuel IH]; intros u st Hfuel; [lia |].
  simpl.
  destruct (decide (u ∈ recursionStack st)) as [Hstack | Hstack].
  { exists (true, st). split; [reflexivity |].
    split; [done |]. split; [discriminate |].
    intros _ Hreach. exists u. apply Hreach. exact Hstack. }
  destruct (decide (u ∈ visited st)) as [Hvis | Hvis].
  { exists (false, st). split; [reflexivity |].
    split; [done |]. split; [| discriminate].
    intros _. split; [done |]. split; [| done].
    unfold black. set_solver. }
  set (st1 := mkDfs (visited st ∪ {[u]}) (recursionStack st ∪ {[u]})).
  assert (black st1 = black st) as Hblack1.
  { unfold black, st1. simpl. apply set_eq. set_solver. }
  destruct (graph !! u) as [succs |] eqn:Hsuccs; simpl.
  2:{ exists (false, mkDfs (visited st1) (recursionStack st1 ∖ {[u]})).
      split; [reflexivity |]. split; [simpl; set_solver |]. split; [| done].
      intros _. simpl. split; [apply set_eq; set_solver |].
      split; [unfold black; simpl; set_solver |].
      intros [Hc Ha].
      assert (forall v, ~ (arc graph) u v) as Hnone.
      { intros v. unfold arc. rewrite Hsuccs. simpl. set_solver. }
      split.
      - intros x y Hx Hxy. unfold black in *. simpl in *.
        destruct (decide (x = u)) as [-> | Hne]; [exfalso; eapply Hnone; eauto |].
        assert (y ∈ visited st ∖ recursionStack st) by (apply (Hc x y); [set_solver | done]).
        set_solver.
      - intros x Hx Hcyc. unfold black in *. simpl in *.
        destruct (decide (x = u)) as [-> | Hne].
        + apply tc_first_step in Hcyc as (v & Hv & _). eapply Hnone; eauto.
        + apply (Ha x); [set_solver | done]. }
  destruct (searchNeighbors_spec fuel IH succs st1) as ([b st2] & -> & Hsub & Hfalse & Htrue).
  { assert (u ∈ dom graph) by (apply elem_of_dom; eauto).
    pose proof (unvisited_shrinks (visited st) u H Hvis). simpl. lia. }
  simpl in *. destruct b.
  - exists (true, st2). split; [reflexivity |].
    split; [simpl; set_solver |]. split; [done |].
    intros _ Hreach. apply Htrue; [reflexivity |].
    intros s v Hs Hv.
    assert ((arc graph) u v) as Huv by (unfold arc; rewrite Hsuccs; exact Hv).
    apply elem_of_union in Hs as [Hs | Hs].
    + eapply tc_r; [apply Hreach; exact Hs | exact Huv].
    + apply elem_of_singleton in Hs as ->. apply tc_once. exact Huv.
  - destruct (Hfalse eq_refl) as (Hstack2 & Hns & Hset).
    exists (false, mkDfs (visited st2) (recursionStack st2 ∖ {[u]})).
    split; [reflexivity |]. split; [simpl; set_solver |]. split; [| done].
    intros _. simpl.
    assert (recursionStack st2 ∖ {[u]} = recursionStack st) as Hrestore.
    { rewrite Hstack2. apply set_eq. set_solver. }
    split; [exact Hrestore |].
    split; [unfold black; simpl; rewrite Hrestore; set_solver |].
    intros Hst. rewrite Hblack1 in Hset. destruct (Hset Hst) as [Hc Ha].
    assert (u ∉ black st2) as Hu2 by (unfold black; rewrite Hstack2; set_solver).
    assert (forall x, x ∈ black (mkDfs (visited st2) (recursionStack st2 ∖ {[u]}))
                      <-> x = u \/ x ∈ black st2) as Hfinal.
    { intros x. unfold black. simpl. rewrite Hrestore, Hstack2.
      destruct (decide (x = u)) as [-> | Hne]; set_solver. }
    assert (forall v, (arc graph) u v -> v ∈ black st2) as Hsucc.
    { intros v Hv. apply Hns. unfold arc in Hv. rewrite Hsuccs in Hv. exact Hv. }
    split.
    + intros x y Hx Hxy. apply Hfinal. apply Hfinal in Hx as [-> | Hx].
      * right. auto.
      * right. eapply Hc; eauto.
    + intros x Hx Hcyc. apply Hfinal in Hx as [-> | Hx].
      * apply tc_first_step in Hcyc as (v & Hv & Hback).
        apply Hu2. eapply settled_closed; [split; eassumption | apply Hsucc; exact Hv | exact Hback].
      * eapply Ha; eauto.
Qed.

End DfsFacts.

Lemma tc_mono {A : Type} (R R' : relation A) (x y : A) :
  (forall a b, R a b -> R' a b) -> tc R x y -> tc R' x y.
Proof.
  intros Hsub H. induction H as [a b H | a b c H _ IH].
  - apply tc_once. auto.
  - eapply tc_l; eauto.
Qed.

Lemma rtc_mono {A : Type} (R R' : relation A) (x y : A) :
  (forall a b, R a b -> R' a b) -> rtc R x y -> rtc R' x y.
Proof.
  intros Hsub H. induction H as [| a b c H _ IH]; [apply rtc_refl |].
  eapply rtc_l; eauto.
Qed.

Lemma arc_addArc (g : gmap jsstring (list jsstring)) (e : FlowchartEdge) (u v : jsstring) :
  arc (addArc g e) u v <->
  arc g u v \/ (sourceId e = Some u /\ targetId e = Some v /\ u <> [] /\ v <> []).
Proof.
  unfold addArc, arc.
  destruct (sourceId e) as [s |]; simpl; [| naive_solver].
  destruct (nonEmpty s) eqn:Hs; simpl.
  2:{ apply not_true_iff_false in Hs. rewrite nonEmpty_true in Hs. naive_solver. }
  destruct (targetId e) as [t |]; simpl; [| naive_solver].
  destruct (nonEmpty t) eqn:Ht; simpl.
  2:{ apply not_true_iff_false in Ht. rewrite nonEmpty_true in Ht. naive_solver. }
  apply nonEmpty_true in Hs, Ht.
  destruct (decide (s = u)) as [-> | Hne].
  - rewrite lookup_insert_eq. simpl. rewrite elem_of_app, list_elem_of_singleton. naive_solver.
  - rewrite lookup_insert_ne by done. naive_solver.
Qed.

Lemma arc_fold (edges : list FlowchartEdge) (g : gmap jsstring (list jsstring)) (u v : jsstring) :
  arc (fold_left addArc edges g) u v <-> arc g u v \/ linked edges u v.
Proof.
  revert g. induction edges as [| e edges IH]; intros g; simpl.
  - unfold linked. split; [auto |]. intros [H | (e & He & _)]; [exact H | set_solver].
  - rewrite IH, arc_addArc. unfold linked. split.
    + intros [[H | H] | (e' & He' & H)].
      * left. exact H.
      * right. exists e. split; [set_solver | exact H].
      * right. exists e'. split; [set_solver | exact H].
    + intros [H | (e' & He' & H)]; [auto |].
      apply elem_of_cons in He' as [-> | He']; [auto |].
      right. exists e'. auto.
Qed.

Lemma arc_adjacency (edges : list FlowchartEdge) (u v : jsstring) :
  arc (adjacency edges) u v <-> linked edges u v.
Proof.
  unfold adjacency. rewrite arc_fold. unfold arc at 1. rewrite lookup_empty. simpl.
  set_solver.
Qed.

Section DetectFacts.

Variable number : Type.
Variable graph : gmap jsstring (list jsstring).

Lemma black_no_stack (st : DfsState) : recursionStack st = ∅ -> black st = visited st.
Proof. intros H. unfold black. rewrite H. apply set_eq. set_solver. Qed.

Lemma searchFrom_spec (fuel : nat) (nodes : list (FlowchartNode number)) :
  size (dom graph) < fuel ->
  forall st, recursionStack st = ∅ -> settled graph (visited st) ->
  (searchFrom fuel graph nodes st = Some [loopIssue] /\ exists c, tc (arc graph) c c)
  \/ (searchFrom fuel graph nodes st = Some []
      /\ exists V, settled graph V /\ visited st ⊆ V
                   /\ forall n, n ∈ nodes -> node_id n ∈ V).
Proof.
  intros Hfuel. induction nodes as [| n nodes IH]; intros st Hstack Hset; simpl.
  - right. split; [reflexivity |]. exists (visited st). split; [exact Hset | set_solver].
  - destruct (decide (node_id n ∈ visited st)) as [Hvis | Hvis].
    { destruct (IH st Hstack Hset) as [H | (Heq & V & HV & Hsub & Hall)]; [left; exact H |].
      right. split; [exact Heq |]. exists V. split; [exact HV |]. split; [exact Hsub |].
      intros m Hm. apply elem_of_cons in Hm as [-> | Hm]; [set_solver | auto]. }
    destruct (search_spec graph fuel (node_id n) st) as ([b st'] & -> & Hsub & Hfalse & Htrue).
    { pose proof (subseteq_size (dom graph ∖ visited st) (dom graph)) as Hle.
      assert (dom graph ∖ visited st ⊆ dom graph) as Hd by set_solver.
      specialize (Hle Hd). lia. }
    simpl in *. destruct b.
    + left. split; [reflexivity |]. apply Htrue; [reflexivity |].
      intros s Hs. rewrite Hstack in Hs. set_solver.
    + destruct (Hfalse eq_refl) as (Hstack' & Hn & Hset').
      rewrite Hstack in Hstack'.
      rewrite (black_no_stack st Hstack) in Hset'.
      rewrite (black_no_stack st' Hstack') in Hset', Hn.
      destruct (IH st' Hstack' (Hset' Hset)) as [H | (Heq & V & HV & Hsub' & Hall)];
        [left; exact H |].
      right. split; [exact Heq |]. exists V. split; [exact HV |]. split; [set_solver |].
      intros m Hm. apply elem_of_cons in Hm as [-> | Hm]; [set_solver | auto].
Qed.

End DetectFacts.

Lemma settled_empty (graph : gmap jsstring (list jsstring)) : settled graph ∅.
Proof. split; intros; set_solver. Qed.

(** searchCycles reports a loop exactly when a cycle of the graph of complete
    edges can be reached from one of the nodes. *)
Lemma searchCycles_spec (number : Type) (nodes : list (FlowchartNode number))
    (edges : list FlowchartEdge) :
  (searchCycles nodes edges = Some [loopIssue]
   /\ exists c, tc (linked edges) c c)
  \/ (searchCycles nodes edges = Some []
      /\ forall n c, n ∈ nodes -> rtc (linked edges) (node_id n) c -> ~ tc (linked edges) c c).
Proof.
  unfold searchCycles.
  destruct (searchFrom_spec number (adjacency edges) (S (size (dom (adjacency edges)))) nodes
              ltac:(lia) (mkDfs ∅ ∅) eq_refl (settled_empty _))
    as [(Heq & c & Hc) | (Heq & V & HV & _ & Hall)].
  - left. split; [exact Heq |]. exists c.
    eapply tc_mono; [| exact Hc]. intros a b. apply arc_adjacency.
  - right. split; [exact Heq |]. intros n c Hn Hreach Hcyc.
    assert (c ∈ V) as HcV.
    { eapply settled_closed; [exact HV | apply Hall; exact Hn |].
      eapply rtc_mono; [| exact Hreach]. intros a b. apply arc_adjacency. }
    destruct HV as [_ Hacyc]. apply (Hacyc c HcV).
    eapply tc_mono; [| exact Hcyc]. intros a b. apply arc_adjacency.
Qed.

(** ** The program against the search on own keys

    buildGraph and hasCycle differ from the search on own keys only where a
    key is found in Object.prototype, and there they throw a TypeError. *)

Lemma readSlot_plain {A : Type} (obj : gmap jsstring A) (key : jsstring) :
  isObjectPrototypeName key = false -> readSlot obj key <> Inherited.
Proof.
  intros H. unfold readSlot. destruct (obj !! key); [discriminate |].
  rewrite H. discriminate.
Qed.

Lemma readSlot_own_keys {A : Type} (obj : gmap jsstring A) (key : jsstring) :
  (forall k, is_Some (obj !! k) -> isObjectPrototypeName k = false) ->
  readSlot obj key <> Inherited -> isObjectPrototypeName key = false.
Proof.
  intros Hkeys. unfold readSlot. destruct (obj !! key) as [v |] eqn:E.
  - intros _. apply Hkeys. rewrite E. eauto.
  - destruct (isObjectPrototypeName key); [intros H; exfalso; apply H |]; reflexivity.
Qed.

Lemma addEdge_cases (g : gmap jsstring (list jsstring)) (e : FlowchartEdge) :
  match addEdge g e with
  | Ok g' =>
      g' = addArc g e
      /\ ((forall k, is_Some (g !! k) -> isObjectPrototypeName k = false) ->
          forall k, is_Some (g' !! k) -> isObjectPrototypeName k = false)
  | Err err => err = TypeError
  end.
Proof.
  unfold addEdge, addArc.
  destruct (truthy (sourceId e) && truthy (targetId e)); [| auto].
  destruct (sourceId e) as [s |]; [| auto].
  destruct (targetId e) as [t |]; [| auto].
  unfold readSlot. destruct (g !! s) as [targets |] eqn:Hs; simpl.
  - split; [reflexivity |]. intros Hkeys k Hk.
    destruct (decide (s = k)) as [<- | Hne]; [apply Hkeys; rewrite Hs; eauto |].
    rewrite lookup_insert_ne in Hk by exact Hne. auto.
  - destruct (isObjectPrototypeName s) eqn:Hproto; [reflexivity |].
    split; [reflexivity |]. intros Hkeys k Hk.
    destruct (decide (s = k)) as [<- | Hne]; [exact Hproto |].
    rewrite lookup_insert_ne in Hk by exact Hne. auto.
Qed.

Lemma addEdge_plain (g : gmap jsstring (list jsstring)) (e : FlowchartEdge) :
  plainEdge e = true -> addEdge g e = Ok (addArc g e).
Proof.
  unfold plainEdge, addEdge, addArc.
  destruct (truthy (sourceId e) && truthy (targetId e)) eqn:Hc; [| reflexivity].
  destruct (sourceId e) as [s |]; [| reflexivity].
  destruct (targetId e) as [t |]; [| reflexivity].
  simpl. apply andb_true_iff in Hc as [Hs _]. simpl in Hs. unfold orElse. rewrite Hs.
  intros H. apply andb_true_iff in H as [H _]. apply negb_true_iff in H.
  unfold readSlot. destruct (g !! s); [reflexivity |]. rewrite H. reflexivity.
Qed.

Lemma addEdges_cases (edges : list FlowchartEdge) (g : gmap jsstring (list jsstring)) :
  match forEachExc addEdge edges g with
  | Ok g' =>
      g' = fold_left addArc edges g
      /\ ((forall k, is_Some (g !! k) -> isObjectPrototypeName k = false) ->
          forall k, is_Some (g' !! k) -> isObjectPrototypeName k = false)
  | Err err => err = TypeError
  end.
Proof.
  revert g. induction edges as [| e edges IH]; intros g; simpl; [auto |].
  pose proof (addEdge_cases g e) as He.
  destruct (addEdge g e) as [g1 | err]; simpl; [| exact He].
  destruct He as [-> Hkeys1]. specialize (IH (addArc g e)).
  destruct (forEachExc addEdge edges (addArc g e)) as [g2 | err]; [| exact IH].
  destruct IH as [-> Hkeys2]. split; [reflexivity | auto].
Qed.

Lemma addEdges_plain (edges : list FlowchartEdge) (g : gmap jsstring (list jsstring)) :
  forallb plainEdge edges = true -> forEachExc addEdge edges g = Ok (fold_left addArc edges g).
Proof.
  revert g. induction edges as [| e edges IH]; intros g; simpl; [reflexivity |].
  intros H. apply andb_true_iff in H as [He Hrest].
  rewrite (addEdge_plain g e He). simpl. apply IH, Hrest.
Qed.

(** buildGraph returns the adjacency of the complete edges, none of whose
    keys is a name of Object.prototype, or throws a TypeError. *)
Lemma buildGraph_cases (edges : list FlowchartEdge) :
  (buildGraph edges = Ok (adjacency edges)
   /\ forall k, is_Some (adjacency edges !! k) -> isObjectPrototypeName k = false)
  \/ buildGraph edges = Err TypeError.
Proof.
  unfold buildGraph, adjacency. pose proof (addEdges_cases edges ∅) as H.
  destruct (forEachExc addEdge edges ∅) as [g | err]; [| right; rewrite H; reflexivity].
  destruct H as [-> Hkeys]. left. split; [reflexivity |]. apply Hkeys.
  intros k Hk. rewrite lookup_empty in Hk. destruct Hk as [v Hv]. discriminate.
Qed.

Lemma buildGraph_plain (edges : list FlowchartEdge) :
  forallb plainEdge edges = true -> buildGraph edges = Ok (adjacency edges).
Proof. apply addEdges_plain. Qed.

Lemma agrees_Ok {A : Type} (result : Exc A) (reference : option A) (r : A) :
  agrees result reference -> result = Ok r -> reference = Some r.
Proof. intros H ->. exact H. Qed.

Section SearchAgreement.

Variable graph : gmap jsstring (list jsstring).

Lemma anyNeighbor_agrees (visit : jsstring -> DfsState -> Exc (bool * DfsState))
    (reference : jsstring -> DfsState -> option (bool * DfsState)) :
  (forall v st, agrees (visit v st) (reference v st)) ->
  forall ns st, agrees (anyNeighbor visit ns st) (searchNeighbors reference ns st).
Proof.
  intros Hvisit ns. induction ns as [| v ns IH]; intros st; simpl; [reflexivity |].
  specialize (Hvisit v st). unfold agrees in Hvisit.
  destruct (visit v st) as [[[] st1] | err].
  - rewrite Hvisit. reflexivity.
  - rewrite Hvisit. apply IH.
  - destruct Hvisit as [-> | [-> ->]]; [left; reflexivity | right; auto].
Qed.

Lemma hasCycle_agrees (fuel : nat) :
  forall u st, agrees (hasCycle fuel graph u st) (search fuel graph u st).
Proof.
  induction fuel as [| fuel IH]; intros u st; simpl; [right; auto |].
  destruct (decide (u ∈ recursionStack st)); [reflexivity |].
  destruct (decide (u ∈ visited st)); [reflexivity |].
  set (st1 := mkDfs (visited st ∪ {[u]}) (recursionStack st ∪ {[u]})).
  assert (forall ns,
            agrees
              match anyNeighbor (hasCycle fuel graph) ns st1 with
              | Err e => Err e
              | Ok (true, st2) => Ok (true, st2)
              | Ok (false, st2) =>
                  Ok (false, mkDfs (visited st2) (recursionStack st2 ∖ {[u]}))
              end
              match searchNeighbors (search fuel graph) ns st1 with
              | None => None
              | Some (true, st2) => Some (true, st2)
              | Some (false, st2) =>
                  Some (false, mkDfs (visited st2) (recursionStack st2 ∖ {[u]}))
              end) as Hloop.
  { intros ns. pose proof (anyNeighbor_agrees _ _ IH ns st1) as H. unfold agrees in H.
    destruct (anyNeighbor (hasCycle fuel graph) ns st1) as [[[] st2] | err].
    - rewrite H. reflexivity.
    - rewrite H. reflexivity.
    - destruct H as [-> | [-> ->]]; [left; reflexivity | right; auto]. }
  unfold neighborsOf, readSlot. destruct (graph !! u) as [ns |]; simpl; [apply Hloop |].
  destruct (isObjectPrototypeName u); [left; reflexivity | apply (Hloop [])].
Qed.

(** A call that returns has only added ids that are not read from
    Object.prototype to the visited set. *)
Lemma hasCycle_visited (fuel : nat) :
  forall u st b st', hasCycle fuel graph u st = Ok (b, st') ->
    visited st ⊆ visited st'
    /\ (b = false -> u ∈ visited st')
    /\ ((forall x, x ∈ visited st -> readSlot graph x <> Inherited) ->
        forall x, x ∈ visited st' -> readSlot graph x <> Inherited).
Proof.
  induction fuel as [| fuel IH]; intros u st b st'; simpl; [discriminate |].
  destruct (decide (u ∈ recursionStack st)); [intros [= <- <-]; split; [done | split; [discriminate | auto]] |].
  destruct (decide (u ∈ visited st)) as [Hvis | Hvis];
    [intros [= <- <-]; split; [done | split; auto] |].
  set (st1 := mkDfs (visited st ∪ {[u]}) (recursionStack st ∪ {[u]})).
  assert (forall ns s c s', anyNeighbor (hasCycle fuel graph) ns s = Ok (c, s') ->
            visited s ⊆ visited s'
            /\ ((forall x, x ∈ visited s -> readSlot graph x <> Inherited) ->
                forall x, x ∈ visited s' -> readSlot graph x <> Inherited)) as Hloop.
  { intros ns. induction ns as [| v ns IHns]; intros s c s'; simpl.
    - intros [= <- <-]. split; [done | auto].
    - destruct (hasCycle fuel graph v s) as [[[] s1] | err] eqn:E; try discriminate.
      + intros [= <- <-]. destruct (IH _ _ _ _ E) as (H1 & _ & H3). auto.
      + intros H. destruct (IH _ _ _ _ E) as (H1 & _ & H3).
        destruct (IHns _ _ _ H) as (H4 & H5). split; [set_solver | auto]. }
  destruct (neighborsOf graph u) as [ns | err] eqn:Hns; [| discriminate].
  assert (readSlot graph u <> Inherited) as Hu.
  { unfold neighborsOf in Hns. destruct (readSlot graph u); discriminate. }
  destruct (anyNeighbor (hasCycle fuel graph) ns st1) as [[[] st2] | err] eqn:E;
    try discriminate; intros [= <- <-]; destruct (Hloop _ _ _ _ E) as (H1 & H2); simpl.
  - split; [simpl in H1; set_solver |]. split; [discriminate |].
    intros HQ. apply H2. simpl. intros x Hx.
    apply elem_of_union in Hx as [Hx | Hx]; [auto |].
    apply elem_of_singleton in Hx as ->. exact Hu.
  - split; [simpl in H1; set_solver |]. split; [intros _; simpl in H1; set_solver |].
    intros HQ. apply H2. simpl. intros x Hx.
    apply elem_of_union in Hx as [Hx | Hx]; [auto |].
    apply elem_of_singleton in Hx as ->. exact Hu.
Qed.

(** Where no successor is read from Object.prototype, the search throws
    no TypeError. *)
Lemma hasCycle_plain (fuel : nat) :
  (forall s v, arc graph s v -> readSlot graph v <> Inherited) ->
  forall u st, readSlot graph u <> Inherited -> hasCycle fuel graph u st <> Err TypeError.
Proof.
  intros Harcs. induction fuel as [| fuel IH]; intros u st Hu; simpl; [discriminate |].
  destruct (decide (u ∈ recursionStack st)); [discriminate |].
  destruct (decide (u ∈ visited st)); [discriminate |].
  set (st1 := mkDfs (visited st ∪ {[u]}) (recursionStack st ∪ {[u]})).
  assert (forall ns s, (forall v, v ∈ ns -> readSlot graph v <> Inherited) ->
                       anyNeighbor (hasCycle fuel graph) ns s <> Err TypeError) as Hloop.
  { intros ns. induction ns as [| v ns IHns]; intros s Hall; simpl; [discriminate |].
    assert (readSlot graph v <> Inherited) as Hv by (apply Hall; set_solver).
    specialize (IH v s Hv).
    destruct (hasCycle fuel graph v s) as [[[] s1] | err]; [discriminate | | congruence].
    apply IHns. intros w Hw. apply Hall. set_solver. }
  unfold neighborsOf. destruct (readSlot graph u) as [ns | |] eqn:Hslot; [| congruence |].
  - assert (graph !! u = Some ns) as Hlookup.
    { unfold readSlot in Hslot. destruct (graph !! u); [congruence |].
      destruct (isObjectPrototypeName u); discriminate. }
    specialize (Hloop ns st1).
    destruct (anyNeighbor (hasCycle fuel graph) ns st1) as [[[] st2] | err];
      [discriminate | discriminate |].
    intros [= ->]. apply Hloop; [| reflexivity].
    intros v Hv. apply (Harcs u v). unfold arc. rewrite Hlookup. exact Hv.
  - simpl. discriminate.
Qed.

Section DetectAgreement.

Variable number : Type.

Lemma detectFrom_agrees (fuel : nat) (nodes : list (FlowchartNode number)) :
  forall st, agrees (detectFrom number fuel graph nodes st) (searchFrom fuel graph nodes st).
Proof.
  induction nodes as [| n nodes IH]; intros st; simpl; [reflexivity |].
  destruct (decide (node_id n ∈ visited st)); [apply IH |].
  pose proof (hasCycle_agrees fuel (node_id n) st) as H. unfold agrees in H.
  destruct (hasCycle fuel graph (node_id n) st) as [[[] st1] | err].
  - rewrite H. reflexivity.
  - rewrite H. apply IH.
  - destruct H as [-> | [-> ->]]; [left; reflexivity | right; auto].
Qed.

(** A search that ends without a loop has called hasCycle on every node. *)
Lemma detectFrom_clean (fuel : nat) (nodes : list (FlowchartNode number)) :
  forall st, detectFrom number fuel graph nodes st = Ok [] ->
    (forall x, x ∈ visited st -> readSlot graph x <> Inherited) ->
    forall n, In n nodes -> readSlot graph (node_id n) <> Inherited.
Proof.
  induction nodes as [| m nodes IH]; intros st; simpl; [intros _ _ n [] |].
  destruct (decide (node_id m ∈ visited st)) as [Hvis | Hvis].
  { intros H HQ n [<- | Hn]; [apply HQ, Hvis | eapply IH; eauto]. }
  destruct (hasCycle fuel graph (node_id m) st) as [[[] st1] | err] eqn:E; try discriminate.
  destruct (hasCycle_visited _ _ _ _ _ E) as (_ & Hm & HQ1).
  intros H HQ n [<- | Hn]; [apply (HQ1 HQ), Hm; reflexivity |].
  eapply IH; eauto.
Qed.

Lemma detectFrom_plain (fuel : nat) (nodes : list (FlowchartNode number)) :
  (forall s v, arc graph s v -> readSlot graph v <> Inherited) ->
  (forall n, In n nodes -> readSlot graph (node_id n) <> Inherited) ->
  forall st, detectFrom number fuel graph nodes st <> Err TypeError.
Proof.
  intros Harcs. induction nodes as [| m nodes IH]; intros Hall st; simpl; [discriminate |].
  assert (forall n, In n nodes -> readSlot graph (node_id n) <> Inherited) as Hrest
    by (intros n Hn; apply Hall; right; exact Hn).
  destruct (decide (node_id m ∈ visited st)); [apply IH, Hrest |].
  pose proof (hasCycle_plain fuel Harcs (node_id m) st (Hall m (or_introl eq_refl))) as Hm.
  destruct (hasCycle fuel graph (node_id m) st) as [[[] st1] | err];
    [discriminate | apply IH, Hrest | congruence].
Qed.

End DetectAgreement.

End SearchAgreement.

Section DetectCyclesFacts.

Variable number : Type.

Local Abbreviation Node := (FlowchartNode number).

(** detectCycles returns what the search on own keys returns, or throws a
    TypeError: the fuel is enough. *)
Lemma detectCycles_search (nodes : list Node) (edges : list FlowchartEdge) :
  match detectCycles number nodes edges with
  | Ok r => searchCycles nodes edges = Some r
  | Err e => e = TypeError
  end.
Proof.
  unfold detectCycles.
  destruct (buildGraph_cases edges) as [[-> _] | ->]; simpl; [| reflexivity].
  pose proof (detectFrom_agrees (adjacency edges) number
                (S (size (dom (adjacency edges)))) nodes (mkDfs ∅ ∅)) as H.
  unfold agrees in H. fold (searchCycles nodes edges) in H.
  destruct (detectFrom _ _ _ _ _) as [r | e]; [exact H |].
  destruct H as [-> | [_ H]]; [reflexivity |].
  destruct (searchCycles_spec number nodes edges) as [[H' _] | [H' _]]; congruence.
Qed.

(** When detectCycles returns, it reports a loop exactly when a cycle of
    the graph of complete edges can be reached from one of the nodes. *)
Lemma detectCycles_spec (nodes : list Node) (edges : list FlowchartEdge) (r : list jsstring) :
  detectCycles number nodes edges = Ok r ->
  (r = [loopIssue] /\ exists c, tc (linked edges) c c)
  \/ (r = []
      /\ forall n c, n ∈ nodes -> rtc (linked edges) (node_id n) c -> ~ tc (linked edges) c c).
Proof.
  intros H. pose proof (detectCycles_search nodes edges) as Hs. rewrite H in Hs.
  destruct (searchCycles_spec number nodes edges) as [[H' Hc] | [H' Hc]];
    rewrite H' in Hs; injection Hs as <-; [left | right]; auto.
Qed.

Lemma detectCycles_error (nodes : list Node) (edges : list FlowchartEdge) (e : Failure) :
  detectCycles number nodes edges = Err e -> e = TypeError.
Proof.
  intros H. pose proof (detectCycles_search nodes edges) as Hs. rewrite H in Hs. exact Hs.
Qed.

(** A search that ends without a loop has met no id that names a property
    of Object.prototype. *)
Lemma detectCycles_clean (nodes : list Node) (edges : list FlowchartEdge) :
  detectCycles number nodes edges = Ok [] ->
  forall n, In n nodes -> isObjectPrototypeName (node_id n) = false.
Proof.
  unfold detectCycles.
  destruct (buildGraph_cases edges) as [[-> Hkeys] | ->]; simpl; [| discriminate].
  intros H n Hn. apply (readSlot_own_keys (adjacency edges)); [exact Hkeys |].
  eapply detectFrom_clean; [exact H | | exact Hn].
  intros x Hx. simpl in Hx. set_solver.
Qed.

Lemma prototypeFree_nodes (nodes : list Node) (edges : list FlowchartEdge) (n : Node) :
  prototypeFree nodes edges = true -> In n nodes -> isObjectPrototypeName (node_id n) = false.
Proof.
  unfold prototypeFree. intros H Hn. apply andb_true_iff in H as [H _].
  rewrite forallb_forall in H. apply negb_true_iff, H, Hn.
Qed.

(** Without a name of Object.prototype among the node ids and the ends of
    the complete edges, detectCycles returns. *)
Lemma detectCycles_total (nodes : list Node) (edges : list FlowchartEdge) :
  prototypeFree nodes edges = true -> exists r, detectCycles number nodes edges = Ok r.
Proof.
  intros Hfree.
  destruct (detectCycles number nodes edges) as [r | e] eqn:E; [eauto |].
  exfalso. apply detectCycles_error in E as Hte. subst e. revert E.
  unfold detectCycles.
  assert (forallb plainEdge edges = true) as Hedges
    by (unfold prototypeFree in Hfree; apply andb_true_iff in Hfree; tauto).
  rewrite (buildGraph_plain edges Hedges). simpl.
  apply detectFrom_plain.
  - intros s v Hsv. apply readSlot_plain.
    apply arc_adjacency in Hsv as (e & He & Hs & Ht & Hsne & Hvne).
    rewrite forallb_forall in Hedges. apply list_elem_of_In in He.
    specialize (Hedges e He). unfold plainEdge in Hedges. rewrite Hs, Ht in Hedges.
    simpl in Hedges. apply nonEmpty_true in Hsne, Hvne. rewrite Hsne, Hvne in Hedges.
    simpl in Hedges. apply andb_true_iff in Hedges as [_ H]. apply negb_true_iff, H.
  - intros n Hn. apply readSlot_plain. eapply prototypeFree_nodes; eauto.
Qed.

End DetectCyclesFacts.

(** ** The extractor *)

Section ExtractorFacts.

Variable number : Type.
Variable toLowerCase : jsstring -> jsstring.
Variable inflateRaw : list N -> Exc jsstring.
Variable parseFromString : jsstring -> Exc XMLDocument.
Variable parseFloat : jsstring -> number.

Local Abbreviation Node := (FlowchartNode number).
Local Abbreviation Entry := (jsstring * NodeData number)%type.

Lemma secondPassEntry_kept (st : list Node * gmap jsstring nat) (entry : Entry) :
  kept (nd_node number (snd entry)) = true ->
  fst (secondPassEntry number toLowerCase st entry)
  = fst st ++ [withType number (nd_node number (snd entry)) (assignedType number toLowerCase entry)].
Proof.
  unfold kept, secondPassEntry. destruct st as [ns stats].
  intros H. apply andb_true_iff in H as [H H3]. apply andb_true_iff in H as [H1 H2].
  apply negb_true_iff in H1, H2, H3. rewrite H1, H2, H3. reflexivity.
Qed.

Lemma secondPassEntry_skipped (st : list Node * gmap jsstring nat) (entry : Entry) :
  kept (nd_node number (snd entry)) = false ->
  secondPassEntry number toLowerCase st entry = st.
Proof.
  unfold kept, secondPassEntry. destruct st as [ns stats].
  destruct (isContainerCell number _); [reflexivity |].
  destruct (isTextLabel number _); [reflexivity |].
  destruct (hasNoContent number _); [reflexivity | discriminate].
Qed.

(** C8. Classification is a deterministic pure function of (style, value,
    has-incoming, has-outgoing): two classifications with the same four
    arguments return the same type, the composition of shape detection,
    content detection and final type resolution, whatever the state of the
    extraction ([nodes] and [typeStats] accumulated so far) and whatever else
    differs between the two nodes. *)
Theorem classification_pure (st1 st2 : list Node * gmap jsstring nat) (e1 e2 : Entry) :
  let n1 := nd_node number (snd e1) in
  let n2 := nd_node number (snd e2) in
  orElse (node_style n1) [] = orElse (node_style n2) [] ->
  orElse (node_value n1) [] = orElse (node_value n2) [] ->
  (0 <? size (nd_incoming number (snd e1))) = (0 <? size (nd_incoming number (snd e2))) ->
  (0 <? size (nd_outgoing number (snd e1))) = (0 <? size (nd_outgoing number (snd e2))) ->
  kept n1 = true -> kept n2 = true ->
  exists t,
    t = classify toLowerCase (orElse (node_style n1) []) (orElse (node_value n1) [])
          (0 <? size (nd_incoming number (snd e1)))
          (0 <? size (nd_outgoing number (snd e1)))
    /\ fst (secondPassEntry number toLowerCase st1 e1) = fst st1 ++ [withType number n1 t]
    /\ fst (secondPassEntry number toLowerCase st2 e2) = fst st2 ++ [withType number n2 t].
Proof.
  intros n1 n2 Hstyle Hvalue Hin Hout Hk1 Hk2.
  exists (assignedType number toLowerCase e1). split; [reflexivity |].
  split; [apply secondPassEntry_kept; exact Hk1 |].
  rewrite (secondPassEntry_kept st2 e2 Hk2). subst n1 n2.
  unfold assignedType. rewrite Hstyle, Hvalue, Hin, Hout. reflexivity.
Qed.

Lemma secondPass_typed (entries : list Entry) (st : list Node * gmap jsstring nat) :
  Forall (typed number) (fst st) ->
  Forall (typed number) (fst (fold_left (secondPassEntry number toLowerCase) entries st)).
Proof.
  revert st. induction entries as [| e entries IH]; intros st Hst; simpl; [exact Hst |].
  apply IH.
  destruct (kept (nd_node number (snd e))) eqn:Hk.
  - rewrite secondPassEntry_kept by exact Hk.
    apply Forall_app. split; [exact Hst |]. repeat constructor. eexists. reflexivity.
  - rewrite secondPassEntry_skipped by exact Hk. exact Hst.
Qed.

Lemma extractBody_typed (doc : XMLDocument) (root : Element) (r : Elements number) :
  extractBody number toLowerCase inflateRaw parseFromString parseFloat doc root = Ok (Some r) ->
  Forall (typed number) (nodes r).
Proof.
  unfold extractBody.
  destruct (unwrapMxfile _ _ _ _) as [[w0 |] |]; simpl; try discriminate.
  destruct (if _ =? 0 then _ else _) as [w |]; simpl; [| discriminate].
  destruct (forEachExc _ _ ([], [])) as [[nodeMap es] |]; simpl; [| discriminate].
  pose proof (secondPass_typed nodeMap ([], initialTypeStats) (List.Forall_nil _)) as H.
  destruct (fold_left _ nodeMap _) as [ns stats]. simpl in H.
  intros [= <-]. exact H.
Qed.

(** Every node extractFlowchartElements returns carries a type. *)
Lemma extracted_nodes_typed (xmlDoc : option XMLDocument) (r : Elements number) :
  extractFlowchartElements number toLowerCase inflateRaw parseFromString parseFloat xmlDoc
  = Some r ->
  Forall (typed number) (nodes r).
Proof.
  unfold extractFlowchartElements.
  destruct xmlDoc as [doc |]; [| discriminate].
  destruct (documentElement doc) as [root |]; [| discriminate].
  destruct (extractBody _ _ _ _ _ doc root) as [[r' |] |] eqn:E; try discriminate.
  intros [= <-]. eapply extractBody_typed; eauto.
Qed.

End ExtractorFacts.

(** Two ovals labelled Begin, classified first and after another node. *)
Lemma classification_pure_witness :
  kept (nd_node N (snd ovalEntry1)) = true
  /\ kept (nd_node N (snd ovalEntry2)) = true
  /\ forall toLowerCase, exists t,
       fst (secondPassEntry N toLowerCase ([], initialTypeStats) ovalEntry1)
       = [withType N (nd_node N (snd ovalEntry1)) t]
       /\ fst (secondPassEntry N toLowerCase
                 ([otherNode], bump (lit "process") initialTypeStats)
                 ovalEntry2)
          = [otherNode;
             withType N (nd_node N (snd ovalEntry2)) t].
Proof.
  split; [reflexivity |]. split; [reflexivity |].
  intros toLowerCase.
  destruct (classification_pure N toLowerCase
              ([], initialTypeStats)
              ([otherNode], bump (lit "process") initialTypeStats)
              ovalEntry1 ovalEntry2)
    as (t & _ & H1 & H2); try reflexivity.
  exists t. split; [exact H1 | exact H2].
Defined.

Section NullFacts.

Variable number : Type.
Variable toLowerCase : jsstring -> jsstring.
Variable inflateRaw : list N -> Exc jsstring.
Variable parseFromString : jsstring -> Exc XMLDocument.
Variable parseFloat : jsstring -> number.

Lemma unwrapMxfile_spec (doc : XMLDocument) (root : Element) :
  (unwrapMxfile inflateRaw parseFromString doc root = Ok None
   /\ mxfileRejected inflateRaw parseFromString doc root)
  \/ ((exists w, unwrapMxfile inflateRaw parseFromString doc root = Ok (Some w))
      /\ ~ mxfileRejected inflateRaw parseFromString doc root)
  \/ ((exists e text, unwrapMxfile inflateRaw parseFromString doc root = Err e
                      /\ parseFromString text = Err e)
      /\ ~ mxfileRejected inflateRaw parseFromString doc root).
Proof.
  unfold unwrapMxfile, mxfileRejected.
  destruct (strEq (tagName root) (lit "mxfile")) eqn:Htag.
  2:{ apply strEq_false in Htag. right. left. split; [eauto | tauto]. }
  apply strEq_true in Htag.
  destruct (head (docElementsByTagName doc (lit "diagram"))) as [d |] eqn:Hd.
  2:{ right. left. split; [eauto |]. intros (_ & d & ? & H & _). discriminate. }
  destruct (nonEmpty (textContent d)) eqn:Htext.
  2:{ apply nonEmpty_false in Htext. right. left. split; [eauto |].
      intros (_ & d' & ? & H & Hne & _). congruence. }
  apply nonEmpty_true in Htext.
  destruct (decode_cases inflateRaw (textContent d)) as (decoded & Hdec & _).
  rewrite Hdec. simpl.
  destruct (nonEmpty decoded) eqn:Hdecoded.
  2:{ apply nonEmpty_false in Hdecoded.
      left. split; [reflexivity |]. split; [exact Htag |]. exists d, decoded. auto. }
  apply nonEmpty_true in Hdecoded.
  assert ((forall parsed, parseFromString decoded = Ok parsed ->
                          hasParserError parsed = true -> False) ->
          ~ (tagName root = lit "mxfile"
             /\ exists d' decoded',
                  Some d = Some d' /\ textContent d' <> []
                  /\ decodeDiagramContent inflateRaw (textContent d') = Ok decoded'
                  /\ (decoded' = []
                      \/ exists parsed, parseFromString decoded' = Ok parsed
                                        /\ hasParserError parsed = true))) as Hnot.
  { intros Hnone (_ & d' & decoded' & H & _ & Hdec' & Hcase).
    assert (d' = d) as -> by congruence.
    assert (decoded' = decoded) as -> by congruence.
    destruct Hcase as [-> | (parsed & Hp & Herr)]; [congruence | eauto]. }
  destruct (parseFromString decoded) as [parsed | e] eqn:Hparse; simpl.
  - destruct (hasParserError parsed) eqn:Herr.
    + left. split; [reflexivity |]. split; [exact Htag |]. exists d, decoded.
      repeat split; try assumption. right. exists parsed. auto.
    + right. left. split; [eauto |]. apply Hnot.
      intros parsed' [= <-] Herr'. congruence.
  - right. right. split; [exists e, decoded; auto |]. apply Hnot.
    intros parsed' H. discriminate.
Qed.

Lemma fallbackDecode_cases (texts : list jsstring) (w : XMLDocument) :
  (exists w', fallbackDecode inflateRaw parseFromString texts w = Ok w')
  \/ (exists e text, fallbackDecode inflateRaw parseFromString texts w = Err e
                     /\ parseFromString text = Err e).
Proof.
  revert w. induction texts as [| t texts IH]; intros w; simpl; [eauto |].
  destruct (nonEmpty t && (50 <? length (trim t))); [| apply IH].
  destruct (decode_cases inflateRaw (trim t)) as (decoded & -> & _). simpl.
  destruct (nonEmpty decoded); [| apply IH].
  destruct (parseFromString decoded) as [parsed | e] eqn:Hparse; simpl; [| eauto].
  destruct (0 <? length _); [eauto | apply IH].
Qed.

Lemma cellValue_cases (cell : Element) :
  (exists v, cellValue parseFromString cell = Ok v)
  \/ (exists e text, cellValue parseFromString cell = Err e /\ parseFromString text = Err e).
Proof.
  unfold cellValue.
  destruct (orUndefined (getAttribute cell (lit "value"))) as [v |]; [| eauto].
  destruct (nonEmpty v && includes v (lit "<math")); [| eauto].
  destruct (parseFromString v) as [valueDoc | e] eqn:Hparse; simpl; [| eauto].
  destruct (0 <? length _); eauto.
Qed.

Lemma firstPassCell_cases
    (st : list (jsstring * NodeData number) * list FlowchartEdge) (cell : Element) :
  (exists st', firstPassCell number parseFromString parseFloat st cell = Ok st')
  \/ (exists e text, firstPassCell number parseFromString parseFloat st cell = Err e
                     /\ parseFromString text = Err e).
Proof.
  unfold firstPassCell. destruct st as [nodeMap es].
  destruct (getAttribute cell (lit "id")) as [id |]; [| eauto].
  destruct (negb (nonEmpty id)); [eauto |].
  destruct (cellValue_cases cell) as [[v ->] | (e & text & -> & He)]; simpl; [| eauto].
  destruct (bool_decide _); [eauto |].
  destruct (bool_decide _); [| eauto].
  destruct (orUndefined (getAttribute cell (lit "source"))) as [src |]; [| eauto].
  destruct (orUndefined (getAttribute cell (lit "target"))) as [tgt |]; eauto.
Qed.

Lemma firstPass_cases (cells : list Element)
    (st : list (jsstring * NodeData number) * list FlowchartEdge) :
  (exists st', forEachExc (firstPassCell number parseFromString parseFloat) cells st = Ok st')
  \/ (exists e text,
        forEachExc (firstPassCell number parseFromString parseFloat) cells st = Err e
        /\ parseFromString text = Err e).
Proof.
  revert st. induction cells as [| cell cells IH]; intros st; simpl; [eauto |].
  destruct (firstPassCell_cases st cell) as [[st' ->] | (e & text & -> & He)]; simpl;
    [apply IH | eauto].
Qed.

(** The body of the [try] block returns null exactly for a rejected mxfile;
    an exception in it is an exception of the parser. *)
Lemma extractBody_spec (doc : XMLDocument) (root : Element) :
  (extractBody number toLowerCase inflateRaw parseFromString parseFloat doc root = Ok None
   /\ mxfileRejected inflateRaw parseFromString doc root)
  \/ ((exists r, extractBody number toLowerCase inflateRaw parseFromString parseFloat doc root
                 = Ok (Some r))
      /\ ~ mxfileRejected inflateRaw parseFromString doc root)
  \/ ((exists e text,
         extractBody number toLowerCase inflateRaw parseFromString parseFloat doc root = Err e
         /\ parseFromString text = Err e)
      /\ ~ mxfileRejected inflateRaw parseFromString doc root).
Proof.
  unfold extractBody.
  destruct (unwrapMxfile_spec doc root)
    as [[-> Hrej] | [[[w0 ->] Hok] | [(e & text & -> & He) Hok]]]; simpl.
  { left. auto. }
  2:{ right. right. split; [eauto | exact Hok]. }
  right.
  assert ((exists w, (if length (docElementsByTagName w0 (lit "mxCell")) =? 0
                      then fallbackDecode inflateRaw parseFromString (docTextNodes w0) w0
                      else Ok w0) = Ok w)
          \/ (exists e text,
                (if length (docElementsByTagName w0 (lit "mxCell")) =? 0
                 then fallbackDecode inflateRaw parseFromString (docTextNodes w0) w0
                 else Ok w0) = Err e
                /\ parseFromString text = Err e)) as [[w ->] | (e & text & -> & He)].
  { destruct (_ =? 0); [apply fallbackDecode_cases | eauto]. }
  2:{ right. split; [eauto | exact Hok]. }
  simpl.
  destruct (firstPass_cases (docElementsByTagName w (lit "mxCell")) ([], []))
    as [[[nodeMap es] ->] | (e & text & -> & He)]; simpl.
  2:{ right. split; [eauto | exact Hok]. }
  destruct (fold_left _ nodeMap _) as [ns stats].
  left. split; [eauto | exact Hok].
Qed.

(** C6, amended. extractFlowchartElements returns null when the input
    document is null or has no root element, when the root element is an
    mxfile whose first diagram element has a non-empty text that decodes to
    the empty string or to XML the parser rejects, and when an exception is
    raised inside the try block, which only the DOM parser can raise; in
    every other case it returns a non-null result, and an empty but valid
    diagram yields empty node and edge collections. *)
Theorem extraction_null_cases (xmlDoc : option XMLDocument) :
  (extractFlowchartElements number toLowerCase inflateRaw parseFromString parseFloat xmlDoc
   = None
   <-> xmlDoc = None
       \/ exists doc, xmlDoc = Some doc
            /\ (documentElement doc = None
                \/ exists root, documentElement doc = Some root
                     /\ (mxfileRejected inflateRaw parseFromString doc root
                         \/ exists e, extractBody number toLowerCase inflateRaw
                                        parseFromString parseFloat doc root = Err e)))
  /\ (forall doc root e,
        extractBody number toLowerCase inflateRaw parseFromString parseFloat doc root = Err e ->
        ~ parserNeverThrows parseFromString)
  /\ (forall doc root,
        xmlDoc = Some doc -> documentElement doc = Some root ->
        tagName root <> lit "mxfile" ->
        docElementsByTagName doc (lit "mxCell") = [] -> docTextNodes doc = [] ->
        extractFlowchartElements number toLowerCase inflateRaw parseFromString parseFloat xmlDoc
        = Some (mkElements [] [])).
Proof.
  split; [| split].
  - unfold extractFlowchartElements.
    destruct xmlDoc as [doc |]; [| split; auto].
    destruct (documentElement doc) as [root |] eqn:Hroot.
    2:{ split; [| reflexivity]. intros _. right. exists doc. rewrite Hroot. auto. }
    destruct (extractBody_spec doc root)
      as [[Hbody Hrej] | [[[r Hbody] Hok] | [(e & text & Hbody & He) Hok]]]; rewrite Hbody.
    + split; [| reflexivity]. intros _. right. exists doc. split; [reflexivity |].
      right. exists root. auto.
    + split; [discriminate |].
      intros [H | (doc' & [= <-] & [H | (root' & H & Hcase)])]; [discriminate | congruence |].
      assert (root' = root) as -> by congruence.
      destruct Hcase as [Hrej | [e He]]; [contradiction | congruence].
    + split; [| reflexivity]. intros _. right. exists doc. split; [reflexivity |].
      right. exists root. split; [exact Hroot |]. right. exists e. exact Hbody.
  - intros doc root e Hbody Hnever.
    destruct (extractBody_spec doc root)
      as [[H _] | [[[r H] _] | [(e' & text & _ & He) _]]]; try congruence.
    destruct (Hnever text) as [parsed Hparsed]. congruence.
  - intros doc root -> Hroot Htag Hcells Htexts.
    unfold extractFlowchartElements, extractBody, unwrapMxfile.
    rewrite Hroot. apply strEq_false in Htag. rewrite Htag. simpl.
    rewrite Hcells, Htexts. simpl. rewrite Hcells. reflexivity.
Qed.

End NullFacts.

(** C6, as stated, fails: a document with a root element for which
    extractFlowchartElements returns null, for every inflater and parser. *)
Lemma undecodable_mxfile_is_null :
  documentElement undecodableMxfile <> None
  /\ forall (number : Type) toLowerCase inflateRaw parseFromString (parseFloat : jsstring -> number),
       extractFlowchartElements number toLowerCase inflateRaw parseFromString parseFloat
         (Some undecodableMxfile) = None.
Proof.
  split; [discriminate |]. intros. reflexivity.
Qed.

(** The filter for cells without content: a cell whose value is missing,
    empty or blank is skipped when it has a style without the 'group'
    marker. *)
Lemma styled_empty_cell_skipped (number : Type) (toLowerCase : jsstring -> jsstring)
    (st : list (FlowchartNode number) * gmap jsstring nat)
    (entry : jsstring * NodeData number) (style : jsstring) :
  trim (orElse (node_value (nd_node number (snd entry))) []) = [] ->
  node_style (nd_node number (snd entry)) = Some style ->
  style <> [] -> includes style (lit "group") = false ->
  secondPassEntry number toLowerCase st entry = st.
Proof.
  intros Hvalue Hstyle Hne Hgroup. apply secondPassEntry_skipped.
  unfold kept, hasNoContent. rewrite Hstyle, Hgroup.
  apply nonEmpty_true in Hne. rewrite Hne.
  assert (match node_value (nd_node number (snd entry)) with
          | Some v => negb (nonEmpty v) || negb (nonEmpty (trim v))
          | None => true
          end = true) as ->.
  { destruct (node_value (nd_node number (snd entry))) as [[| c v] |]; try reflexivity.
    simpl in Hvalue. rewrite Hvalue. reflexivity. }
  simpl. rewrite !andb_false_r. reflexivity.
Qed.

Example styled_vertex_is_skipped :
  forall (number : Type) toLowerCase inflateRaw parseFromString (parseFloat : jsstring -> number),
    extractFlowchartElements number toLowerCase inflateRaw parseFromString parseFloat
      (Some styledVertexDiagram) = Some (mkElements [] []).
Proof. intros. reflexivity. Qed.

Example empty_diagram_extracts :
  forall (number : Type) toLowerCase inflateRaw parseFromString (parseFloat : jsstring -> number),
    extractFlowchartElements number toLowerCase inflateRaw parseFromString parseFloat
      (Some emptyDiagram) = Some (mkElements [] []).
Proof. intros. reflexivity. Qed.

(** C7 at a vertex cell that has neither a value nor a style: the cell has
    no non-empty value and no 'group' marker, and it is returned as a node. *)
Lemma bare_vertex_is_kept :
  forall (number : Type) toLowerCase inflateRaw parseFromString (parseFloat : jsstring -> number),
  exists r,
    extractFlowchartElements number toLowerCase inflateRaw parseFromString parseFloat
      (Some bareVertexDiagram) = Some r
    /\ map node_id (nodes r) = [lit "2"]
    /\ map node_value (nodes r) = [None]
    /\ map node_style (nodes r) = [None].
Proof.
  intros. eexists. split; [reflexivity |]. repeat split.
Qed.

(** ** The analyzer: the kinds of issue messages *)




(** The kind of a message that ends with a known text of four code units or
    more is the kind of that text. *)
Lemma issueKind_suffix (x suffix : jsstring) :
  4 <= length suffix -> issueKind (x ++ suffix) = issueKind suffix.
Proof.
  intros Hlen. unfold issueKind, endsWith. rewrite rev_app_distr.
  rewrite !startsWith_app_short by (rewrite !length_rev; simpl; lia).
  destruct (rev suffix) as [| a [| b r]] eqn:E;
    try (apply (f_equal (@length N)) in E; rewrite length_rev in E; simpl in E; lia).
  reflexivity.
Qed.

Lemma issueKind_manyStart (k : nat) : issueKind (manyStartIssue k) = TerminalIssue.
Proof.
  unfold manyStartIssue. rewrite !app_assoc. rewrite issueKind_suffix; [reflexivity |].
  simpl. lia.
Qed.

Section MessageKinds.

Variable number : Type.

Lemma issueKind_disconnected (n : FlowchartNode number) :
  issueKind (disconnectedIssue number n) = DisconnectedIssue.
Proof.
  unfold disconnectedIssue. rewrite !app_assoc. rewrite issueKind_suffix; [reflexivity |].
  simpl. lia.
Qed.

Lemma issueKind_deadEnd (t : jsstring) (n : FlowchartNode number) :
  issueKind (deadEndIssue number t n) = DeadEndIssue.
Proof.
  unfold deadEndIssue. rewrite !app_assoc. rewrite issueKind_suffix; [reflexivity |].
  simpl. lia.
Qed.

Lemma issueKind_decision (n : FlowchartNode number) (k : nat) :
  issueKind (decisionIssue number n k) = BranchIssue.
Proof.
  unfold decisionIssue.
  destruct (numberToString_last k) as (ds & d & -> & Hd & _).
  rewrite !app_assoc. unfold issueKind, endsWith.
  rewrite !rev_app_distr. cbn. rewrite Hd. reflexivity.
Qed.

End MessageKinds.

(** ** The steps of analyzeFlowchart *)

Section AnalyzerFacts.

Variable number : Type.
Variable toUpperCase : jsstring -> jsstring.

Local Abbreviation Node := (FlowchartNode number).
Local Abbreviation Analysis := (FlowchartAnalysis number).

Lemma pushIssues_nil (a : Analysis) : pushIssues number a [] = a.
Proof. destruct a. unfold pushIssues. simpl. rewrite app_nil_r. reflexivity. Qed.

Lemma pushIssue_eq (a : Analysis) (x : jsstring) :
  pushIssue number a x = pushIssues number a [x].
Proof. reflexivity. Qed.

Lemma pushIssues_app (a : Analysis) (l1 l2 : list jsstring) :
  pushIssues number (pushIssues number a l1) l2 = pushIssues number a (l1 ++ l2).
Proof. unfold pushIssues. simpl. rewrite app_assoc. reflexivity. Qed.

Lemma checkTerminals_push (a : Analysis) :
  checkTerminals number a
  = pushIssues number a (terminalIssues (length (startNodes a)) (length (endNodes a))).
Proof.
  unfold checkTerminals, terminalIssues.
  destruct (length (startNodes a) =? 0); [| destruct (1 <? length (startNodes a))];
    simpl; destruct (length (endNodes a) =? 0); simpl;
    rewrite ?pushIssue_eq, ?pushIssues_app, ?pushIssues_nil; reflexivity.
Qed.

Lemma checkConnected_push (nodes : list Node) (edges : list FlowchartEdge) (a : Analysis) :
  checkConnected number nodes edges a
  = pushIssues number a (disconnectedIssues number nodes edges).
Proof.
  unfold checkConnected, disconnectedIssues.
  destruct (1 <? length nodes); [| rewrite pushIssues_nil; reflexivity].
  generalize (fold_left connectEdge edges ∅). intros ids.
  revert a. induction nodes as [| n nodes IH]; intros a; simpl.
  - rewrite pushIssues_nil. reflexivity.
  - rewrite IH. destruct (decide (node_id n ∈ ids)); simpl; [reflexivity |].
    rewrite pushIssue_eq. apply pushIssues_app.
Qed.

Lemma checkDecision_fold (oc : gmap jsstring Tally) (l : list Node) (a : Analysis) :
  fold_left (checkDecision number oc) l a = pushIssues number a (branchIssues number oc l).
Proof.
  unfold branchIssues. revert a. induction l as [| n l IH]; intros a; simpl.
  - rewrite pushIssues_nil. reflexivity.
  - rewrite IH. unfold checkDecision.
    destruct (outgoingOf number oc n) as [k |]; [| reflexivity].
    destruct (k <? 2); simpl; [| reflexivity].
    rewrite pushIssue_eq. apply pushIssues_app.
Qed.

Lemma checkDeadEnd_inv (oc : gmap jsstring Tally) (l : list Node) (a a' : Analysis) :
  forEachExc (checkDeadEnd number toUpperCase oc) l a = Ok a' ->
  exists E, a' = pushIssues number a E /\ Forall (fun s => issueKind s = DeadEndIssue) E.
Proof.
  revert a. induction l as [| n l IH]; intros a; simpl.
  - intros [= <-]. exists []. rewrite pushIssues_nil. auto.
  - unfold checkDeadEnd at 1.
    destruct (outgoingOf number oc n) as [[| k] |]; simpl; [| apply IH | apply IH].
    destruct (capitalizedType number toUpperCase n) as [t |]; simpl; [| discriminate].
    intros H. apply IH in H as (E & -> & HE).
    exists (deadEndIssue number t n :: E). split.
    + rewrite pushIssue_eq. apply pushIssues_app.
    + constructor; [apply issueKind_deadEnd | exact HE].
Qed.

Lemma checkDeadEnd_total (oc : gmap jsstring Tally) (l : list Node) (a : Analysis) :
  Forall (typed number) l ->
  exists a', forEachExc (checkDeadEnd number toUpperCase oc) l a = Ok a'.
Proof.
  intros Hl. revert a. induction Hl as [| n l [t Ht] _ IH]; intros a; simpl; [eauto |].
  unfold checkDeadEnd at 1, capitalizedType. rewrite Ht.
  destruct (outgoingOf number oc n) as [[| k] |]; simpl; apply IH.
Qed.

(** Step 1 appends every node to the bucket its type selects. *)
Lemma categorize_fold (l : list Node) (a : Analysis) :
  let a' := fold_left (categorize number) l a in
  totalElements a' = totalElements a
  /\ connections a' = connections a
  /\ issues a' = issues a
  /\ forall b, bucket a' b = bucket a b ++ List.filter (fun n => bool_decide (bucketFor n = b)) l.
Proof.
  revert a. induction l as [| n l IH]; intros a; simpl.
  - repeat split; try reflexivity. intros b. rewrite app_nil_r. reflexivity.
  - destruct (IH (categorize number a n)) as (Ht & Hc & Hi & Hb).
    rewrite Ht, Hc, Hi.
    assert (totalElements (categorize number a n) = totalElements a
            /\ connections (categorize number a n) = connections a
            /\ issues (categorize number a n) = issues a
            /\ forall b, bucket (categorize number a n) b
                         = bucket a b ++ (if bool_decide (bucketFor n = b) then [n] else []))
      as (Ht1 & Hc1 & Hi1 & Hb1).
    { unfold categorize, bucketFor.
      destruct (hasType number "start" n); [| destruct (hasType number "end" n);
        [| destruct (hasType number "decision" n);
           [| destruct (hasType number "input" n || hasType number "output" n)]]];
        (repeat split; try reflexivity; intros [];
         simpl; rewrite ?app_nil_r; reflexivity). }
    repeat split; try assumption.
    intros b. rewrite Hb, Hb1, <- app_assoc. f_equal.
    destruct (bool_decide (bucketFor n = b)); reflexivity.
Qed.

(** The result of a successful analysis: the buckets of step 1 and the five
    groups of issues, in the order the checks run. *)
Lemma analysis_shape (el : Elements number) (a : Analysis) :
  analyzeFlowchart number toUpperCase (Some el) = Ok (Some a) ->
  nodes el <> []
  /\ totalElements a = length (nodes el) + length (edges el)
  /\ (forall b, bucket a b = List.filter (fun n => bool_decide (bucketFor n = b)) (nodes el))
  /\ exists cyc deadEnds,
       detectCycles number (nodes el) (edges el) = Ok cyc
       /\ Forall (fun s => issueKind s = DeadEndIssue) deadEnds
       /\ issues a =
            terminalIssues (length (bucket a StartBucket)) (length (bucket a EndBucket))
            ++ disconnectedIssues number (nodes el) (edges el)
            ++ cyc
            ++ branchIssues number (fold_left (countOutgoing) (edges el) ∅)
                 (bucket a DecisionBucket)
            ++ deadEnds.
Proof.
  unfold analyzeFlowchart.
  destruct (nodes el) as [| n0 ns] eqn:Hnodes; [discriminate |].
  rewrite <- Hnodes. replace (length (nodes el) =? 0) with false by (rewrite Hnodes; reflexivity).
  set (a0 := mkAnalysis _ _ _ _ _ _ _ _).
  destruct (categorize_fold (nodes el) a0) as (Ht & Hc & Hi & Hb).
  set (a1 := fold_left (categorize number) (nodes el) a0) in *.
  rewrite checkTerminals_push, checkConnected_push.
  destruct (detectCycles number (nodes el) (edges el)) as [cyc |] eqn:Hcyc; simpl; [| discriminate].
  rewrite checkDecision_fold. rewrite !pushIssues_app.
  set (a5 := pushIssues number a1 _).
  destruct (forEachExc _ _ a5) as [a6 |] eqn:Hdead; simpl; [| discriminate].
  intros [= <-].
  apply checkDeadEnd_inv in Hdead as (E & -> & HE).
  subst a5. rewrite pushIssues_app.
  split; [rewrite Hnodes; discriminate |].
  split; [exact Ht |].
  split; [intros b; destruct b;
          [exact (Hb StartBucket) | exact (Hb EndBucket) | exact (Hb DecisionBucket)
          | exact (Hb IoBucket) | exact (Hb ProcessBucket)] |].
  exists cyc, E. split; [reflexivity |]. split; [exact HE |].
  simpl. rewrite Hi. simpl. rewrite <- !app_assoc. reflexivity.
Qed.

(** An analysis is returned when there is a node, every node carries a
    type, and no id read from [graph] is a name of Object.prototype. *)
Lemma analysis_total (el : Elements number) :
  nodes el <> [] -> Forall (typed number) (nodes el) ->
  prototypeFree (nodes el) (edges el) = true ->
  exists a, analyzeFlowchart number toUpperCase (Some el) = Ok (Some a).
Proof.
  intros Hne Htyped Hfree. unfold analyzeFlowchart.
  destruct (nodes el) as [| n0 ns] eqn:Hnodes; [congruence |].
  rewrite <- Hnodes in *. replace (length (nodes el) =? 0) with false by (rewrite Hnodes; reflexivity).
  set (a0 := mkAnalysis _ _ _ _ _ _ _ _).
  destruct (categorize_fold (nodes el) a0) as (_ & _ & _ & Hb).
  set (a1 := fold_left (categorize number) (nodes el) a0) in *.
  rewrite checkTerminals_push, checkConnected_push.
  destruct (detectCycles_total number (nodes el) (edges el) Hfree) as [cyc ->]; simpl.
  rewrite checkDecision_fold, !pushIssues_app.
  match goal with
  | |- context [forEachExc ?f ?l ?a] =>
      destruct (checkDeadEnd_total (fold_left countOutgoing (edges el) ∅) l a) as [a6 ->]
  end; simpl; eauto.
  pose proof (Hb ProcessBucket) as Hp; pose proof (Hb IoBucket) as Hio;
    pose proof (Hb DecisionBucket) as Hd; simpl in Hp, Hio, Hd;
    simpl; rewrite Hp, Hio, Hd, !Forall_app; repeat split;
    apply List.Forall_forall; intros n Hn; apply filter_In in Hn as [Hn _];
    eapply List.Forall_forall in Htyped; eauto.
Qed.

End AnalyzerFacts.

(** ** Counting issues *)




Lemma terminalIssues_kind (starts ends : nat) :
  Forall (fun s => issueKind s = TerminalIssue) (terminalIssues starts ends).
Proof.
  unfold terminalIssues. apply Forall_app. split.
  - destruct (starts =? 0); [| destruct (1 <? starts)]; repeat constructor.
    apply issueKind_manyStart.
  - destruct (ends =? 0); repeat constructor.
Qed.

Section IssueListFacts.

Variable number : Type.

Local Abbreviation Node := (FlowchartNode number).

Lemma disconnectedIssues_kind (nodes : list Node) (edges : list FlowchartEdge) :
  Forall (fun s => issueKind s = DisconnectedIssue) (disconnectedIssues number nodes edges).
Proof.
  unfold disconnectedIssues. destruct (1 <? length nodes); [| constructor].
  induction nodes as [| n nodes IH]; simpl; [constructor |].
  apply Forall_app. split; [| exact IH].
  destruct (decide _); repeat constructor. apply issueKind_disconnected.
Qed.

Lemma branchIssues_kind (oc : gmap jsstring Tally) (l : list Node) :
  Forall (fun s => issueKind s = BranchIssue) (branchIssues number oc l).
Proof.
  unfold branchIssues. induction l as [| n l IH]; simpl; [constructor |].
  apply Forall_app. split; [| exact IH].
  destruct (outgoingOf number oc n) as [k |]; [| constructor].
  destruct (_ <? 2); repeat constructor. apply issueKind_decision.
Qed.

Lemma hasType_true (t : string) (n : Node) :
  hasType number t n = true <-> node_type n = Some (lit t).
Proof.
  unfold hasType. destruct (node_type n) as [ty |]; [| split; discriminate].
  rewrite strEq_true. split; congruence.
Qed.

Lemma bucketFor_start (n : Node) :
  bool_decide (bucketFor n = StartBucket) = hasType number "start" n.
Proof.
  unfold bucketFor. destruct (hasType number "start" n); [reflexivity |].
  repeat match goal with |- context [if ?c then _ else _] => destruct c end; reflexivity.
Qed.

Lemma bucketFor_end (n : Node) :
  bool_decide (bucketFor n = EndBucket) = hasType number "end" n.
Proof.
  unfold bucketFor. destruct (hasType number "start" n) eqn:Hs.
  - apply hasType_true in Hs. unfold hasType. rewrite Hs. reflexivity.
  - destruct (hasType number "end" n); [reflexivity |].
    repeat match goal with |- context [if ?c then _ else _] => destruct c end; reflexivity.
Qed.

Lemma bucketFor_decision (n : Node) :
  bool_decide (bucketFor n = DecisionBucket) = hasType number "decision" n.
Proof.
  unfold bucketFor. destruct (hasType number "start" n) eqn:Hs.
  { apply hasType_true in Hs. unfold hasType. rewrite Hs. reflexivity. }
  destruct (hasType number "end" n) eqn:He.
  { apply hasType_true in He. unfold hasType. rewrite He. reflexivity. }
  destruct (hasType number "decision" n); [reflexivity |].
  repeat match goal with |- context [if ?c then _ else _] => destruct c end; reflexivity.
Qed.

End IssueListFacts.

Section AnalyzerTheorems.

Variable number : Type.
Variable toUpperCase : jsstring -> jsstring.

Local Abbreviation Node := (FlowchartNode number).


Lemma cycleIssues_kind (nodes : list Node) (edges : list FlowchartEdge) (cyc : list jsstring) :
  detectCycles number nodes edges = Ok cyc ->
  Forall (fun s => issueKind s = LoopIssue) cyc.
Proof.
  intros H. destruct (detectCycles_spec number nodes edges cyc H) as [[-> _] | [-> _]];
    repeat constructor.
Qed.



(** C10. For every non-null result of analyzeFlowchart, totalElements is
    the number of input nodes plus the number of input edges, and every
    input node is placed in exactly one of the five buckets (start, end,
    decision, io, process): the buckets together are a permutation of the
    input nodes and no node is in two of them. A node whose type is missing
    or outside the six known types is in the process bucket. *)
Theorem analysis_partition (el : Elements number) (a : FlowchartAnalysis number) :
  analyzeFlowchart number toUpperCase (Some el) = Ok (Some a) ->
  totalElements a = length (nodes el) + length (edges el)
  /\ Permutation
       (startNodes a ++ endNodes a ++ decisionNodes a ++ ioNodes a ++ processNodes a)
       (nodes el)
  /\ (forall n, In n (nodes el) ->
        exists b, In n (bucket a b) /\ forall b', In n (bucket a b') -> b' = b)
  /\ (forall n, In n (nodes el) ->
        (forall ty, node_type n = Some ty -> ~ In ty knownTypes) ->
        In n (processNodes a)).
Proof.
  intros H. apply analysis_shape in H as (_ & Ht & Hb & _).
  split; [exact Ht |].
  assert (forall n b, In n (bucket a b) <-> In n (nodes el) /\ bucketFor n = b) as Hin.
  { intros n b. rewrite Hb, filter_In, bool_decide_eq_true. reflexivity. }
  split; [| split].
  - change (Permutation (bucket a StartBucket ++ bucket a EndBucket ++ bucket a DecisionBucket
                         ++ bucket a IoBucket ++ bucket a ProcessBucket) (nodes el)).
    rewrite !Hb. clear. induction (nodes el) as [| n l IH]; simpl; [constructor |].
    destruct (bucketFor n); simpl; rewrite <- ?Permutation_middle;
      constructor; exact IH.
  - intros n Hn. exists (bucketFor n). split; [apply Hin; auto |].
    intros b' Hb'. apply Hin in Hb' as [_ Hb']. congruence.
  - intros n Hn Hunknown.
    change (In n (bucket a ProcessBucket)). apply Hin. split; [exact Hn |].
    unfold bucketFor, hasType.
    destruct (node_type n) as [ty |]; [| reflexivity].
    specialize (Hunknown ty eq_refl).
    assert (forall t, In (lit t) knownTypes -> strEq ty (lit t) = false) as Hne.
    { intros t Hknown. apply strEq_false. intros ->. exact (Hunknown Hknown). }
    rewrite !Hne; [reflexivity | unfold knownTypes; simpl; tauto ..].
Qed.

End AnalyzerTheorems.







(** A node without a type lands in the process bucket. *)
Lemma analysis_partition_witness :
  In stepNode (nodes untypedChart)
  /\ forall toUpperCase, exists a,
       analyzeFlowchart N toUpperCase (Some untypedChart) = Ok (Some a)
       /\ totalElements a = 3
       /\ In stepNode (processNodes a).
Proof.
  split; [simpl; tauto |].
  intros toUpperCase.
  assert (exists a, analyzeFlowchart N toUpperCase (Some untypedChart) = Ok (Some a)) as [a Ha]
    by (eexists; reflexivity).
  exists a. split; [exact Ha |].
  destruct (analysis_partition N toUpperCase untypedChart a Ha) as (Htotal & _ & _ & Hprocess).
  split; [exact Htotal |].
  apply Hprocess; [simpl; tauto | discriminate].
Defined.

Section BranchFacts.

Variable number : Type.
Local Abbreviation Node := (FlowchartNode number).

Lemma tallyOf_countOutgoing (oc : gmap jsstring Tally) (e : FlowchartEdge) (id : jsstring) :
  oc !! lit "__proto__" = None ->
  countOutgoing oc e !! lit "__proto__" = None
  /\ tallyOf (countOutgoing oc e) id
     = if sourceIs id e then plusOne (tallyOf oc id) else tallyOf oc id.
Proof.
  intros Hproto. unfold countOutgoing, sourceIs.
  destruct (sourceId e) as [s |]; [| auto].
  destruct (nonEmpty s); simpl; [| auto].
  destruct (strEq s (lit "__proto__")) eqn:Es.
  - split; [exact Hproto |]. apply strEq_true in Es. subst s.
    destruct (strEq (lit "__proto__") id) eqn:E; [| reflexivity].
    apply strEq_true in E. subst id.
    unfold tallyOf, readSlot. rewrite Hproto. reflexivity.
  - apply strEq_false in Es. split; [rewrite lookup_insert_ne by exact Es; exact Hproto |].
    destruct (strEq s id) eqn:E.
    + apply strEq_true in E. subst id. unfold tallyOf at 1, readSlot.
      rewrite lookup_insert_eq. reflexivity.
    + apply strEq_false in E. unfold tallyOf, readSlot.
      rewrite lookup_insert_ne by exact E. reflexivity.
Qed.

Lemma tallyOf_fold (edges : list FlowchartEdge) (oc : gmap jsstring Tally) (id : jsstring) :
  oc !! lit "__proto__" = None ->
  tallyOf (fold_left countOutgoing edges oc) id
  = Nat.iter (length (outgoingEdges edges id)) plusOne (tallyOf oc id).
Proof.
  revert oc. induction edges as [| e edges IH]; intros oc Hproto; simpl; [reflexivity |].
  destruct (tallyOf_countOutgoing oc e id Hproto) as [Hproto' Hstep].
  rewrite (IH _ Hproto'), Hstep.
  destruct (sourceIs id e); [| reflexivity].
  simpl length. rewrite Nat.iter_succ_r. reflexivity.
Qed.

(** Under an id that is not a name of Object.prototype the tally is the
    number of edges that leave the node. *)
Lemma outgoingOf_spec (edges : list FlowchartEdge) (n : Node) :
  isObjectPrototypeName (node_id n) = false ->
  outgoingOf number (fold_left countOutgoing edges ∅) n = Count (outgoingCount edges n).
Proof.
  intros Hplain. unfold outgoingOf, outgoingCount.
  rewrite tallyOf_fold by apply lookup_empty.
  unfold tallyOf at 1, readSlot. rewrite lookup_empty, Hplain.
  induction (length (outgoingEdges edges (node_id n))) as [| k IH]; [reflexivity |].
  simpl. rewrite IH. simpl. f_equal. lia.
Qed.

(** Under a name of Object.prototype it is never a number. *)
Lemma outgoingOf_inherited (edges : list FlowchartEdge) (n : Node) :
  isObjectPrototypeName (node_id n) = true ->
  outgoingOf number (fold_left countOutgoing edges ∅) n = NotANumber.
Proof.
  intros Hproto. unfold outgoingOf.
  rewrite tallyOf_fold by apply lookup_empty.
  unfold tallyOf at 1, readSlot. rewrite lookup_empty, Hproto.
  induction (length (outgoingEdges edges (node_id n))) as [| k IH]; [reflexivity |].
  simpl. rewrite IH. reflexivity.
Qed.

Lemma outgoingOf_Count (edges : list FlowchartEdge) (n : Node) (k : nat) :
  outgoingOf number (fold_left countOutgoing edges ∅) n = Count k
  <-> isObjectPrototypeName (node_id n) = false /\ outgoingCount edges n = k.
Proof.
  destruct (isObjectPrototypeName (node_id n)) eqn:E.
  - rewrite outgoingOf_inherited by exact E. split; [discriminate | intros [H _]; discriminate].
  - rewrite outgoingOf_spec by exact E. split; [intros [= <-]; auto | intros [_ ->]; reflexivity].
Qed.




End BranchFacts.

Section BranchTheorem.

Variable number : Type.
Variable toUpperCase : jsstring -> jsstring.
Local Abbreviation Node := (FlowchartNode number).





End BranchTheorem.



(** * Further properties of the parser and the analyzer *)

(** ** decodeHtml *)

Lemma replaceAll_blocks {A : Type} (pat rep : jsstring) (P : A -> Prop) (f g : A -> jsstring)
    (l : list A) :
  (forall x rest, P x ->
     replaceFrom pat rep 0 (f x ++ rest) = g x ++ replaceFrom pat rep 0 rest) ->
  Forall P l ->
  replaceAll (flat_map f l) pat rep = flat_map g l.
Proof.
  intros H Hl. unfold replaceAll. induction Hl as [| x l Hx _ IH]; simpl; [reflexivity |].
  rewrite H, IH by exact Hx. reflexivity.
Qed.

Lemma replaceFrom_other (pat rep : jsstring) (p c : N) (rest : jsstring) :
  c <> p -> replaceFrom (p :: pat) rep 0 (c :: rest) = c :: replaceFrom (p :: pat) rep 0 rest.
Proof.
  intros Hc. simpl. rewrite startsWith_cons.
  destruct (N.eqb_spec p c) as [-> |]; [congruence | reflexivity].
Qed.

(** A text without the first code unit of the pattern is left unchanged. *)
Lemma replaceAll_absent (pat rep : jsstring) (p : N) (s : jsstring) :
  ~ In p s -> replaceAll s (p :: pat) rep = s.
Proof.
  unfold replaceAll. induction s as [| c s IH]; intros Hp; [reflexivity |].
  rewrite replaceFrom_other by (intros ->; apply Hp; left; reflexivity).
  rewrite IH; [reflexivity |]. intros H. apply Hp. right. exact H.
Qed.

Ltac by_piece p rest :=
  unfold partlyDecoded, written, escapeCodeUnit, pieceCodeUnit, rawOk;
  simpl take; simpl existsb;
  let c := fresh "c" in
  destruct p as [c | c]; intros Hok;
  (destruct (N.eqb_spec c 38) as [-> |]; [first [reflexivity | congruence] |]);
  (destruct (N.eqb_spec c 60) as [-> |]; [reflexivity |]);
  (destruct (N.eqb_spec c 62) as [-> |]; [reflexivity |]);
  (destruct (N.eqb_spec c 34) as [-> |]; [reflexivity |]);
  (destruct (N.eqb_spec c 39) as [-> |]; [reflexivity |]);
  apply (replaceFrom_other _ _ 38%N c rest); assumption.

Lemma decodeHtml_pass_lt (p : Piece) (rest : jsstring) :
  rawOk p ->
  replaceFrom (lit "&lt;") (lit "<") 0 (partlyDecoded 0 p ++ rest)
  = partlyDecoded 1 p ++ replaceFrom (lit "&lt;") (lit "<") 0 rest.
Proof. by_piece p rest. Qed.

Lemma decodeHtml_pass_gt (p : Piece) (rest : jsstring) :
  rawOk p ->
  replaceFrom (lit "&gt;") (lit ">") 0 (partlyDecoded 1 p ++ rest)
  = partlyDecoded 2 p ++ replaceFrom (lit "&gt;") (lit ">") 0 rest.
Proof. by_piece p rest. Qed.

Lemma decodeHtml_pass_quot (p : Piece) (rest : jsstring) :
  rawOk p ->
  replaceFrom (lit "&quot;") dquote 0 (partlyDecoded 2 p ++ rest)
  = partlyDecoded 3 p ++ replaceFrom (lit "&quot;") dquote 0 rest.
Proof. by_piece p rest. Qed.

Lemma decodeHtml_pass_apos (p : Piece) (rest : jsstring) :
  rawOk p ->
  replaceFrom (lit "&#39;") (lit "'") 0 (partlyDecoded 3 p ++ rest)
  = partlyDecoded 4 p ++ replaceFrom (lit "&#39;") (lit "'") 0 rest.
Proof. by_piece p rest. Qed.

Lemma decodeHtml_pass_nbsp (p : Piece) (rest : jsstring) :
  rawOk p ->
  replaceFrom (lit "&nbsp;") (lit " ") 0 (partlyDecoded 4 p ++ rest)
  = partlyDecoded 4 p ++ replaceFrom (lit "&nbsp;") (lit " ") 0 rest.
Proof. by_piece p rest. Qed.

Lemma decodeHtml_pass_amp (p : Piece) (rest : jsstring) :
  rawOk p ->
  replaceFrom (lit "&amp;") (lit "&") 0 (partlyDecoded 4 p ++ rest)
  = [pieceCodeUnit p] ++ replaceFrom (lit "&amp;") (lit "&") 0 rest.
Proof. by_piece p rest. Qed.

Lemma flat_map_singleton {A B : Type} (f : A -> B) (l : list A) :
  flat_map (fun x => [f x]) l = map f l.
Proof. induction l as [| x l IH]; simpl; [reflexivity | rewrite IH; reflexivity]. Qed.

Lemma ampersandsEscaped_rawOk (ps : list Piece) :
  ampersandsEscaped ps = true -> Forall rawOk ps.
Proof.
  unfold ampersandsEscaped. rewrite forallb_forall, List.Forall_forall.
  intros H p Hp. specialize (H p Hp). intros ->. discriminate.
Qed.

Lemma decodeHtml_pieces (ps : list Piece) :
  ampersandsEscaped ps = true -> decodeHtml (escapedText ps) = plainText ps.
Proof.
  intros Hok. apply ampersandsEscaped_rawOk in Hok.
  unfold decodeHtml, escapedText, plainText.
  change (flat_map written ps) with (flat_map (partlyDecoded 0) ps).
  rewrite (replaceAll_blocks _ _ _ _ _ ps decodeHtml_pass_lt Hok).
  rewrite (replaceAll_blocks _ _ _ _ _ ps decodeHtml_pass_gt Hok).
  rewrite (replaceAll_blocks _ _ _ _ _ ps decodeHtml_pass_quot Hok).
  rewrite (replaceAll_blocks _ _ _ _ _ ps decodeHtml_pass_apos Hok).
  rewrite (replaceAll_blocks _ _ _ _ _ ps decodeHtml_pass_nbsp Hok).
  rewrite (replaceAll_blocks _ _ _ _ _ ps decodeHtml_pass_amp Hok).
  apply flat_map_singleton.
Qed.

(** X1. decodeHtml undoes entity escaping: for a text in which every
    ampersand is written '&amp;' and each of '<', '>', the double and the
    single quote is written raw or as its entity, decoding gives the plain
    text back. The ampersand is decoded last, so a plain text that itself
    holds an entity ('&amp;lt;' for '&lt;') is decoded once, not twice. *)
Theorem decodeHtml_unescapes (ps : list Piece) :
  ampersandsEscaped ps = true -> decodeHtml (escapedText ps) = plainText ps.
Proof. exact (decodeHtml_pieces ps). Qed.

(** '&amp;lt;b&gt;' with a raw quote: the plain text is '&lt;b>' and a
    quote. *)
Lemma decodeHtml_unescapes_witness :
  ampersandsEscaped [Entity 38; Raw 108; Raw 116; Raw 59; Raw 98; Entity 62; Raw 34]%N = true
  /\ escapedText [Entity 38; Raw 108; Raw 116; Raw 59; Raw 98; Entity 62; Raw 34]%N
     = lit "&amp;lt;b&gt;" ++ dquote
  /\ decodeHtml (lit "&amp;lt;b&gt;" ++ dquote) = lit "&lt;b>" ++ dquote.
Proof.
  split; [reflexivity |]. split; [reflexivity |].
  exact (decodeHtml_unescapes
           [Entity 38; Raw 108; Raw 116; Raw 59; Raw 98; Entity 62; Raw 34]%N eq_refl).
Defined.

Lemma decodeHtml_absent (s : jsstring) :
  ~ In 38%N s -> decodeHtml s = s.
Proof.
  intros H. unfold decodeHtml.
  change (lit "&lt;") with (38%N :: lit "lt;").
  change (lit "&gt;") with (38%N :: lit "gt;").
  change (lit "&quot;") with (38%N :: lit "quot;").
  change (lit "&#39;") with (38%N :: lit "#39;").
  change (lit "&nbsp;") with (38%N :: lit "nbsp;").
  change (lit "&amp;") with (38%N :: lit "amp;").
  rewrite (replaceAll_absent _ _ _ s H). rewrite (replaceAll_absent _ _ _ s H).
  rewrite (replaceAll_absent _ _ _ s H). rewrite (replaceAll_absent _ _ _ s H).
  rewrite (replaceAll_absent _ _ _ s H). apply (replaceAll_absent _ _ _ s H).
Qed.

(** X2. A text without an ampersand holds no entity: decodeHtml returns it
    unchanged. *)
Theorem decodeHtml_no_ampersand (s : jsstring) :
  ~ In 38%N s -> decodeHtml s = s.
Proof. exact (decodeHtml_absent s). Qed.

Lemma decodeHtml_no_ampersand_witness :
  ~ In 38%N (lit "<mxGraphModel/>") /\ decodeHtml (lit "<mxGraphModel/>") = lit "<mxGraphModel/>".
Proof.
  assert (~ In 38%N (lit "<mxGraphModel/>")) as H by (simpl; intuition discriminate).
  split; [exact H | exact (decodeHtml_no_ampersand _ H)].
Defined.

(** ** decodeDiagramContent on text that is not base64 *)

Lemma In_trimStart (c : N) (s : jsstring) : In c (trimStart s) -> In c s.
Proof.
  induction s as [| d s IH]; simpl; [tauto |].
  destruct (isWhiteSpace d); simpl; tauto.
Qed.

Lemma In_trim (c : N) (s : jsstring) : In c (trim s) -> In c s.
Proof.
  unfold trim, trimEnd. intros H.
  apply in_rev, In_trimStart, in_rev in H. apply In_trimStart in H. exact H.
Qed.

Lemma sextets_None (c : N) (s : jsstring) :
  In c s -> base64Value c = None -> sextets s = None.
Proof.
  intros Hin Hc. induction s as [| d s IH]; [destruct Hin |].
  simpl. destruct Hin as [-> | Hin].
  - rewrite Hc. reflexivity.
  - rewrite (IH Hin). destruct (base64Value d); reflexivity.
Qed.

Lemma In_stripPadding (c : N) (s : jsstring) :
  In c s -> c <> 61%N -> In c (stripPadding s).
Proof.
  intros Hin Hc. unfold stripPadding.
  destruct (length s mod 4 =? 0)%nat; [| exact Hin].
  apply in_rev in Hin.
  destruct (rev s) as [| a r] eqn:E; [exact (False_ind _ Hin) |].
  assert (forall r', In c r' -> In c (rev r')) as Hrev by (intros r'; apply in_rev).
  assert (In c s) as Hs by (apply in_rev; rewrite E; exact Hin).
  destruct (N.eqb_spec a 61) as [-> | Ha].
  - destruct Hin as [<- | Hin]; [congruence |].
    destruct r as [| b r]; [destruct Hin |].
    destruct (N.eqb_spec b 61) as [-> | Hb].
    + destruct Hin as [<- | Hin]; [congruence |]. apply Hrev, Hin.
    + destruct b as [| p]; [apply Hrev; exact Hin |].
      do 6 (destruct p as [p | p |]; try (apply Hrev; exact Hin)).
      congruence.
  - destruct a as [| p]; [exact Hs |].
    do 6 (destruct p as [p | p |]; try exact Hs). congruence.
Qed.

(** atob rejects a text that holds a code unit outside the base64 alphabet
    other than white space and padding. *)
Lemma atob_invalid (c : N) (s : jsstring) :
  In c s -> notBase64 c = true -> atob s = Err InvalidCharacterError.
Proof.
  intros Hin Hc. unfold notBase64 in Hc.
  destruct (base64Value c) eqn:Hv; [discriminate |].
  apply andb_true_iff in Hc as [Hc _]. apply andb_true_iff in Hc as [Hws H61].
  apply negb_true_iff in Hws, H61. apply N.eqb_neq in H61.
  unfold atob.
  assert (In c (stripPadding (filter (fun c => isAsciiWhitespace c = false) s))) as Hin'.
  { apply In_stripPadding; [| exact H61].
    apply list_elem_of_In, list_elem_of_filter. split; [exact Hws | apply list_elem_of_In, Hin]. }
  rewrite (sextets_None c _ Hin' Hv).
  destruct (_ =? 1)%nat; reflexivity.
Qed.

Lemma notBase64_not_hex (c : N) : notBase64 c = true -> hexValue c = None /\ c <> 37%N.
Proof.
  unfold notBase64, base64Value, hexValue. intros H.
  destruct ((65 <=? c)%N && (c <=? 90)%N) eqn:E1; [discriminate |].
  destruct ((97 <=? c)%N && (c <=? 122)%N) eqn:E2; [discriminate |].
  destruct ((48 <=? c)%N && (c <=? 57)%N) eqn:E3; [discriminate |].
  split.
  - destruct ((65 <=? c)%N && (c <=? 70)%N) eqn:E4.
    { apply andb_true_iff in E4 as [Ha Hb]. apply N.leb_le in Ha, Hb.
      apply andb_false_iff in E1 as [E1 | E1]; apply N.leb_gt in E1; lia. }
    destruct ((97 <=? c)%N && (c <=? 102)%N) eqn:E5; [| reflexivity].
    apply andb_true_iff in E5 as [Ha Hb]. apply N.leb_le in Ha, Hb.
    apply andb_false_iff in E2 as [E2 | E2]; apply N.leb_gt in E2; lia.
  - destruct (c =? 43)%N; [discriminate |]. destruct (c =? 47)%N; [discriminate |].
    apply andb_true_iff in H as [_ H]. apply negb_true_iff, N.eqb_neq in H. exact H.
Qed.

Lemma uriTokens_keeps (c : N) (s : jsstring) (ts : list UriToken) :
  In c s -> hexValue c = None -> c <> 37%N -> uriTokens s = Ok ts -> In (Plain c) ts.
Proof.
  intros Hin Hhex H37. revert ts Hin.
  induction s as [s IH] using (induction_ltof1 _ (@length N)). unfold ltof in IH.
  intros ts Hin Hts. destruct s as [| d s]; [destruct Hin |].
  simpl in Hts. destruct (N.eqb_spec d 37) as [-> | Hd].
  - destruct Hin as [<- | Hin]; [congruence |].
    destruct s as [| h1 [| h2 s']]; try discriminate.
    destruct (hexValue h1) eqn:H1; [| discriminate].
    destruct (hexValue h2) eqn:H2; [| discriminate].
    destruct (uriTokens s') as [ts' |] eqn:E; simpl in Hts; [| discriminate].
    injection Hts as <-. right.
    destruct Hin as [<- | [<- | Hin]]; [congruence | congruence |].
    apply (IH s'); [simpl; lia | exact Hin | exact E].
  - destruct (uriTokens s) as [ts' |] eqn:E; simpl in Hts; [| discriminate].
    injection Hts as <-.
    destruct Hin as [<- | Hin]; [left; reflexivity | right].
    apply (IH s); [simpl; lia | exact Hin | exact E].
Qed.

Lemma uriDecodeTokens_keeps (c : N) (ts : list UriToken) (r : jsstring) :
  In (Plain c) ts -> uriDecodeTokens ts = Ok r -> In c r.
Proof.
  revert r. induction ts as [ts IH] using (induction_ltof1 _ (@length UriToken)).
  unfold ltof in IH. intros r Hin Hr.
  destruct ts as [| t ts]; [destruct Hin |].
  destruct t as [d | b].
  - simpl in Hr. destruct (uriDecodeTokens ts) as [s |] eqn:E; simpl in Hr; [| discriminate].
    injection Hr as <-.
    destruct Hin as [[= <-] | Hin]; [left; reflexivity | right].
    apply (IH ts); [simpl; lia | exact Hin | exact E].
  - destruct Hin as [Hin | Hin]; [discriminate |].
    simpl in Hr.
    destruct (b <? 128)%N.
    { destruct (uriDecodeTokens ts) as [s |] eqn:E; simpl in Hr; [| discriminate].
      injection Hr as <-. right. apply (IH ts); [simpl; lia | exact Hin | exact E]. }
    destruct (inRange 194 223 b).
    { destruct ts as [| [? | b2] r2]; try discriminate.
      destruct (isContinuation b2); [| discriminate].
      destruct (uriDecodeTokens r2) as [s |] eqn:E; simpl in Hr; [| discriminate].
      injection Hr as <-. apply in_or_app. right.
      destruct Hin as [Hin | Hin]; [discriminate |].
      apply (IH r2); [simpl; lia | exact Hin | exact E]. }
    destruct (inRange 224 239 b).
    { destruct ts as [| [? | b2] [| [? | b3] r3]]; try discriminate.
      destruct (_ && _); [| discriminate].
      destruct (uriDecodeTokens r3) as [s |] eqn:E; simpl in Hr; [| discriminate].
      injection Hr as <-. apply in_or_app. right.
      destruct Hin as [Hin | [Hin | Hin]]; [discriminate | discriminate |].
      apply (IH r3); [simpl; lia | exact Hin | exact E]. }
    destruct (inRange 240 244 b); [| discriminate].
    destruct ts as [| [? | b2] [| [? | b3] [| [? | b4] r4]]]; try discriminate.
    destruct (_ && _); [| discriminate].
    destruct (uriDecodeTokens r4) as [s |] eqn:E; simpl in Hr; [| discriminate].
    injection Hr as <-. apply in_or_app. right.
    destruct Hin as [Hin | [Hin | [Hin | Hin]]]; [discriminate | discriminate | discriminate |].
    apply (IH r4); [simpl; lia | exact Hin | exact E].
Qed.

(** decodeURIComponent copies every code unit that is neither '%' nor a
    hexadecimal digit. *)
Lemma decodeURIComponent_keeps (c : N) (s r : jsstring) :
  In c s -> notBase64 c = true -> decodeURIComponent s = Ok r -> In c r.
Proof.
  intros Hin Hc. destruct (notBase64_not_hex c Hc) as [Hhex H37].
  unfold decodeURIComponent.
  destruct (uriTokens s) as [ts |] eqn:E; simpl; [| discriminate].
  intros Hr. eapply uriDecodeTokens_keeps; [| exact Hr].
  eapply uriTokens_keeps; eauto.
Qed.

Section EscapedFacts.

Variable inflateRaw : list N -> Exc jsstring.

Lemma inflatePath_invalid (c : N) (b64 : jsstring) :
  In c b64 -> notBase64 c = true -> inflatePath inflateRaw b64 = Err InvalidCharacterError.
Proof.
  intros Hin Hc. unfold inflatePath, b64ToUint8.
  rewrite (atob_invalid c b64 Hin Hc). reflexivity.
Qed.

Lemma decode_not_base64_cases (c : N) (data : jsstring) :
  In c data -> notBase64 c = true ->
  startsWith (trim data) (lit "<") = false ->
  decodeDiagramContent inflateRaw data
  = Ok (if startsWith (trim (decodeHtml data)) (lit "<") then decodeHtml data else []).
Proof.
  intros Hin Hc Hlt. unfold decodeDiagramContent.
  destruct data as [| d data]; [destruct Hin |].
  change (nonEmpty (d :: data)) with true. simpl negb. cbv iota.
  rewrite Hlt.
  rewrite (inflatePath_invalid c _ Hin Hc). simpl.
  assert (tryCatch (bindExc (decodeURIComponent (d :: data))
                      (fun uriDecoded => inflatePath inflateRaw uriDecoded)) (Ok None)
          = Ok None) as ->.
  { destruct (decodeURIComponent (d :: data)) as [u |] eqn:E; [| reflexivity].
    simpl. rewrite (inflatePath_invalid c u); [reflexivity | | exact Hc].
    eapply decodeURIComponent_keeps; eauto. }
  simpl. destruct (startsWith (trim (decodeHtml (d :: data))) (lit "<")); reflexivity.
Qed.

(** X3. A code unit that cannot occur in base64 text, also behind a URI
    encoding (such as the '&' of an entity, a quote or a semicolon), rules
    out both inflate strategies whatever the inflater does: when the input
    holds one and is not passed through, the result of decodeDiagramContent
    is the HTML-decoded input if that starts, trimmed, with '<', and the
    empty string otherwise. *)
Theorem decode_not_base64 (c : N) (data : jsstring) :
  In c data -> notBase64 c = true ->
  startsWith (trim data) (lit "<") = false ->
  decodeDiagramContent inflateRaw data
  = Ok (if startsWith (trim (decodeHtml data)) (lit "<") then decodeHtml data else []).
Proof. exact (decode_not_base64_cases c data). Qed.

Lemma In_escapedText (p : Piece) (ps : list Piece) (c : N) :
  In p ps -> In c (written p) -> In c (escapedText ps).
Proof.
  intros Hp Hc. unfold escapedText. apply in_flat_map. exists p. split; assumption.
Qed.

Lemma startsWith_In (s : jsstring) (c : N) : startsWith s [c] = true -> In c s.
Proof.
  destruct s as [| d s]; [discriminate |]. rewrite startsWith_cons.
  intros H. apply andb_true_iff in H as [H _]. apply N.eqb_eq in H. left. congruence.
Qed.

(** X4. HTML-escaped XML is recovered: for an escaped text whose plain text
    starts, trimmed, with '<' and which is not itself passed through,
    decodeDiagramContent returns the plain text, whatever the inflater
    does. *)
Theorem decode_escaped_xml (ps : list Piece) :
  ampersandsEscaped ps = true ->
  startsWith (trim (escapedText ps)) (lit "<") = false ->
  startsWith (trim (plainText ps)) (lit "<") = true ->
  decodeDiagramContent inflateRaw (escapedText ps) = Ok (plainText ps).
Proof.
  intros Hok Hdata Hxml.
  assert (exists c, In c (escapedText ps) /\ notBase64 c = true) as (c & Hin & Hc).
  { apply startsWith_In, In_trim in Hxml. unfold plainText in Hxml.
    apply in_map_iff in Hxml as (p & Hp & Hin).
    destruct p as [x | x]; simpl in Hp; subst x.
    - exists 60%N. split; [| reflexivity].
      apply (In_escapedText _ _ _ Hin). left. reflexivity.
    - exists 38%N. split; [| reflexivity].
      apply (In_escapedText _ _ _ Hin). left. reflexivity. }
  rewrite (decode_not_base64_cases c _ Hin Hc Hdata).
  rewrite (decodeHtml_pieces ps Hok), Hxml. reflexivity.
Qed.

(** X5. The result of decodeDiagramContent is a fixed point: decoding it
    again, with any inflater, returns it unchanged. *)
Theorem decode_idempotent (inflateRaw' : list N -> Exc jsstring) (data : jsstring) :
  exists r, decodeDiagramContent inflateRaw data = Ok r
            /\ decodeDiagramContent inflateRaw' r = Ok r.
Proof.
  destruct (decode_cases inflateRaw data) as (r & Hr & Hshape).
  exists r. split; [exact Hr |].
  destruct Hshape as [-> | Hlt]; [reflexivity |].
  unfold decodeDiagramContent.
  rewrite (trimmed_lt_nonEmpty r Hlt). simpl. rewrite Hlt. reflexivity.
Qed.

End EscapedFacts.

Lemma decode_not_base64_witness :
  In 59%N (lit "a;b") /\ notBase64 59 = true
  /\ startsWith (trim (lit "a;b")) (lit "<") = false
  /\ forall inflateRaw, decodeDiagramContent inflateRaw (lit "a;b") = Ok [].
Proof.
  assert (In 59%N (lit "a;b")) as Hin by (simpl; tauto).
  split; [exact Hin |]. split; [reflexivity |]. split; [reflexivity |].
  intros inflateRaw.
  exact (decode_not_base64 inflateRaw 59%N (lit "a;b") Hin eq_refl eq_refl).
Defined.

Lemma decode_escaped_xml_witness :
  ampersandsEscaped escapedModel = true
  /\ escapedText escapedModel
     = lit "&lt;mxGraphModel&gt;&lt;root/&gt;&lt;/mxGraphModel&gt;"
  /\ forall inflateRaw,
       decodeDiagramContent inflateRaw
         (lit "&lt;mxGraphModel&gt;&lt;root/&gt;&lt;/mxGraphModel&gt;")
       = Ok (lit "<mxGraphModel><root/></mxGraphModel>").
Proof.
  split; [reflexivity |]. split; [reflexivity |].
  intros inflateRaw.
  exact (decode_escaped_xml inflateRaw escapedModel eq_refl eq_refl eq_refl).
Defined.

(** ** b64ToUint8 *)

Lemma base64Value_lt (c v : N) : base64Value c = Some v -> (v < 64)%N.
Proof.
  unfold base64Value.
  repeat match goal with
         | |- context [if ?b then _ else _] => destruct b eqn:?
         end; intros [= <-];
    repeat match goal with
           | H : (_ && _) = true |- _ => apply andb_true_iff in H as [? ?]
           | H : (_ <=? _)%N = true |- _ => apply N.leb_le in H
           end; lia.
Qed.

Lemma sextets_lt (s : jsstring) (vs : list N) :
  sextets s = Some vs -> Forall (fun v => (v < 64)%N) vs.
Proof.
  revert vs. induction s as [| c s IH]; simpl; intros vs.
  - intros [= <-]. constructor.
  - destruct (base64Value c) as [v |] eqn:Hv; [| discriminate].
    destruct (sextets s) as [vs' |]; [| discriminate].
    intros [= <-]. constructor; [eapply base64Value_lt; eauto | auto].
Qed.

Lemma lor_lt_pow2 (a b k : N) : (a < 2 ^ k -> b < 2 ^ k -> N.lor a b < 2 ^ k)%N.
Proof.
  intros Ha Hb.
  destruct (N.eq_dec (N.lor a b) 0%N) as [-> | Hnz]; [apply N.neq_0_lt_0, N.pow_nonzero; lia |].
  apply N.log2_lt_pow2; [lia |].
  rewrite N.log2_lor.
  destruct (N.eq_dec a 0%N) as [-> | Hza], (N.eq_dec b 0%N) as [-> | Hzb].
  - exfalso. apply Hnz. reflexivity.
  - rewrite N.max_r by (simpl; lia). apply N.log2_lt_pow2; lia.
  - rewrite N.max_l by (simpl; lia). apply N.log2_lt_pow2; lia.
  - apply N.max_lub_lt; apply N.log2_lt_pow2; lia.
Qed.

Lemma shiftl_lt (a k : N) : (a < 64 -> N.shiftl a k < 2 ^ (k + 6))%N.
Proof.
  intros Ha. rewrite N.shiftl_mul_pow2, N.pow_add_r. change (2 ^ 6)%N with 64%N.
  assert (0 < 2 ^ k)%N by (apply N.neq_0_lt_0, N.pow_nonzero; lia). nia.
Qed.

Lemma shiftr_lt (n k j : N) : (n < 2 ^ (k + j) -> N.shiftr n k < 2 ^ j)%N.
Proof.
  intros Hn. rewrite N.shiftr_div_pow2.
  apply N.Div0.div_lt_upper_bound. rewrite <- N.pow_add_r. exact Hn.
Qed.

Lemma land_255_lt (n : N) : (N.land n 255 < 256)%N.
Proof.
  change 255%N with (N.ones 8). rewrite N.land_ones.
  apply N.mod_lt. discriminate.
Qed.

Lemma lt_pow2_mono (a j k : N) : (j <= k -> a < 2 ^ j -> a < 2 ^ k)%N.
Proof.
  intros Hjk Ha. eapply N.lt_le_trans; [exact Ha |].
  apply N.pow_le_mono_r; lia.
Qed.

Lemma decodeSextets_lt (vs : list N) :
  Forall (fun v => (v < 64)%N) vs -> Forall (fun b => (b < 256)%N) (decodeSextets vs).
Proof.
  induction vs as [vs IH] using (induction_ltof1 _ (@length N)). unfold ltof in IH.
  intros H.
  destruct vs as [| a [| b [| c [| d rest]]]].
  - constructor.
  - constructor.
  - apply List.Forall_cons_iff in H as [Ha H]. apply List.Forall_cons_iff in H as [Hb _].
    constructor; [| constructor].
    apply (shiftr_lt _ 4 8).
    apply lor_lt_pow2; [apply (shiftl_lt a 6 Ha) | apply (lt_pow2_mono b 6 12); [lia | exact Hb]].
  - apply List.Forall_cons_iff in H as [Ha H]. apply List.Forall_cons_iff in H as [Hb H].
    apply List.Forall_cons_iff in H as [Hc _].
    constructor; [| constructor; [apply land_255_lt | constructor]].
    apply (shiftr_lt _ 8 8). apply (shiftr_lt _ 2 16).
    apply lor_lt_pow2; [apply (shiftl_lt a 12 Ha) |].
    apply lor_lt_pow2; [apply (lt_pow2_mono _ 12 18); [lia | apply (shiftl_lt b 6 Hb)] |].
    apply (lt_pow2_mono c 6 18); [lia | exact Hc].
  - apply List.Forall_cons_iff in H as [Ha H]. apply List.Forall_cons_iff in H as [Hb H].
    apply List.Forall_cons_iff in H as [Hc H]. apply List.Forall_cons_iff in H as [Hd H4].
    change (decodeSextets (a :: b :: c :: d :: rest))
      with (let n := N.lor (N.shiftl a 18) (N.lor (N.shiftl b 12) (N.lor (N.shiftl c 6) d)) in
            N.shiftr n 16 :: N.land (N.shiftr n 8) 255 :: N.land n 255 :: decodeSextets rest).
    cbv zeta. constructor; [| constructor; [apply land_255_lt |
                                constructor; [apply land_255_lt | apply IH; [simpl; lia | exact H4]]]].
    apply (shiftr_lt _ 16 8).
    apply lor_lt_pow2; [apply (shiftl_lt a 18 Ha) |].
    apply lor_lt_pow2; [apply (lt_pow2_mono _ 18 24); [lia | apply (shiftl_lt b 12 Hb)] |].
    apply lor_lt_pow2; [apply (lt_pow2_mono _ 12 24); [lia | apply (shiftl_lt c 6 Hc)] |].
    apply (lt_pow2_mono d 6 24); [lia | exact Hd].
Qed.

Lemma atob_bytes (b64 s : jsstring) :
  atob b64 = Ok s -> Forall (fun b => (b < 256)%N) s.
Proof.
  unfold atob. destruct (_ =? 1)%nat; [discriminate |].
  destruct (sextets _) as [vs |] eqn:E; [| discriminate].
  intros [= <-]. apply decodeSextets_lt. eapply sextets_lt. exact E.
Qed.

(** X6. atob yields code units below 256 only, so the conversion to a
    Uint8Array in b64ToUint8 is exact: the bytes are the code units of the
    decoded text, none is reduced modulo 256, and b64ToUint8 fails exactly
    when atob does. *)
Theorem b64ToUint8_exact (b64 : jsstring) :
  b64ToUint8 b64 = atob b64
  /\ forall bytes, b64ToUint8 b64 = Ok bytes -> Forall (fun b => (b < 256)%N) bytes.
Proof.
  assert (b64ToUint8 b64 = atob b64) as Heq.
  { unfold b64ToUint8. destruct (atob b64) as [s | e] eqn:E; [| reflexivity].
    simpl. f_equal. apply atob_bytes in E.
    induction E as [| b s Hb _ IH]; simpl; [reflexivity |].
    rewrite N.mod_small by exact Hb. rewrite IH. reflexivity. }
  split; [exact Heq |].
  intros bytes H. rewrite Heq in H. eapply atob_bytes. exact H.
Qed.

(** ** extractFillColor *)

Lemma hexRun_spec (n : nat) (s : jsstring) :
  hexRun n s = true -> length (take n s) = n /\ forallb isHexDigit (take n s) = true.
Proof.
  unfold hexRun. intros H. apply andb_true_iff in H as [H1 H2].
  apply Nat.eqb_eq in H1. auto.
Qed.

Lemma fillColorAt_shape (n : nat) (s c : jsstring) :
  fillColorAt n s = Some c ->
  exists h, (c = h \/ c = 35%N :: h) /\ length h = n /\ forallb isHexDigit h = true.
Proof.
  unfold fillColorAt. destruct (startsWith s (lit "fillColor=")); [| discriminate].
  set (r := drop 10 s). clearbody r.
  assert (forall x, (if hexRun n r then Some (take n r) else None) = Some x ->
                    exists h, (x = h \/ x = 35%N :: h) /\ length h = n
                              /\ forallb isHexDigit h = true) as Hplain.
  { intros x. destruct (hexRun n r) eqn:E; [| discriminate]. intros [= <-].
    apply hexRun_spec in E as [E1 E2]. exists (take n r). auto. }
  destruct r as [| a r']; [apply Hplain |].
  destruct (N.eqb_spec a 35) as [-> | Ha].
  - destruct (hexRun n r') eqn:E; [| apply Hplain].
    intros [= <-]. apply hexRun_spec in E as [E1 E2]. exists (take n r'). auto.
  - intros H. apply Hplain. rewrite <- H.
    destruct a as [| p]; [reflexivity |].
    do 6 (destruct p as [p | p |]; try reflexivity). congruence.
Qed.

Lemma fillColorMatch_shape (n : nat) (s c : jsstring) :
  fillColorMatch n s = Some c ->
  exists h, (c = h \/ c = 35%N :: h) /\ length h = n /\ forallb isHexDigit h = true.
Proof.
  induction s as [| d s IH]; simpl.
  - discriminate.
  - destruct (fillColorAt n (d :: s)) eqn:E; [| exact IH].
    intros [= <-]. eapply fillColorAt_shape; eauto.
Qed.

Lemma isHexDigit_not_sharp (c : N) : isHexDigit c = true -> c <> 35%N.
Proof. intros H ->. discriminate. Qed.

Lemma startsWith_sharp (h : jsstring) :
  forallb isHexDigit h = true -> startsWith h (lit "#") = false.
Proof.
  destruct h as [| c h]; [reflexivity |]. simpl forallb. intros H.
  apply andb_true_iff in H as [H _]. apply isHexDigit_not_sharp in H.
  change (lit "#") with [35%N]. rewrite startsWith_cons.
  destruct (N.eqb_spec 35 c); [congruence | reflexivity].
Qed.

Lemma forallb_double (h : jsstring) :
  forallb isHexDigit h = true -> forallb isHexDigit (flat_map (fun c => [c; c]) h) = true.
Proof.
  induction h as [| c h IH]; simpl; [reflexivity |].
  intros H. apply andb_true_iff in H as [Hc Hh]. rewrite Hc, IH by exact Hh. reflexivity.
Qed.

Lemma length_double (h : jsstring) :
  length (flat_map (fun c => [c; c]) h) = 2 * length h.
Proof. induction h as [| c h IH]; simpl; [reflexivity | rewrite IH; lia]. Qed.

Lemma namedColor_shape (style : jsstring) : isHexColor (namedColor style namedColors) = true.
Proof.
  unfold namedColors. simpl.
  repeat match goal with
         | |- context [if ?b then _ else _] => destruct b; [reflexivity |]
         end.
  reflexivity.
Qed.

(** Every branch of extractFillColor ends in a colour of six digits. *)
Lemma extractFillColor_hex (style : jsstring) :
  isHexColor (extractFillColor style) = true.
Proof.
  assert (forall h, length h = 6 -> forallb isHexDigit h = true ->
                    isHexColor (35%N :: h) = true) as Hcolor.
  { intros h Hlen Hhex. unfold isHexColor. rewrite Hlen, Hhex. reflexivity. }
  assert (forall h, length h = 3 -> forallb isHexDigit h = true ->
                    isHexColor (lit "#" ++ flat_map (fun c => [c; c]) h) = true) as Hshort.
  { intros h Hlen Hhex. apply Hcolor; [rewrite length_double, Hlen; reflexivity |].
    apply forallb_double, Hhex. }
  unfold extractFillColor.
  destruct (nonEmpty style); [| reflexivity]. cbn [negb].
  destruct (fillColorMatch 6 style) as [color |] eqn:E6.
  { apply fillColorMatch_shape in E6 as (h & [-> | ->] & Hlen & Hhex).
    - rewrite (startsWith_sharp h Hhex). apply Hcolor; assumption.
    - change (startsWith (35%N :: h) (lit "#")) with true. apply Hcolor; assumption. }
  destruct (fillColorMatch 3 style) as [color |] eqn:E3; [| apply namedColor_shape].
  apply fillColorMatch_shape in E3 as (h & [-> | ->] & Hlen & Hhex).
  - rewrite (startsWith_sharp h Hhex). apply Hshort; assumption.
  - change (startsWith (35%N :: h) (lit "#")) with true. apply Hshort; assumption.
Qed.

(** X7. Whatever the style, extractFillColor returns a colour of the form
    #RRGGBB: a '#' followed by exactly six hexadecimal digits. A three-digit
    colour is expanded, a colour without '#' gets one, and a style without a
    usable fill colour gives the default or a named colour of that form. *)
Theorem extractFillColor_shape (style : jsstring) :
  isHexColor (extractFillColor style) = true.
Proof. exact (extractFillColor_hex style). Qed.

Lemma includes_cons_false (c : N) (s p : jsstring) :
  includes (c :: s) p = false -> startsWith (c :: s) p = false /\ includes s p = false.
Proof. simpl. intros H. apply orb_false_iff in H. exact H. Qed.

(** No occurrence of 'fillColor=' starts in a text without one and runs
    into a following 'fillColor=': the word has one 'f' only. *)
Lemma fillColor_no_straddle (p x : jsstring) :
  p <> [] -> startsWith p (lit "fillColor=") = false ->
  startsWith (p ++ lit "fillColor=" ++ x) (lit "fillColor=") = false.
Proof.
  intros Hne Hp.
  destruct (Nat.le_gt_cases 10 (length p)) as [Hlen | Hlen].
  { rewrite startsWith_app_short by exact Hlen. exact Hp. }
  clear Hp.
  destruct p as [| c0 p]; [congruence |].
  do 9 (destruct p as [| ? p];
        [cbn [app lit map list_ascii_of_string N_of_ascii N_of_digits];
         rewrite ?startsWith_cons; cbn [N.eqb Pos.eqb andb];
         rewrite ?andb_false_r; reflexivity |]).
  simpl in Hlen. lia.
Qed.

Lemma fillColorMatch_skip (n : nat) (pre x : jsstring) :
  includes pre (lit "fillColor=") = false ->
  fillColorMatch n (pre ++ lit "fillColor=" ++ x) = fillColorMatch n (lit "fillColor=" ++ x).
Proof.
  induction pre as [| c pre IH]; [reflexivity |].
  intros H. apply includes_cons_false in H as [Hc Hpre].
  rewrite <- app_comm_cons.
  change (fillColorMatch n (c :: pre ++ lit "fillColor=" ++ x))
    with (match fillColorAt n (c :: pre ++ lit "fillColor=" ++ x) with
          | Some col => Some col
          | None => fillColorMatch n (pre ++ lit "fillColor=" ++ x)
          end).
  unfold fillColorAt at 1.
  rewrite (app_comm_cons pre _ c), fillColor_no_straddle by (congruence || exact Hc).
  apply IH, Hpre.
Qed.

Lemma hexRun_app (h post : jsstring) :
  forallb isHexDigit h = true -> hexRun (length h) (h ++ post) = true.
Proof.
  intros Hh. unfold hexRun. rewrite take_app_length, Nat.eqb_refl, Hh. reflexivity.
Qed.

Lemma fillColorAt_here (h post : jsstring) (sharp : bool) :
  h <> [] -> forallb isHexDigit h = true ->
  fillColorAt (length h)
    (lit "fillColor=" ++ (if sharp then lit "#" else []) ++ h ++ post)
  = Some ((if sharp then lit "#" else []) ++ h).
Proof.
  intros Hne Hh. unfold fillColorAt. rewrite startsWith_app.
  change (drop 10 (lit "fillColor=" ++ ?y)) with y.
  replace (drop 10 (lit "fillColor=" ++ (if sharp then lit "#" else []) ++ h ++ post))
    with ((if sharp then lit "#" else []) ++ h ++ post) by reflexivity.
  destruct sharp.
  - change (lit "#" ++ h ++ post) with (35%N :: h ++ post).
    cbv iota beta. rewrite (hexRun_app h post Hh), take_app_length. reflexivity.
  - change ([] ++ h ++ post) with (h ++ post). change ([] ++ h) with h.
    destruct h as [| c h']; [congruence |].
    assert (c <> 35%N) as Hc.
    { apply isHexDigit_not_sharp. simpl in Hh. apply andb_true_iff in Hh as [Hh _]. exact Hh. }
    transitivity (if hexRun (length (c :: h')) ((c :: h') ++ post)
                  then Some (take (length (c :: h')) ((c :: h') ++ post)) else None).
    + rewrite <- app_comm_cons.
      destruct c as [| q]; [reflexivity |].
      do 6 (destruct q as [q | q |]; try reflexivity). congruence.
    + rewrite (hexRun_app _ post Hh), take_app_length. reflexivity.
Qed.

(** X8. The first fill colour wins: for a style whose first 'fillColor='
    is followed by six hexadecimal digits, with or without a '#' before
    them, extractFillColor returns '#' and those six digits, whatever
    follows. *)
Theorem extractFillColor_six_digits (pre h post : jsstring) (sharp : bool) :
  includes pre (lit "fillColor=") = false ->
  length h = 6 -> forallb isHexDigit h = true ->
  extractFillColor (pre ++ lit "fillColor=" ++ (if sharp then lit "#" else []) ++ h ++ post)
  = lit "#" ++ h.
Proof.
  intros Hpre Hlen Hh.
  assert (h <> []) as Hne by (intros ->; discriminate).
  unfold extractFillColor.
  assert (nonEmpty (pre ++ lit "fillColor=" ++ (if sharp then lit "#" else []) ++ h ++ post)
          = true) as ->.
  { destruct pre; reflexivity. }
  cbn [negb]. rewrite (fillColorMatch_skip 6 pre _ Hpre).
  change (fillColorMatch 6 (lit "fillColor=" ++ ?y))
    with (match fillColorAt 6 (lit "fillColor=" ++ y) with
          | Some col => Some col
          | None => fillColorMatch 6 (drop 1 (lit "fillColor=" ++ y))
          end).
  rewrite <- Hlen at 1. rewrite (fillColorAt_here h post sharp Hne Hh).
  destruct sharp.
  - reflexivity.
  - change ([] ++ h) with h. rewrite (startsWith_sharp h Hh). reflexivity.
Qed.

Lemma extractFillColor_six_digits_witness :
  includes (lit "rounded=0;whiteSpace=wrap;") (lit "fillColor=") = false
  /\ extractFillColor (lit "rounded=0;whiteSpace=wrap;fillColor=#dae8fc;strokeColor=#6c8ebf;")
     = lit "#dae8fc".
Proof.
  split; [reflexivity |].
  exact (extractFillColor_six_digits (lit "rounded=0;whiteSpace=wrap;") (lit "dae8fc")
           (lit ";strokeColor=#6c8ebf;") true eq_refl eq_refl eq_refl).
Defined.

(** ** The range of the classifier *)

Lemma In_knownTypes (t : string) :
  In t ["start"; "end"; "decision"; "input"; "output"; "process"]%string ->
  In (lit t) knownTypes.
Proof. intros H. unfold knownTypes. apply in_map. exact H. Qed.

(** The final type is one of the six flowchart types: a content type is
    returned only after it has been compared with one of them. *)
Lemma determineNodeType_known (shapeType contentType : jsstring) (hasIncoming hasOutgoing : bool) :
  In (determineNodeType shapeType contentType hasIncoming hasOutgoing) knownTypes.
Proof.
  assert (forall a b : string,
            In a ["start"; "end"; "decision"; "input"; "output"; "process"]%string ->
            In b ["start"; "end"; "decision"; "input"; "output"; "process"]%string ->
            strEq contentType (lit a) || strEq contentType (lit b) = true ->
            In contentType knownTypes) as Hcontent.
  { intros a b Ha Hb H. apply orb_true_iff in H as [H | H]; apply strEq_true in H;
      rewrite H; apply In_knownTypes; assumption. }
  unfold determineNodeType.
  repeat match goal with
         | |- In (if ?b then _ else _) _ => destruct b eqn:?
         end;
    try (apply In_knownTypes; simpl; tauto);
    eapply Hcontent; try eassumption; simpl; tauto.
Qed.

Section ClassifierRange.

Variable toLowerCase : jsstring -> jsstring.

(** X9. Whatever the style, the text and the topology, the type the
    classifier assigns is one of start, end, decision, input, output and
    process: the content type 'unknown' and the shape names never reach the
    result. *)
Theorem classify_known (style value : jsstring) (hasIncoming hasOutgoing : bool) :
  In (classify toLowerCase style value hasIncoming hasOutgoing) knownTypes.
Proof. apply determineNodeType_known. Qed.

End ClassifierRange.

(** ** What extractFlowchartElements returns *)

Section FirstPassFacts.

Variable number : Type.
Variable toLowerCase : jsstring -> jsstring.
Variable inflateRaw : list N -> Exc jsstring.
Variable parseFromString : jsstring -> Exc XMLDocument.
Variable parseFloat : jsstring -> number.

Local Abbreviation Node := (FlowchartNode number).
Local Abbreviation Entry := (jsstring * NodeData number)%type.

Lemma mapAlter_keys (f : NodeData number -> NodeData number) (k : jsstring) (m : list Entry) :
  map fst (mapAlter number f k m) = map fst m.
Proof.
  induction m as [| [k' v] m IH]; simpl; [reflexivity |].
  destruct (strEq k' k); simpl; [reflexivity | rewrite IH; reflexivity].
Qed.

Lemma mapAlter_ok (f : NodeData number -> NodeData number) (k : jsstring) (m : list Entry) :
  (forall d, nd_node number (f d) = nd_node number d) ->
  Forall entryOk m -> Forall entryOk (mapAlter number f k m).
Proof.
  intros Hf Hm. induction Hm as [| [k' v] m Hv Hm IH]; simpl; [constructor |].
  destruct (strEq k' k); constructor; try assumption.
  unfold entryOk in Hv |- *. simpl in Hv |- *. rewrite Hf. exact Hv.
Qed.

Lemma mapSet_keys (k : jsstring) (v : NodeData number) (m : list Entry) :
  map fst (mapSet number k v m) = map fst m
  \/ (~ In k (map fst m) /\ map fst (mapSet number k v m) = map fst m ++ [k]).
Proof.
  induction m as [| [k' v'] m IH]; simpl.
  - right. split; [intros [] | reflexivity].
  - destruct (strEq k' k) eqn:E; simpl.
    + apply strEq_true in E as ->. left. reflexivity.
    + apply strEq_false in E. destruct IH as [-> | [Hk ->]]; [left; reflexivity | right].
      split; [| reflexivity]. intros [H | H]; [congruence | exact (Hk H)].
Qed.

Lemma mapSet_NoDup (k : jsstring) (v : NodeData number) (m : list Entry) :
  List.NoDup (map fst m) -> List.NoDup (map fst (mapSet number k v m)).
Proof.
  intros Hm. destruct (mapSet_keys k v m) as [-> | [Hk ->]]; [exact Hm |].
  apply NoDup_ListNoDup, NoDup_app. apply NoDup_ListNoDup in Hm.
  split; [exact Hm |]. split; [| apply NoDup_singleton].
  intros x Hx Hx'. apply list_elem_of_singleton in Hx' as ->.
  apply Hk, list_elem_of_In, Hx.
Qed.

Lemma mapSet_ok (k : jsstring) (v : NodeData number) (m : list Entry) :
  entryOk (k, v) -> Forall entryOk m -> Forall entryOk (mapSet number k v m).
Proof.
  intros Hv Hm. induction Hm as [| [k' v'] m Hv' Hm IH]; simpl; [constructor; [exact Hv | constructor] |].
  destruct (strEq k' k); constructor; assumption.
Qed.

Lemma orUndefined_nonempty (o : option jsstring) : orUndefined o <> Some [].
Proof. destruct o as [[| c s] |]; discriminate. Qed.

Lemma firstPassCell_inv (st st' : list Entry * list FlowchartEdge) (cell : Element) :
  firstPassCell number parseFromString parseFloat st cell = Ok st' ->
  firstPassInv st -> firstPassInv st'.
Proof.
  unfold firstPassCell. destruct st as [nodeMap es].
  destruct (getAttribute cell (lit "id")) as [id |]; [| intros [= <-]; auto].
  destruct (nonEmpty id) eqn:Hid; simpl; [| intros [= <-]; auto].
  apply nonEmpty_true in Hid.
  destruct (cellValue parseFromString cell) as [value |]; simpl; [| discriminate].
  intros Hst (Hdup & Hmap & Hes). simpl in Hdup, Hmap, Hes.
  destruct (bool_decide _).
  { injection Hst as <-. split; [| split]; simpl.
    - apply mapSet_NoDup, Hdup.
    - apply mapSet_ok; [| exact Hmap].
      unfold entryOk. simpl. repeat split; try assumption; try apply orUndefined_nonempty.
      eexists. split; [reflexivity | apply extractFillColor_hex].
    - exact Hes. }
  destruct (bool_decide _); [| injection Hst as <-; split; [| split]; assumption].
  assert (Forall extractedEdge
            (es ++ [mkEdge id value (orUndefined (getAttribute cell (lit "style"))) true
                      (orUndefined (getAttribute cell (lit "parent")))
                      (orUndefined (getAttribute cell (lit "source")))
                      (orUndefined (getAttribute cell (lit "target")))])) as Hes'.
  { apply Forall_app. split; [exact Hes |]. constructor; [| constructor].
    unfold extractedEdge. simpl. repeat split; try assumption; apply orUndefined_nonempty. }
  destruct (orUndefined (getAttribute cell (lit "source"))) as [src |];
    [| injection Hst as <-; split; [| split]; assumption].
  destruct (orUndefined (getAttribute cell (lit "target"))) as [tgt |];
    [| injection Hst as <-; split; [| split]; assumption].
  injection Hst as <-. split; [| split]; simpl; [| | exact Hes'].
  - destruct (mapGet number tgt _), (mapGet number src nodeMap);
      rewrite ?mapAlter_keys; exact Hdup.
  - destruct (mapGet number tgt _), (mapGet number src nodeMap);
      repeat apply mapAlter_ok; try exact Hmap; intros d; reflexivity.
Qed.

Lemma firstPass_inv (cells : list Element) (st st' : list Entry * list FlowchartEdge) :
  forEachExc (firstPassCell number parseFromString parseFloat) cells st = Ok st' ->
  firstPassInv st -> firstPassInv st'.
Proof.
  revert st. induction cells as [| cell cells IH]; simpl; intros st.
  - intros [= <-]. auto.
  - destruct (firstPassCell number parseFromString parseFloat st cell) as [st1 |] eqn:E;
      simpl; [| discriminate].
    intros H Hst. apply (IH st1 H). eapply firstPassCell_inv; eauto.
Qed.

(** The second pass keeps the entries that pass the three filters, in the
    order of nodeMap, and writes the type into each. *)
Lemma secondPass_nodes (entries : list Entry) (st : list Node * gmap jsstring nat) :
  fst (fold_left (secondPassEntry number toLowerCase) entries st)
  = fst st
    ++ map (fun e => withType number (nd_node number (snd e))
                       (assignedType number toLowerCase e))
         (List.filter (fun e => kept (nd_node number (snd e))) entries).
Proof.
  revert st. induction entries as [| e entries IH]; intros st; simpl.
  - rewrite app_nil_r. reflexivity.
  - rewrite IH. destruct (kept (nd_node number (snd e))) eqn:Hk.
    + rewrite secondPassEntry_kept by exact Hk. simpl. rewrite <- app_assoc. reflexivity.
    + rewrite secondPassEntry_skipped by exact Hk. reflexivity.
Qed.

(** The shape of a result of the try block. *)
Lemma extractBody_result (doc : XMLDocument) (root : Element) (r : Elements number) :
  extractBody number toLowerCase inflateRaw parseFromString parseFloat doc root = Ok (Some r) ->
  exists cells nodeMap,
    forEachExc (firstPassCell number parseFromString parseFloat) cells ([], [])
    = Ok (nodeMap, edges r)
    /\ nodes r
       = map (fun e => withType number (nd_node number (snd e))
                         (assignedType number toLowerCase e))
           (List.filter (fun e => kept (nd_node number (snd e))) nodeMap).
Proof.
  unfold extractBody.
  destruct (unwrapMxfile _ _ _ _) as [[w0 |] |]; simpl; try discriminate.
  destruct (if _ =? 0 then _ else _) as [w |]; simpl; [| discriminate].
  destruct (forEachExc _ _ ([], [])) as [[nodeMap es] |] eqn:E; simpl; [| discriminate].
  pose proof (secondPass_nodes nodeMap ([], initialTypeStats)) as H.
  destruct (fold_left _ nodeMap _) as [ns stats]. simpl in H.
  intros [= <-]. exists (docElementsByTagName w (lit "mxCell")), nodeMap.
  split; [exact E | exact H].
Qed.

Lemma kept_withType (node : Node) (t : jsstring) :
  kept (withType number node t) = kept node.
Proof. reflexivity. Qed.

Lemma extractBody_inv (doc : XMLDocument) (root : Element) (r : Elements number) :
  extractBody number toLowerCase inflateRaw parseFromString parseFloat doc root = Ok (Some r) ->
  List.NoDup (map node_id (nodes r))
  /\ Forall extractedNode (nodes r)
  /\ Forall extractedEdge (edges r).
Proof.
  intros H. apply extractBody_result in H as (cells & nodeMap & Hfirst & ->).
  apply firstPass_inv in Hfirst as (Hdup & Hmap & Hes).
  2:{ split; [constructor | split; constructor]. }
  simpl in Hdup, Hmap, Hes.
  split; [| split; [| exact Hes]].
  - rewrite map_map. simpl.
    induction nodeMap as [| [k d] m IH]; simpl; [constructor |].
    apply List.Forall_cons_iff in Hmap as [Hk Hm]. apply List.NoDup_cons_iff in Hdup as [Hnk Hdup].
    specialize (IH Hdup Hm).
    destruct (kept (nd_node number d)); [| exact IH].
    simpl. constructor; [| exact IH].
    destruct Hk as (Hid & _). simpl in Hid. rewrite Hid.
    intros Hin. apply Hnk. apply in_map_iff in Hin as ([k' d'] & Hk' & Hin).
    apply filter_In in Hin as [Hin _].
    apply (proj1 (List.Forall_forall _ _) Hm) in Hin as Hok. destruct Hok as (Hid' & _).
    simpl in Hid, Hid', Hk' |- *. apply in_map_iff. exists (k', d'). split; [simpl; congruence | exact Hin].
  - apply List.Forall_forall. intros n Hn.
    apply in_map_iff in Hn as ([k d] & <- & Hin). apply filter_In in Hin as [Hin Hkept].
    apply (proj1 (List.Forall_forall _ _) Hmap) in Hin as Hok.
    destruct Hok as (Hid & Hne & Hv & _ & Hc & Hs & Hp). simpl in Hid, Hne, Hv, Hc, Hs, Hp, Hkept.
    unfold extractedNode. simpl. repeat split; try assumption.
    + rewrite Hid. exact Hne.
    + eexists. split; [reflexivity | apply determineNodeType_known].
Qed.

(** X10. The nodes and edges of every extraction result are well formed:
    the nodes have pairwise distinct, non-empty ids, are vertices, carry one
    of the six types and a colour of the form #RRGGBB, and pass the three
    filters of the second pass; the edges have a non-empty id; and no style,
    parent, source or target is the empty string (an empty attribute is
    undefined in the result). *)
Theorem extraction_well_formed (xmlDoc : option XMLDocument) (r : Elements number) :
  extractFlowchartElements number toLowerCase inflateRaw parseFromString parseFloat xmlDoc
  = Some r ->
  List.NoDup (map node_id (nodes r))
  /\ Forall extractedNode (nodes r)
  /\ Forall extractedEdge (edges r).
Proof.
  unfold extractFlowchartElements.
  destruct xmlDoc as [doc |]; [| discriminate].
  destruct (documentElement doc) as [root |]; [| discriminate].
  destruct (extractBody _ _ _ _ _ doc root) as [[r' |] |] eqn:E; try discriminate.
  intros [= <-]. eapply extractBody_inv; eauto.
Qed.

End FirstPassFacts.

(** ** typeStats *)

Section TypeStats.

Variable number : Type.
Variable toLowerCase : jsstring -> jsstring.

Local Abbreviation Node := (FlowchartNode number).
Local Abbreviation Entry := (jsstring * NodeData number)%type.

Lemma typeCount_app (t : jsstring) (l1 l2 : list Node) :
  typeCount t (l1 ++ l2) = typeCount t l1 + typeCount t l2.
Proof. unfold typeCount. rewrite List.filter_app, length_app. reflexivity. Qed.

Lemma typeCount_one (t t0 : jsstring) (node : Node) :
  typeCount t [withType number node t0] = if decide (t0 = t) then 1 else 0.
Proof.
  unfold typeCount. simpl. destruct (decide (t0 = t)) as [-> | Hne].
  - rewrite bool_decide_eq_true_2 by reflexivity. reflexivity.
  - rewrite bool_decide_eq_false_2 by congruence. reflexivity.
Qed.

Lemma unknown_not_known : ~ In (lit "unknown") knownTypes.
Proof. unfold knownTypes. simpl. intuition discriminate. Qed.

Lemma secondPass_stats (entries : list Entry) (st : list Node * gmap jsstring nat) :
  (forall t, In t knownTypes -> snd st !! t = Some (typeCount t (fst st))) ->
  let r := fold_left (secondPassEntry number toLowerCase) entries st in
  snd r !! lit "unknown" = snd st !! lit "unknown"
  /\ forall t, In t knownTypes -> snd r !! t = Some (typeCount t (fst r)).
Proof.
  revert st. induction entries as [| e entries IH]; intros st Hst; simpl; [auto |].
  destruct (kept (nd_node number (snd e))) eqn:Hk.
  2:{ rewrite secondPassEntry_skipped by exact Hk. apply IH, Hst. }
  assert (secondPassEntry number toLowerCase st e
          = (fst st ++ [withType number (nd_node number (snd e))
                          (assignedType number toLowerCase e)],
             bump (assignedType number toLowerCase e) (snd st))) as Hstep.
  { assert (In (classify toLowerCase
                    (orElse (node_style (nd_node number (snd e))) [])
                    (orElse (node_value (nd_node number (snd e))) [])
                    (0 <? size (nd_incoming number (snd e)))
                    (0 <? size (nd_outgoing number (snd e)))) knownTypes) as Hknown
      by apply determineNodeType_known.
    apply Hst in Hknown.
    unfold kept in Hk. apply andb_true_iff in Hk as [Hk H3].
    apply andb_true_iff in Hk as [H1 H2]. apply negb_true_iff in H1, H2, H3.
    unfold secondPassEntry. destruct st as [ns stats]. rewrite H1, H2, H3.
    simpl in Hknown |- *. unfold assignedType, classify.
    rewrite bool_decide_eq_true_2; [reflexivity |].
    unfold classify in Hknown. rewrite Hknown. eauto. }
  rewrite Hstep.
  set (t0 := assignedType number toLowerCase e) in Hstep |- *.
  assert (In t0 knownTypes) as Ht0 by apply determineNodeType_known.
  destruct (IH (fst st ++ [withType number (nd_node number (snd e)) t0], bump t0 (snd st)))
    as [Hu Hc].
  { intros t Ht. simpl. rewrite typeCount_app, typeCount_one. unfold bump.
    destruct (decide (t0 = t)) as [-> | Hne].
    - rewrite lookup_insert_eq, (Hst t Ht). simpl. f_equal. lia.
    - rewrite lookup_insert_ne by exact Hne. rewrite (Hst t Ht). f_equal. lia. }
  split; [| exact Hc].
  rewrite Hu. simpl. unfold bump. apply lookup_insert_ne.
  intros ->. exact (unknown_not_known Ht0).
Qed.

(** X11. The statistics of the second pass count the returned nodes by
    type, and the counter for 'unknown' stays at zero: the type written into
    a node is always one of the six keys of typeStats. *)
Theorem typeStats_counts (nodeMap : list Entry) :
  let r := fold_left (secondPassEntry number toLowerCase) nodeMap ([], initialTypeStats) in
  snd r !! lit "unknown" = Some 0
  /\ forall t, In t knownTypes -> snd r !! t = Some (typeCount t (fst r)).
Proof.
  apply (secondPass_stats nodeMap ([], initialTypeStats)).
  intros t Ht. unfold knownTypes in Ht. simpl in Ht.
  repeat destruct Ht as [<- | Ht]; try reflexivity. destruct Ht.
Qed.

End TypeStats.

(** ** The connectivity and dead-end checks *)

Lemma connectEdge_fold (edges : list FlowchartEdge) (ids : gset jsstring) (id : jsstring) :
  id ∈ fold_left connectEdge edges ids <-> id ∈ ids \/ isEndpoint edges id.
Proof.
  revert ids. induction edges as [| e edges IH]; intros ids; simpl.
  - split; [auto |]. intros [H | (_ & e & [] & _)]. exact H.
  - rewrite IH. unfold connectEdge, isEndpoint. split.
    + intros [H | (Hne & e' & He' & Hends)].
      * destruct (sourceId e) as [[| c s] |] eqn:Hs, (targetId e) as [[| d t] |] eqn:Ht;
          simpl in H; set_unfold in H;
          repeat destruct H as [H | H]; subst; auto;
          right; (split; [discriminate |]); exists e; (split; [left; reflexivity |]); auto.
      * right. split; [exact Hne |]. exists e'. split; [right; exact He' | exact Hends].
    + intros [H | (Hne & e' & [Heq | He'] & Hends)].
      * left. destruct (sourceId e) as [[| c s] |], (targetId e) as [[| d t] |];
          simpl; set_solver.
      * left. subst e'. destruct Hends as [Hs | Ht].
        -- rewrite Hs. destruct id as [| c s]; [congruence |].
           destruct (targetId e) as [[| d t] |]; simpl; set_solver.
        -- rewrite Ht. destruct id as [| c s]; [congruence |].
           destruct (sourceId e) as [[| d t] |]; simpl; set_solver.
      * right. split; [exact Hne |]. exists e'. auto.
Qed.

Lemma isEndpoint_connected (edges : list FlowchartEdge) (id : jsstring) :
  id ∈ fold_left connectEdge edges ∅ <-> isEndpoint edges id.
Proof. rewrite connectEdge_fold. set_solver. Qed.

Section AnalyzerMore.

Variable number : Type.
Variable toUpperCase : jsstring -> jsstring.

Local Abbreviation Node := (FlowchartNode number).
Local Abbreviation Analysis := (FlowchartAnalysis number).

Lemma checkDeadEnd_exact (oc : gmap jsstring Tally) (l : list Node) (a a' : Analysis) :
  forEachExc (checkDeadEnd number toUpperCase oc) l a = Ok a' ->
  a' = pushIssues number a (deadEndIssues number toUpperCase oc l).
Proof.
  revert a. induction l as [| n l IH]; intros a; simpl.
  - intros [= <-]. rewrite pushIssues_nil. reflexivity.
  - unfold checkDeadEnd at 1, capitalizedType.
    destruct (outgoingOf number oc n) as [[| k] |] eqn:E.
    + destruct (node_type n) as [ty |]; simpl; [| discriminate].
      intros H. apply IH in H as ->.
      rewrite pushIssue_eq, pushIssues_app. reflexivity.
    + simpl. intros H. apply IH in H as ->.
      destruct (node_type n); reflexivity.
    + simpl. intros H. apply IH in H as ->.
      destruct (node_type n); reflexivity.
Qed.

(** The issue list of a returned analysis, group by group. *)
Lemma analysis_issues_exact (el : Elements number) (a : Analysis) :
  analyzeFlowchart number toUpperCase (Some el) = Ok (Some a) ->
  exists cyc,
    detectCycles number (nodes el) (edges el) = Ok cyc
    /\ issues a =
         terminalIssues (length (List.filter (hasType number "start") (nodes el)))
                        (length (List.filter (hasType number "end") (nodes el)))
         ++ disconnectedIssues number (nodes el) (edges el)
         ++ cyc
         ++ branchIssues number (fold_left countOutgoing (edges el) ∅)
              (List.filter (hasType number "decision") (nodes el))
         ++ deadEndIssues number toUpperCase (fold_left countOutgoing (edges el) ∅)
              (processNodes a ++ ioNodes a ++ decisionNodes a).
Proof.
  intros Ha.
  pose proof (analysis_shape number toUpperCase el a Ha) as (_ & _ & Hb & _).
  revert Ha. unfold analyzeFlowchart.
  destruct (nodes el) as [| n0 ns] eqn:Hnodes; [discriminate |].
  rewrite <- Hnodes.
  replace (length (nodes el) =? 0) with false by (rewrite Hnodes; reflexivity).
  set (a0 := mkAnalysis _ _ _ _ _ _ _ _).
  destruct (categorize_fold number (nodes el) a0) as (Ht & Hc & Hi & Hb0).
  set (a1 := fold_left (categorize number) (nodes el) a0) in Ht, Hc, Hi, Hb0 |- *.
  rewrite checkTerminals_push, checkConnected_push.
  destruct (detectCycles number (nodes el) (edges el)) as [cyc |] eqn:Hcyc; simpl; [| discriminate].
  rewrite checkDecision_fold. rewrite !pushIssues_app.
  set (a5 := pushIssues number a1 _).
  destruct (forEachExc _ _ a5) as [a6 |] eqn:Hdead; simpl; [| discriminate].
  intros [= <-].
  apply checkDeadEnd_exact in Hdead. rewrite Hdead. subst a5. rewrite pushIssues_app.
  exists cyc. split; [reflexivity |].
  simpl. rewrite Hi. simpl.
  pose proof (Hb0 StartBucket) as Hs. pose proof (Hb0 EndBucket) as He.
  pose proof (Hb0 DecisionBucket) as Hd. simpl in Hs, He, Hd.
  rewrite Hs, He, Hd.
  rewrite (List.filter_ext _ _ (bucketFor_start number)).
  rewrite (List.filter_ext _ _ (bucketFor_end number)).
  rewrite (List.filter_ext _ _ (bucketFor_decision number)).
  rewrite <- !app_assoc. reflexivity.
Qed.

End AnalyzerMore.

(** ** searchCycles, both ways *)

Section ReportedCycle.

Variable graph : gmap jsstring (list jsstring).

(** A call that returns false leaves the recursion stack as it found it. *)
Lemma search_false_stack (fuel : nat) :
  forall u st st', search fuel graph u st = Some (false, st') ->
                   recursionStack st' = recursionStack st.
Proof.
  induction fuel as [| fuel IH]; intros u st st'; [discriminate |].
  simpl.
  destruct (decide (u ∈ recursionStack st)) as [Hstack | Hstack]; [discriminate |].
  destruct (decide (u ∈ visited st)) as [Hvis | Hvis]; [intros [= <-]; reflexivity |].
  set (st1 := mkDfs (visited st ∪ {[u]}) (recursionStack st ∪ {[u]})).
  assert (forall ns s s', searchNeighbors (search fuel graph) ns s = Some (false, s') ->
                          recursionStack s' = recursionStack s) as Hloop.
  { intros ns. induction ns as [| v ns IHns]; intros s s'; simpl; [intros [= <-]; reflexivity |].
    destruct (search fuel graph v s) as [[[] s1] |] eqn:E; try discriminate.
    intros H. rewrite (IHns s1 s' H). eapply IH. exact E. }
  destruct (searchNeighbors _ _ st1) as [[[] st2] |] eqn:E; try discriminate.
  intros [= <-]. simpl. rewrite (Hloop _ _ _ E). simpl. apply set_eq. set_solver.
Qed.

(** A call that returns true has met a node of the recursion stack: when
    the nodes of the stack all lead to the node of the call, a cycle can be
    reached from it. *)
Lemma search_true_reachable (fuel : nat) :
  forall u st st', search fuel graph u st = Some (true, st') ->
                   (forall s, s ∈ recursionStack st -> tc (arc graph) s u) ->
                   exists c, rtc (arc graph) u c /\ tc (arc graph) c c.
Proof.
  induction fuel as [| fuel IH]; intros u st st'; [discriminate |].
  simpl.
  destruct (decide (u ∈ recursionStack st)) as [Hstack | Hstack].
  { intros _ Hreach. exists u. split; [apply rtc_refl | apply Hreach, Hstack]. }
  destruct (decide (u ∈ visited st)) as [Hvis | Hvis]; [discriminate |].
  set (st1 := mkDfs (visited st ∪ {[u]}) (recursionStack st ∪ {[u]})).
  assert (forall ns s s', searchNeighbors (search fuel graph) ns s = Some (true, s') ->
                          (forall x v, x ∈ recursionStack s -> v ∈ ns -> tc (arc graph) x v) ->
                          exists v c, v ∈ ns /\ rtc (arc graph) v c /\ tc (arc graph) c c)
    as Hloop.
  { intros ns. induction ns as [| v ns IHns]; intros s s'; simpl; [discriminate |].
    destruct (search fuel graph v s) as [[[] s1] |] eqn:E; try discriminate.
    - intros _ Hreach. destruct (IH v s s1 E) as (c & Hc1 & Hc2).
      { intros x Hx. apply Hreach; [exact Hx | set_solver]. }
      exists v, c. split; [set_solver | auto].
    - intros H Hreach. apply search_false_stack in E.
      destruct (IHns s1 s' H) as (w & c & Hw & Hc).
      { intros x w Hx Hw. apply Hreach; [congruence | set_solver]. }
      exists w, c. split; [set_solver | exact Hc]. }
  destruct (searchNeighbors _ _ st1) as [[[] st2] |] eqn:E; try discriminate.
  intros _ Hreach.
  destruct (Hloop _ _ _ E) as (v & c & Hv & Hvc & Hcc).
  { intros x v Hx Hv. simpl in Hx.
    assert (arc graph u v) as Huv by exact Hv.
    apply elem_of_union in Hx as [Hx | Hx].
    - eapply tc_r; [apply Hreach; exact Hx | exact Huv].
    - apply elem_of_singleton in Hx as ->. apply tc_once. exact Huv. }
  exists c. split; [| exact Hcc]. eapply rtc_l; [| exact Hvc]. exact Hv.
Qed.

Lemma searchFrom_reported (number : Type) (fuel : nat) (nodes : list (FlowchartNode number)) :
  forall st, recursionStack st = ∅ ->
  searchFrom fuel graph nodes st = Some [loopIssue] ->
  exists n c, n ∈ nodes /\ rtc (arc graph) (node_id n) c /\ tc (arc graph) c c.
Proof.
  induction nodes as [| n nodes IH]; intros st Hstack; simpl; [discriminate |].
  destruct (decide (node_id n ∈ visited st)) as [Hvis | Hvis].
  { intros H. destruct (IH st Hstack H) as (m & c & Hm & Hc). exists m, c. split; [set_solver | exact Hc]. }
  destruct (search fuel graph (node_id n) st) as [[[] st'] |] eqn:E; try discriminate.
  - intros _. destruct (search_true_reachable _ _ _ _ E) as (c & Hc).
    { intros s Hs. rewrite Hstack in Hs. set_solver. }
    exists n, c. split; [set_solver | exact Hc].
  - intros H. apply search_false_stack in E. rewrite Hstack in E.
    destruct (IH st' E H) as (m & c & Hm & Hc). exists m, c. split; [set_solver | exact Hc].
Qed.

End ReportedCycle.

Lemma searchCycles_reported (number : Type) (nodes : list (FlowchartNode number))
    (edges : list FlowchartEdge) :
  searchCycles nodes edges = Some [loopIssue] -> reachableCycle nodes edges.
Proof.
  unfold searchCycles. intros H.
  apply searchFrom_reported in H as (n & c & Hn & Hreach & Hcyc); [| reflexivity].
  exists n, c. split; [apply list_elem_of_In, Hn |]. split.
  - eapply rtc_mono; [| exact Hreach]. intros a b. apply arc_adjacency.
  - eapply tc_mono; [| exact Hcyc]. intros a b. apply arc_adjacency.
Qed.

Lemma searchCycles_cases (number : Type) (nodes : list (FlowchartNode number))
    (edges : list FlowchartEdge) :
  (searchCycles nodes edges = Some [loopIssue] /\ reachableCycle nodes edges)
  \/ (searchCycles nodes edges = Some [] /\ ~ reachableCycle nodes edges).
Proof.
  destruct (searchCycles_spec number nodes edges) as [[H _] | [H Hnone]].
  - left. split; [exact H | apply searchCycles_reported, H].
  - right. split; [exact H |]. intros (n & c & Hn & Hreach & Hcyc).
    apply list_elem_of_In in Hn. exact (Hnone n c Hn Hreach Hcyc).
Qed.

Lemma detectCycles_reported (number : Type) (nodes : list (FlowchartNode number))
    (edges : list FlowchartEdge) :
  detectCycles number nodes edges = Ok [loopIssue] -> reachableCycle nodes edges.
Proof.
  intros H. apply searchCycles_reported.
  pose proof (detectCycles_search number nodes edges) as Hs. rewrite H in Hs. exact Hs.
Qed.

(** The three ways detectCycles can end. *)
Lemma detectCycles_cases (number : Type) (nodes : list (FlowchartNode number))
    (edges : list FlowchartEdge) :
  (detectCycles number nodes edges = Ok [loopIssue] /\ reachableCycle nodes edges)
  \/ (detectCycles number nodes edges = Ok []
      /\ ~ reachableCycle nodes edges
      /\ forall n, In n nodes -> isObjectPrototypeName (node_id n) = false)
  \/ (detectCycles number nodes edges = Err TypeError
      /\ prototypeFree nodes edges = false).
Proof.
  pose proof (detectCycles_search number nodes edges) as Hs.
  destruct (detectCycles number nodes edges) as [r | e] eqn:E.
  - destruct (searchCycles_cases number nodes edges) as [[H Hc] | [H Hc]];
      rewrite H in Hs; injection Hs as <-; [left; auto |].
    right. left. split; [reflexivity |]. split; [exact Hc |].
    apply detectCycles_clean with (edges := edges), E.
  - right. right. subst e. split; [reflexivity |].
    destruct (prototypeFree nodes edges) eqn:Hfree; [| reflexivity].
    destruct (detectCycles_total number nodes edges Hfree) as [r Hr]. congruence.
Qed.

(** X12. detectCycles ends in one of three ways. It returns the loop
    message alone, and then a cycle of complete edges can be reached from a
    node of the list; or it returns no message, and then no such cycle can be
    reached and no node id is the name of a property of Object.prototype; or
    it throws a TypeError, which happens only when a node id or an end of a
    complete edge is such a name ('constructor', 'toString', '__proto__',
    ...): [graph] is an object literal, and such a key reads a function of
    Object.prototype where an array is expected. Without such names the loop
    is reported exactly when a cycle can be reached. *)
Theorem detectCycles_exact (number : Type) (nodes : list (FlowchartNode number))
    (edges : list FlowchartEdge) :
  (detectCycles number nodes edges = Ok [loopIssue]
   \/ detectCycles number nodes edges = Ok []
   \/ detectCycles number nodes edges = Err TypeError)
  /\ (detectCycles number nodes edges = Ok [loopIssue] -> reachableCycle nodes edges)
  /\ (detectCycles number nodes edges = Ok [] ->
      ~ reachableCycle nodes edges
      /\ forall n, In n nodes -> isObjectPrototypeName (node_id n) = false)
  /\ (detectCycles number nodes edges = Err TypeError -> prototypeFree nodes edges = false)
  /\ (prototypeFree nodes edges = true ->
      (detectCycles number nodes edges = Ok [loopIssue] <-> reachableCycle nodes edges)
      /\ (detectCycles number nodes edges = Ok [] <-> ~ reachableCycle nodes edges)).
Proof.
  destruct (detectCycles_cases number nodes edges) as [[H Hc] | [(H & Hc & Hids) | [H Hfree]]];
    rewrite H.
  - split; [auto |]. split; [auto |]. split; [discriminate |]. split; [discriminate |].
    intros _. split; split; try tauto; discriminate.
  - split; [auto |]. split; [discriminate |]. split; [auto |]. split; [discriminate |].
    intros _. split; split; try tauto; discriminate.
  - split; [auto |]. split; [discriminate |]. split; [discriminate |]. split; [auto |].
    intros Hfree'. congruence.
Qed.

(** ** The issues of the connectivity and dead-end checks *)

Section AnalyzerChecks.

Variable number : Type.
Variable toUpperCase : jsstring -> jsstring.

Local Abbreviation Node := (FlowchartNode number).
Local Abbreviation Analysis := (FlowchartAnalysis number).

Lemma deadEndCandidate_bucket (n : Node) :
  deadEndCandidate number n = true
  <-> bucketFor n = ProcessBucket \/ bucketFor n = IoBucket \/ bucketFor n = DecisionBucket.
Proof.
  unfold deadEndCandidate, bucketFor.
  destruct (hasType number "start" n); simpl; [intuition discriminate |].
  destruct (hasType number "end" n); simpl; [intuition discriminate |].
  destruct (hasType number "decision" n); [tauto |].
  destruct (hasType number "input" n || hasType number "output" n); tauto.
Qed.

(** The candidates of the dead-end check are the nodes that are neither
    start nor end nodes. *)
Lemma candidates_spec (el : Elements number) (a : Analysis) (n : Node) :
  analyzeFlowchart number toUpperCase (Some el) = Ok (Some a) ->
  In n (processNodes a ++ ioNodes a ++ decisionNodes a)
  <-> In n (nodes el) /\ deadEndCandidate number n = true.
Proof.
  intros Ha. apply analysis_shape in Ha as (_ & _ & Hb & _).
  rewrite !in_app_iff, deadEndCandidate_bucket.
  change (processNodes a) with (bucket a ProcessBucket).
  change (ioNodes a) with (bucket a IoBucket).
  change (decisionNodes a) with (bucket a DecisionBucket).
  rewrite !Hb, !filter_In, !bool_decide_eq_true. tauto.
Qed.

(** A returned analysis has met no candidate without type and without
    outgoing edge. *)
Lemma checkDeadEnd_typed (oc : gmap jsstring Tally) (l : list Node) (a a' : Analysis) :
  forEachExc (checkDeadEnd number toUpperCase oc) l a = Ok a' ->
  forall n, In n l -> outgoingOf number oc n = Count 0 -> typed number n.
Proof.
  revert a. induction l as [| m l IH]; intros a; simpl; [intros _ n [] |].
  unfold checkDeadEnd at 1, capitalizedType.
  destruct (outgoingOf number oc m) as [[| k] |] eqn:E.
  - destruct (node_type m) as [ty |] eqn:Hty; simpl; [| discriminate].
    intros H n [<- | Hn] Hz; [unfold typed; rewrite Hty; eauto | eapply IH; eauto].
  - simpl. intros H n [<- | Hn] Hz; [congruence | eapply IH; eauto].
  - simpl. intros H n [<- | Hn] Hz; [congruence | eapply IH; eauto].
Qed.

Lemma analysis_candidates_typed (el : Elements number) (a : Analysis) (n : Node) :
  analyzeFlowchart number toUpperCase (Some el) = Ok (Some a) ->
  In n (nodes el) -> deadEndCandidate number n = true ->
  isObjectPrototypeName (node_id n) = false ->
  outgoingCount (edges el) n = 0 -> typed number n.
Proof.
  intros Ha Hn Hc Hplain Hz.
  assert (In n (processNodes a ++ ioNodes a ++ decisionNodes a)) as Hin
    by (apply (candidates_spec el a n Ha); auto).
  revert Ha Hin. unfold analyzeFlowchart.
  destruct (length (nodes el) =? 0); [discriminate |].
  destruct (detectCycles number (nodes el) (edges el)) as [cyc |]; simpl; [| discriminate].
  match goal with
  | |- context [forEachExc ?f ?l ?a0] =>
      destruct (forEachExc f l a0) as [a6 |] eqn:Hdead; simpl; [| discriminate]
  end.
  intros [= <-] Hin.
  pose proof (checkDeadEnd_exact _ _ _ _ _ _ Hdead) as Ha6.
  eapply checkDeadEnd_typed; [exact Hdead | | apply outgoingOf_Count; auto].
  rewrite Ha6 in Hin. exact Hin.
Qed.

Lemma deadEndIssues_kind (oc : gmap jsstring Tally) (l : list Node) :
  Forall (fun s => issueKind s = DeadEndIssue) (deadEndIssues number toUpperCase oc l).
Proof.
  unfold deadEndIssues. induction l as [| n l IH]; simpl; [constructor |].
  apply Forall_app. split; [| exact IH].
  destruct (node_type n); [| constructor].
  destruct (outgoingOf number oc n) as [[| k] |]; repeat constructor.
  apply issueKind_deadEnd.
Qed.

Lemma In_disconnectedIssues (nodes : list Node) (edges : list FlowchartEdge) (x : jsstring) :
  In x (disconnectedIssues number nodes edges)
  <-> 1 < length nodes
      /\ exists n, In n nodes /\ ~ isEndpoint edges (node_id n)
                   /\ x = disconnectedIssue number n.
Proof.
  unfold disconnectedIssues. destruct (1 <? length nodes) eqn:E.
  - apply Nat.ltb_lt in E. rewrite in_flat_map. split.
    + intros (n & Hn & Hx). split; [exact E |]. exists n. split; [exact Hn |].
      destruct (decide _) as [Hc | Hc]; [destruct Hx |].
      rewrite isEndpoint_connected in Hc. destruct Hx as [<- | []].
      split; [exact Hc | reflexivity].
    + intros (_ & n & Hn & Hc & ->). exists n. split; [exact Hn |].
      rewrite <- isEndpoint_connected in Hc.
      destruct (decide _); [contradiction | left; reflexivity].
  - apply Nat.ltb_ge in E. split; [intros [] | intros [H _]; lia].
Qed.

Lemma In_deadEndIssues (oc : gmap jsstring Tally) (l : list Node) (x : jsstring) :
  In x (deadEndIssues number toUpperCase oc l)
  <-> exists n ty, In n l /\ node_type n = Some ty /\ outgoingOf number oc n = Count 0
                   /\ x = deadEndIssue number (capitalized toUpperCase ty) n.
Proof.
  unfold deadEndIssues. rewrite in_flat_map. split.
  - intros (n & Hn & Hx). destruct (node_type n) as [ty |] eqn:Hty; [| destruct Hx].
    destruct (outgoingOf number oc n) as [[| k] |] eqn:E; [| destruct Hx | destruct Hx].
    destruct Hx as [<- | []]. exists n, ty. auto.
  - intros (n & ty & Hn & Hty & Hz & ->). exists n. split; [exact Hn |].
    rewrite Hty, Hz. left. reflexivity.
Qed.

Lemma kind_of_group (k : IssueKind) (l : list jsstring) (x : jsstring) :
  Forall (fun s => issueKind s = k) l -> In x l -> issueKind x = k.
Proof. intros Hl Hx. eapply List.Forall_forall in Hl; eauto. Qed.

(** X13. The connectivity check. With two nodes or more, a node whose id is
    neither the source nor the target of any edge is reported as
    disconnected; every disconnected issue of the list reports such a node,
    and a flowchart with a single node has none. An edge with one end only
    still connects the node at that end. *)
Theorem disconnected_check (el : Elements number) (a : Analysis) :
  analyzeFlowchart number toUpperCase (Some el) = Ok (Some a) ->
  (forall n, In n (nodes el) -> 1 < length (nodes el) ->
             ~ isEndpoint (edges el) (node_id n) ->
             In (disconnectedIssue number n) (issues a))
  /\ (forall x, In x (issues a) -> issueKind x = DisconnectedIssue ->
                1 < length (nodes el)
                /\ exists n, In n (nodes el) /\ ~ isEndpoint (edges el) (node_id n)
                             /\ x = disconnectedIssue number n).
Proof.
  intros Ha. destruct (analysis_issues_exact number toUpperCase el a Ha) as (cyc & Hcyc & ->).
  split.
  - intros n Hn Hlen Hc. apply in_or_app. right. apply in_or_app. left.
    apply In_disconnectedIssues. split; [exact Hlen |]. exists n. auto.
  - intros x Hx Hkind. rewrite !in_app_iff in Hx.
    destruct Hx as [Hx | [Hx | [Hx | [Hx | Hx]]]].
    + apply (kind_of_group _ _ _ (terminalIssues_kind _ _)) in Hx. congruence.
    + apply In_disconnectedIssues. exact Hx.
    + apply (kind_of_group _ _ _ (cycleIssues_kind number _ _ _ Hcyc)) in Hx. congruence.
    + apply (kind_of_group _ _ _ (branchIssues_kind number _ _)) in Hx. congruence.
    + apply (kind_of_group _ _ _ (deadEndIssues_kind _ _)) in Hx. congruence.
Qed.

(** X14. The dead-end check. Every node that is neither a start nor an end
    node, has no outgoing edge and whose id is not the name of a property of
    Object.prototype is reported with its capitalised type; every dead-end
    issue of the list reports such a node. Under a name of Object.prototype
    ('toString', 'constructor', ...) the count read from
    [outgoingConnections] is not a number, so a node with such an id is
    never reported as a dead end. *)
Theorem dead_end_check (el : Elements number) (a : Analysis) :
  analyzeFlowchart number toUpperCase (Some el) = Ok (Some a) ->
  (forall n, In n (nodes el) -> deadEndCandidate number n = true ->
             isObjectPrototypeName (node_id n) = false ->
             outgoingCount (edges el) n = 0 ->
             exists ty, node_type n = Some ty
                        /\ In (deadEndIssue number (capitalized toUpperCase ty) n) (issues a))
  /\ (forall x, In x (issues a) -> issueKind x = DeadEndIssue ->
                exists n ty, In n (nodes el) /\ deadEndCandidate number n = true
                             /\ isObjectPrototypeName (node_id n) = false
                             /\ outgoingCount (edges el) n = 0
                             /\ node_type n = Some ty
                             /\ x = deadEndIssue number (capitalized toUpperCase ty) n).
Proof.
  intros Ha. destruct (analysis_issues_exact number toUpperCase el a Ha) as (cyc & Hcyc & Hi).
  split.
  - intros n Hn Hc Hplain Hz.
    destruct (analysis_candidates_typed el a n Ha Hn Hc Hplain Hz) as [ty Hty].
    exists ty. split; [exact Hty |]. rewrite Hi.
    do 4 (apply in_or_app; right). apply In_deadEndIssues.
    exists n, ty. split; [apply (candidates_spec el a n Ha); auto |].
    split; [exact Hty |]. split; [apply outgoingOf_Count; auto | reflexivity].
  - intros x Hx Hkind. rewrite Hi, !in_app_iff in Hx.
    destruct Hx as [Hx | [Hx | [Hx | [Hx | Hx]]]].
    + apply (kind_of_group _ _ _ (terminalIssues_kind _ _)) in Hx. congruence.
    + apply (kind_of_group _ _ _ (disconnectedIssues_kind number _ _)) in Hx. congruence.
    + apply (kind_of_group _ _ _ (cycleIssues_kind number _ _ _ Hcyc)) in Hx. congruence.
    + apply (kind_of_group _ _ _ (branchIssues_kind number _ _)) in Hx. congruence.
    + apply In_deadEndIssues in Hx as (n & ty & Hn & Hty & Hz & ->).
      apply (candidates_spec el a n Ha) in Hn as [Hn Hc].
      apply outgoingOf_Count in Hz as [Hplain Hz]. exists n, ty. auto 10.
Qed.

End AnalyzerChecks.

(** ** An empty issue list *)

Lemma flat_map_nil {A B : Type} (f : A -> list B) (l : list A) :
  flat_map f l = [] <-> forall x, In x l -> f x = [].
Proof.
  induction l as [| a l IH]; simpl; [tauto |].
  split.
  - intros H. apply app_eq_nil in H as [Ha Hl]. intros x [<- | Hx]; [exact Ha |].
    apply IH; assumption.
  - intros H. rewrite (H a) by auto. simpl. apply IH. auto.
Qed.

Lemma terminalIssues_nil (starts ends : nat) :
  terminalIssues starts ends = [] <-> starts = 1 /\ 0 < ends.
Proof.
  unfold terminalIssues.
  destruct starts as [| [| k]], ends as [| e]; simpl; split;
    try discriminate; try (intros [? ?]; lia); intros _; split; lia.
Qed.

Section CleanBill.

Variable number : Type.
Variable toUpperCase : jsstring -> jsstring.

Local Abbreviation Node := (FlowchartNode number).
Local Abbreviation Analysis := (FlowchartAnalysis number).

Lemma disconnectedIssues_nil (nodes : list Node) (edges : list FlowchartEdge) :
  disconnectedIssues number nodes edges = []
  <-> (1 < length nodes -> forall n, In n nodes -> isEndpoint edges (node_id n)).
Proof.
  unfold disconnectedIssues. destruct (1 <? length nodes) eqn:E.
  - apply Nat.ltb_lt in E. rewrite flat_map_nil. split.
    + intros H _ n Hn. specialize (H n Hn).
      destruct (decide _) as [Hc | Hc]; [| discriminate].
      apply isEndpoint_connected, Hc.
    + intros H n Hn. specialize (H E n Hn). apply isEndpoint_connected in H.
      destruct (decide _); [reflexivity | contradiction].
  - apply Nat.ltb_ge in E. split; [intros _ H; lia | reflexivity].
Qed.

Lemma branchIssues_nil (edges : list FlowchartEdge) (l : list Node) :
  (forall n, In n l -> isObjectPrototypeName (node_id n) = false) ->
  branchIssues number (fold_left countOutgoing edges ∅) l = []
  <-> forall n, In n l -> 2 <= outgoingCount edges n.
Proof.
  intros Hplain. unfold branchIssues. rewrite flat_map_nil.
  split; intros H n Hn; specialize (H n Hn).
  - rewrite outgoingOf_spec in H by (apply Hplain, Hn).
    destruct (outgoingCount edges n <? 2) eqn:E; [discriminate |].
    apply Nat.ltb_ge in E. exact E.
  - rewrite outgoingOf_spec by (apply Hplain, Hn).
    apply Nat.ltb_ge in H. rewrite H. reflexivity.
Qed.

(** X15. An empty issue list certifies the structure, and only it: a
    returned analysis has no issue exactly when the flowchart has one start
    node and at least one end node, every node is an end of some edge (for
    two nodes or more), no cycle of complete edges can be reached from a
    node, every decision node has two outgoing edges or more, and every node
    other than a start or end node has an outgoing edge. *)
Theorem no_issues_iff (el : Elements number) (a : Analysis) :
  analyzeFlowchart number toUpperCase (Some el) = Ok (Some a) ->
  issues a = [] <-> wellStructured el.
Proof.
  intros Ha. destruct (analysis_issues_exact number toUpperCase el a Ha) as (cyc & Hcyc & Hi).
  rewrite Hi. unfold wellStructured.
  rewrite !app_nil, terminalIssues_nil, disconnectedIssues_nil.
  assert (cyc = [] <-> ~ reachableCycle (nodes el) (edges el)) as Hloop.
  { destruct (detectCycles_cases number (nodes el) (edges el))
      as [[H Hc] | [(H & Hc & _) | [H _]]];
      rewrite H in Hcyc; try discriminate; injection Hcyc as <-;
      split; try tauto; discriminate. }
  assert (cyc = [] ->
          forall n, In n (nodes el) -> isObjectPrototypeName (node_id n) = false) as Hplain.
  { intros ->. apply detectCycles_clean with (edges := edges el). exact Hcyc. }
  assert (cyc = [] ->
          (branchIssues number (fold_left countOutgoing (edges el) ∅)
             (List.filter (hasType number "decision") (nodes el)) = []
           <-> forall n, In n (nodes el) -> hasType number "decision" n = true ->
                         2 <= outgoingCount (edges el) n)) as Hbranch.
  { intros Hc. rewrite branchIssues_nil.
    - split.
      + intros H n Hn Hd. apply H, filter_In. auto.
      + intros H n Hn. apply filter_In in Hn as [Hn Hd]. auto.
    - intros n Hn. apply filter_In in Hn as [Hn _]. apply Hplain; auto. }
  assert (cyc = [] ->
          (deadEndIssues number toUpperCase (fold_left countOutgoing (edges el) ∅)
             (processNodes a ++ ioNodes a ++ decisionNodes a) = []
           <-> forall n, In n (nodes el) -> deadEndCandidate number n = true ->
                         0 < outgoingCount (edges el) n)) as Hdead.
  { intros Hc. unfold deadEndIssues. rewrite flat_map_nil. split.
    - intros H n Hn Hcand.
      destruct (Nat.eq_dec (outgoingCount (edges el) n) 0) as [Hz | Hz]; [| lia].
      destruct (analysis_candidates_typed number toUpperCase el a n Ha Hn Hcand
                  (Hplain Hc n Hn) Hz) as [ty Hty].
      specialize (H n (proj2 (candidates_spec number toUpperCase el a n Ha) (conj Hn Hcand))).
      rewrite Hty, outgoingOf_spec, Hz in H by (apply Hplain; auto). discriminate.
    - intros H n Hn. apply (candidates_spec number toUpperCase el a n Ha) in Hn as [Hn Hcand].
      specialize (H n Hn Hcand). rewrite outgoingOf_spec by (apply Hplain; auto).
      destruct (node_type n); [| reflexivity].
      destruct (outgoingCount (edges el) n); [lia | reflexivity]. }
  split.
  - intros (Ht & Hd & Hc & Hb & He).
    specialize (Hbranch Hc). specialize (Hdead Hc). tauto.
  - intros (Hs & Hends & Hd & Hc & Hb & He). apply Hloop in Hc.
    specialize (Hbranch Hc). specialize (Hdead Hc). tauto.
Qed.

(** X16. analyzeFlowchart returns on an extraction result in which no node
    id and no end of a complete edge is the name of a property of
    Object.prototype: the dead-end check reads the type of a node, and
    extraction gives every node one. The analysis is then null exactly when
    the extraction is null or has no node. *)
Theorem pipeline_total (toLowerCase : jsstring -> jsstring)
    (inflateRaw : list N -> Exc jsstring) (parseFromString : jsstring -> Exc XMLDocument)
    (parseFloat : jsstring -> number) (xmlDoc : option XMLDocument) :
  let elements :=
    extractFlowchartElements number toLowerCase inflateRaw parseFromString parseFloat xmlDoc in
  (forall el, elements = Some el -> prototypeFree (nodes el) (edges el) = true) ->
  exists r, analyzeFlowchart number toUpperCase elements = Ok r
            /\ (r = None <-> elements = None \/ exists el, elements = Some el /\ nodes el = []).
Proof.
  intros elements Hfree.
  destruct elements as [el |] eqn:E.
  2:{ exists None. split; [reflexivity |]. split; auto. }
  destruct (nodes el) as [| n ns] eqn:Hn.
  { exists None. split; [unfold analyzeFlowchart; rewrite Hn; reflexivity |].
    split; [| reflexivity]. intros _. right. exists el. auto. }
  destruct (analysis_total number toUpperCase el) as [a Ha].
  - rewrite Hn. discriminate.
  - eapply extracted_nodes_typed. exact E.
  - apply Hfree. reflexivity.
  - exists (Some a). split; [exact Ha |]. split; [discriminate |].
    intros [H | (el' & [= <-] & H)]; congruence.
Qed.

(** X25. A node whose id is the name of a property of Object.prototype
    makes analyzeFlowchart throw a TypeError, unless a loop is found before
    the search reaches it: whenever some node has such an id and no cycle of
    complete edges can be reached from a node, no analysis is returned. *)
Theorem prototype_name_throws (el : Elements number) (n : Node) :
  In n (nodes el) -> isObjectPrototypeName (node_id n) = true ->
  ~ reachableCycle (nodes el) (edges el) ->
  analyzeFlowchart number toUpperCase (Some el) = Err TypeError.
Proof.
  intros Hn Hproto Hacyclic. unfold analyzeFlowchart.
  replace (length (nodes el) =? 0) with false
    by (destruct (nodes el); [destruct Hn | reflexivity]).
  destruct (detectCycles_cases number (nodes el) (edges el))
    as [[_ Hc] | [(_ & _ & Hids) | [H _]]].
  - contradiction.
  - rewrite (Hids n Hn) in Hproto. discriminate.
  - rewrite H. reflexivity.
Qed.

End CleanBill.

(** ** parseDrawioXml *)

Section ParserFacts.

Variable inflateRaw : list N -> Exc jsstring.
Variable parseFromString : jsstring -> Exc XMLDocument.

Lemma firstParsed_cons (candidate : jsstring) (rest : list jsstring) :
  firstParsed parseFromString (candidate :: rest)
  = match cleanParse parseFromString candidate with
    | Some doc => Some doc
    | None => firstParsed parseFromString rest
    end.
Proof.
  unfold cleanParse. simpl.
  destruct (parseFromString candidate) as [doc |]; [| reflexivity].
  destruct (hasParserError doc); reflexivity.
Qed.

Lemma firstParsed_Some (attempts : list jsstring) (doc : XMLDocument) :
  firstParsed parseFromString attempts = Some doc ->
  exists candidate, In candidate attempts /\ cleanParse parseFromString candidate = Some doc.
Proof.
  induction attempts as [| c rest IH]; [discriminate |].
  rewrite firstParsed_cons.
  destruct (cleanParse parseFromString c) as [d |] eqn:E.
  - intros [= <-]. exists c. split; [left; reflexivity | exact E].
  - intros H. destruct (IH H) as (c' & Hc' & Hd). exists c'. split; [right; exact Hc' | exact Hd].
Qed.

Lemma firstParsed_None (attempts : list jsstring) :
  firstParsed parseFromString attempts = None
  <-> forall candidate, In candidate attempts -> cleanParse parseFromString candidate = None.
Proof.
  induction attempts as [| c rest IH];
    [simpl; split; [intros _ x [] | reflexivity] |].
  rewrite firstParsed_cons. destruct (cleanParse parseFromString c) as [d |] eqn:E.
  - split; [discriminate |]. intros H. rewrite <- E. apply H. left. reflexivity.
  - rewrite IH. split.
    + intros H x [<- | Hx]; auto.
    + intros H x Hx. apply H. right. exact Hx.
Qed.

Lemma cleanParse_Some (text : jsstring) (doc : XMLDocument) :
  cleanParse parseFromString text = Some doc
  <-> parseFromString text = Ok doc /\ hasParserError doc = false.
Proof.
  unfold cleanParse. destruct (parseFromString text) as [d | e].
  - destruct (hasParserError d) eqn:E; split.
    + discriminate.
    + intros [[= <-] H]. congruence.
    + intros [= <-]. auto.
    + intros [[= <-] _]. reflexivity.
  - split; [discriminate | intros [H _]; discriminate].
Qed.

Lemma parseDrawioXml_attempts (raw decoded : jsstring) :
  trim raw <> [] -> decodeDiagramContent inflateRaw raw = Ok decoded ->
  parseDrawioXml inflateRaw parseFromString raw
  = Ok (firstParsed parseFromString
          (raw :: decodeHtml raw :: (if nonEmpty decoded then [decoded] else []))).
Proof.
  intros Hblank Hdec. unfold parseDrawioXml.
  assert (raw <> []) as Hraw by (intros ->; apply Hblank; reflexivity).
  apply nonEmpty_true in Hblank, Hraw. rewrite Hblank, Hraw, Hdec. reflexivity.
Qed.

(** X17. parseDrawioXml never throws. For a blank text it returns null
    without consulting the parser. Otherwise it tries the text, its
    HTML-decoded form and, if not empty, its decoded diagram content, in this
    order, and returns the first document the parser produces without a
    parsererror element; it returns null exactly when every attempt fails. *)
Theorem parseDrawioXml_first_clean (raw : jsstring) :
  exists decoded r,
    decodeDiagramContent inflateRaw raw = Ok decoded
    /\ parseDrawioXml inflateRaw parseFromString raw = Ok r
    /\ let attempts := raw :: decodeHtml raw :: (if nonEmpty decoded then [decoded] else []) in
       (trim raw = [] -> r = None)
       /\ (trim raw <> [] ->
           (forall doc, r = Some doc ->
              exists before candidate after,
                attempts = before ++ candidate :: after
                /\ parseFromString candidate = Ok doc /\ hasParserError doc = false
                /\ forall c, In c before -> cleanParse parseFromString c = None)
           /\ (r = None <->
               forall c, In c attempts -> cleanParse parseFromString c = None)).
Proof.
  destruct (decode_cases inflateRaw raw) as (decoded & Hdec & _).
  exists decoded.
  destruct (decide (trim raw = [])) as [Hblank | Hblank].
  { exists None. split; [exact Hdec |]. split; [| split; [reflexivity | contradiction]].
    unfold parseDrawioXml. apply nonEmpty_false in Hblank. rewrite Hblank.
    rewrite orb_true_r. reflexivity. }
  eexists. split; [exact Hdec |].
  split; [apply (parseDrawioXml_attempts raw decoded Hblank Hdec) |].
  split; [contradiction |]. intros _.
  split.
  - generalize (raw :: decodeHtml raw :: (if nonEmpty decoded then [decoded] else [])).
    intros l doc.
    induction l as [| c rest IH]; [discriminate |].
    rewrite firstParsed_cons. destruct (cleanParse parseFromString c) as [d |] eqn:E.
    + intros [= <-]. apply cleanParse_Some in E as [E1 E2].
      exists [], c, rest. split; [reflexivity |]. split; [exact E1 |]. split; [exact E2 |].
      intros x [].
    + intros H. destruct (IH H) as (before & c' & after & -> & H1 & H2 & H3).
      exists (c :: before), c', after. split; [reflexivity |]. split; [exact H1 |].
      split; [exact H2 |]. intros x [<- | Hx]; auto.
  - apply firstParsed_None.
Qed.

(** X18. For XML text without an ampersand the three attempts coincide:
    the text is passed through by decodeDiagramContent and left unchanged by
    decodeHtml, so parseDrawioXml returns exactly the verdict of the parser
    on the text itself. *)
Theorem parseDrawioXml_plain (raw : jsstring) :
  startsWith (trim raw) (lit "<") = true -> ~ In 38%N raw ->
  parseDrawioXml inflateRaw parseFromString raw = Ok (cleanParse parseFromString raw).
Proof.
  intros Hlt Hamp.
  assert (trim raw <> []) as Hblank.
  { intros H. rewrite H in Hlt. discriminate. }
  assert (decodeDiagramContent inflateRaw raw = Ok raw) as Hdec.
  { unfold decodeDiagramContent. rewrite (trimmed_lt_nonEmpty raw Hlt). simpl. rewrite Hlt.
    reflexivity. }
  rewrite (parseDrawioXml_attempts raw raw Hblank Hdec).
  rewrite (trimmed_lt_nonEmpty raw Hlt), (decodeHtml_absent raw Hamp).
  rewrite !firstParsed_cons.
  destruct (cleanParse parseFromString raw); reflexivity.
Qed.

End ParserFacts.

(** ** getBasicDiagramInfo and the extractor *)

Section CellCount.

Variable number : Type.
Variable toLowerCase : jsstring -> jsstring.
Variable inflateRaw : list N -> Exc jsstring.
Variable parseFromString : jsstring -> Exc XMLDocument.
Variable parseFloat : jsstring -> number.

Local Abbreviation Node := (FlowchartNode number).
Local Abbreviation Entry := (jsstring * NodeData number)%type.

Lemma mapSet_length (k : jsstring) (v : NodeData number) (m : list Entry) :
  length (mapSet number k v m) <= S (length m).
Proof.
  induction m as [| [k' v'] m IH]; simpl; [lia |].
  destruct (strEq k' k); simpl; lia.
Qed.

Lemma mapAlter_length (f : NodeData number -> NodeData number) (k : jsstring) (m : list Entry) :
  length (mapAlter number f k m) = length m.
Proof.
  induction m as [| [k' v'] m IH]; simpl; [reflexivity |].
  destruct (strEq k' k); simpl; lia.
Qed.

Lemma firstPassCell_count (st st' : list Entry * list FlowchartEdge) (cell : Element) :
  firstPassCell number parseFromString parseFloat st cell = Ok st' ->
  length (fst st') + length (snd st') <= S (length (fst st) + length (snd st)).
Proof.
  unfold firstPassCell. destruct st as [nodeMap es].
  destruct (getAttribute cell (lit "id")) as [id |]; [| intros [= <-]; simpl; lia].
  destruct (negb (nonEmpty id)); [intros [= <-]; simpl; lia |].
  destruct (cellValue parseFromString cell) as [value |]; simpl; [| discriminate].
  destruct (bool_decide _).
  { intros [= <-]. simpl. pose proof (mapSet_length id
      (mkNodeData number
         (mkNode id value (orUndefined (getAttribute cell (lit "style"))) None true
            (orUndefined (getAttribute cell (lit "parent")))
            (Some (extractFillColor (orElse (orUndefined (getAttribute cell (lit "style"))) [])))
            (cellGeometry number parseFloat cell)) ∅ ∅) nodeMap). lia. }
  destruct (bool_decide _); [| intros [= <-]; simpl; lia].
  destruct (orUndefined (getAttribute cell (lit "source"))) as [src |];
    [| intros [= <-]; simpl; rewrite length_app; simpl; lia].
  destruct (orUndefined (getAttribute cell (lit "target"))) as [tgt |];
    [| intros [= <-]; simpl; rewrite length_app; simpl; lia].
  intros [= <-]. simpl. rewrite length_app. simpl.
  destruct (mapGet number tgt _), (mapGet number src nodeMap);
    rewrite ?mapAlter_length; lia.
Qed.

Lemma firstPass_count (cells : list Element) (st st' : list Entry * list FlowchartEdge) :
  forEachExc (firstPassCell number parseFromString parseFloat) cells st = Ok st' ->
  length (fst st') + length (snd st') <= length cells + (length (fst st) + length (snd st)).
Proof.
  revert st. induction cells as [| cell cells IH]; simpl; intros st.
  - intros [= <-]. lia.
  - destruct (firstPassCell number parseFromString parseFloat st cell) as [st1 |] eqn:E;
      simpl; [| discriminate].
    intros H. apply IH in H. apply firstPassCell_count in E. lia.
Qed.

(** The document itself is walked when its root is not an mxfile and it
    holds a cell. *)
Lemma extractBody_direct (doc : XMLDocument) (root : Element) (r : Elements number) :
  tagName root <> lit "mxfile" ->
  docElementsByTagName doc (lit "mxCell") <> [] ->
  extractBody number toLowerCase inflateRaw parseFromString parseFloat doc root = Ok (Some r) ->
  exists nodeMap,
    forEachExc (firstPassCell number parseFromString parseFloat)
      (docElementsByTagName doc (lit "mxCell")) ([], [])
    = Ok (nodeMap, edges r)
    /\ nodes r
       = map (fun e => withType number (nd_node number (snd e))
                         (assignedType number toLowerCase e))
           (List.filter (fun e => kept (nd_node number (snd e))) nodeMap).
Proof.
  intros Htag Hcells. unfold extractBody, unwrapMxfile.
  apply strEq_false in Htag. rewrite Htag. simpl.
  destruct (docElementsByTagName doc (lit "mxCell")) as [| c cells] eqn:E; [congruence |].
  simpl. rewrite E.
  destruct (forEachExc _ (c :: cells) ([], [])) as [[nodeMap es] |] eqn:Hfirst; simpl;
    [| discriminate].
  pose proof (secondPass_nodes number toLowerCase nodeMap ([], initialTypeStats)) as H.
  destruct (fold_left _ nodeMap _) as [ns stats]. simpl in H.
  intros [= <-]. exists nodeMap. split; [exact Hfirst | exact H].
Qed.

Lemma docElementsByTagName_root (doc : XMLDocument) (root : Element) (tag : jsstring) :
  documentElement doc = Some root -> tagName root <> tag ->
  docElementsByTagName doc tag = elementsByTagName root tag.
Proof.
  intros Hroot Htag. unfold docElementsByTagName, elementsByTagName, withTag.
  rewrite Hroot. simpl. rewrite filter_cons_False by exact Htag. reflexivity.
Qed.

(** X19. What getBasicDiagramInfo reports bounds what is extracted:
    whenever extraction returns a result, getBasicDiagramInfo returns one
    too; and for a document whose root is neither an mxfile nor an mxCell and
    that holds a cell, the nodes and edges extracted are together no more
    than the cell count reported. *)
Theorem extraction_bounded_by_cells (xmlDoc : option XMLDocument) (r : Elements number) :
  extractFlowchartElements number toLowerCase inflateRaw parseFromString parseFloat xmlDoc
  = Some r ->
  exists info,
    getBasicDiagramInfo xmlDoc = Some info
    /\ (rootTagName info <> lit "mxfile" -> rootTagName info <> lit "mxCell" ->
        0 < cellCount info ->
        length (nodes r) + length (edges r) <= cellCount info).
Proof.
  unfold extractFlowchartElements, getBasicDiagramInfo.
  destruct xmlDoc as [doc |]; [| discriminate].
  destruct (documentElement doc) as [root |] eqn:Hroot; [| discriminate].
  destruct (extractBody _ _ _ _ _ doc root) as [[r' |] |] eqn:E; try discriminate.
  intros [= <-]. eexists. split; [reflexivity |]. simpl.
  intros Hfile Hcell Hcount.
  rewrite <- (docElementsByTagName_root doc root _ Hroot Hcell) in Hcount |- *.
  apply extractBody_direct in E as (nodeMap & Hfirst & ->); [| exact Hfile |].
  2:{ intros H. rewrite H in Hcount. simpl in Hcount. lia. }
  apply firstPass_count in Hfirst. simpl in Hfirst.
  rewrite length_map.
  pose proof (List.filter_length_le (fun e => kept (nd_node number (snd e))) nodeMap). lia.
Qed.

End CellCount.

(** ** extractXmlFromSvg *)

Section SvgFacts.

Variable toLowerCase : jsstring -> jsstring.
Variable inflate : list N -> Exc jsstring.
Variable parseFromString : jsstring -> Exc XMLDocument.
Variable parseSvg : jsstring -> Exc XMLDocument.

Lemma extractXmlFromSvgBody_content (svgContent : jsstring) :
  extractXmlFromSvgBody toLowerCase inflate parseFromString parseSvg svgContent
  = (svgDoc <- parseSvg svgContent ;;
     match svgContentOf toLowerCase svgDoc with
     | Some content =>
         tempDoc <- parseFromString content ;;
         if negb (hasParserError tempDoc) then Ok (Some content)
         else
           xml <- tryCatch (decompressContent inflate parseFromString content) (Ok content) ;;
           Ok (Some xml)
     | None => Ok None
     end).
Proof.
  unfold extractXmlFromSvgBody, svgContentOf, hasAttribute.
  destruct (parseSvg svgContent) as [svgDoc |]; [| reflexivity]. simpl.
  destruct (documentElement svgDoc) as [rootSvg |]; [| reflexivity].
  destruct (strEq _ _); [| reflexivity]. simpl.
  destruct (getAttribute rootSvg (lit "content")) as [content |]; [| reflexivity].
  destruct (nonEmpty content); reflexivity.
Qed.

(** X20. extractXmlFromSvg returns null exactly when the SVG parser throws,
    when the parsed document has no svg root with a non-empty content
    attribute, or when the XML parser throws on the content; otherwise it
    returns a string: the content itself when it parses without a
    parsererror, and else the decompressed content or, when decompression
    fails, the content again. *)
Theorem extractXmlFromSvg_null_cases (svgContent : jsstring) :
  (extractXmlFromSvg toLowerCase inflate parseFromString parseSvg svgContent = None
   <-> (exists e, parseSvg svgContent = Err e)
       \/ exists svgDoc, parseSvg svgContent = Ok svgDoc
            /\ (svgContentOf toLowerCase svgDoc = None
                \/ exists content e, svgContentOf toLowerCase svgDoc = Some content
                                     /\ parseFromString content = Err e))
  /\ (forall svgDoc content tempDoc,
        parseSvg svgContent = Ok svgDoc ->
        svgContentOf toLowerCase svgDoc = Some content ->
        parseFromString content = Ok tempDoc ->
        extractXmlFromSvg toLowerCase inflate parseFromString parseSvg svgContent
        = Some (if hasParserError tempDoc
                then match decompressContent inflate parseFromString content with
                     | Ok xml => xml
                     | Err _ => content
                     end
                else content)).
Proof.
  unfold extractXmlFromSvg. rewrite extractXmlFromSvgBody_content.
  split.
  - destruct (parseSvg svgContent) as [svgDoc | e]; simpl.
    2:{ split; [eauto |]. reflexivity. }
    destruct (svgContentOf toLowerCase svgDoc) as [content |] eqn:Hc.
    2:{ split; [| reflexivity]. intros _. right. exists svgDoc. auto. }
    destruct (parseFromString content) as [tempDoc | e] eqn:Hp; simpl.
    + split.
      * destruct (hasParserError tempDoc); simpl; [| discriminate].
        destruct (decompressContent _ _ _); discriminate.
      * intros [[e He] | (d & [= <-] & [H | (c & e & H & He)])]; try congruence.
    + split; [| reflexivity]. intros _. right. exists svgDoc. split; [reflexivity |].
      right. exists content, e. auto.
  - intros svgDoc content tempDoc -> Hc Hp. simpl. rewrite Hc, Hp. simpl.
    destruct (hasParserError tempDoc); simpl; [| reflexivity].
    destruct (decompressContent _ _ _); reflexivity.
Qed.

(** X21. Content that cannot be base64 is returned as it is: when the
    content attribute holds a code unit outside the base64 alphabet other
    than white space, '=' and '%' (as any XML text does, with its '<'), and the
    XML parser does not throw on it, extractXmlFromSvg returns the content
    unchanged, whether or not it parses cleanly and whatever the inflater
    does. *)
Theorem extractXmlFromSvg_keeps_xml (svgContent content : jsstring) (svgDoc tempDoc : XMLDocument)
    (c : N) :
  parseSvg svgContent = Ok svgDoc ->
  svgContentOf toLowerCase svgDoc = Some content ->
  parseFromString content = Ok tempDoc ->
  In c content -> notBase64 c = true ->
  extractXmlFromSvg toLowerCase inflate parseFromString parseSvg svgContent = Some content.
Proof.
  intros Hs Hc Hp Hin Hnb.
  unfold extractXmlFromSvg. rewrite extractXmlFromSvgBody_content, Hs. simpl.
  rewrite Hc, Hp. simpl.
  destruct (hasParserError tempDoc); simpl; [| reflexivity].
  unfold decompressContent, inflateContent. rewrite (atob_invalid c content Hin Hnb).
  reflexivity.
Qed.

End SvgFacts.

(** ** Topology flags and the order of the cells *)

Lemma forEachExc_app {A St : Type} (f : St -> A -> Exc St) (l1 l2 : list A) (s : St) :
  forEachExc f (l1 ++ l2) s = (s' <- forEachExc f l1 s ;; forEachExc f l2 s').
Proof.
  revert s. induction l1 as [| x l1 IH]; intros s; simpl; [reflexivity |].
  destruct (f s x) as [s1 |]; simpl; [apply IH | reflexivity].
Qed.

Lemma size_union_singleton (X : gset jsstring) (x : jsstring) :
  (0 <? size (X ∪ {[x]})) = true.
Proof.
  apply Nat.ltb_lt.
  destruct (size (X ∪ {[x]})) eqn:E; [| lia].
  apply size_empty_iff in E. set_solver.
Qed.

Section Topology.

Variable number : Type.
Variable toLowerCase : jsstring -> jsstring.
Variable inflateRaw : list N -> Exc jsstring.
Variable parseFromString : jsstring -> Exc XMLDocument.
Variable parseFloat : jsstring -> number.

Local Abbreviation Node := (FlowchartNode number).
Local Abbreviation Entry := (jsstring * NodeData number)%type.

Lemma mapGet_mapSet_eq (k : jsstring) (v : NodeData number) (m : list Entry) :
  mapGet number k (mapSet number k v m) = Some v.
Proof.
  induction m as [| [k' v'] m IH]; simpl; [rewrite strEq_refl; reflexivity |].
  destruct (strEq k' k) eqn:E; simpl; [rewrite strEq_refl; reflexivity |].
  rewrite E. exact IH.
Qed.

Lemma mapGet_mapSet_ne (k k' : jsstring) (v : NodeData number) (m : list Entry) :
  k' <> k -> mapGet number k (mapSet number k' v m) = mapGet number k m.
Proof.
  intros Hne. apply strEq_false in Hne.
  induction m as [| [k0 v0] m IH]; simpl.
  - rewrite Hne. reflexivity.
  - destruct (strEq k0 k') eqn:E; simpl.
    + apply strEq_true in E. subst k0. rewrite Hne. reflexivity.
    + destruct (strEq k0 k); [reflexivity | exact IH].
Qed.

Lemma mapGet_mapAlter (f : NodeData number -> NodeData number) (k k' : jsstring)
    (m : list Entry) :
  mapGet number k (mapAlter number f k' m)
  = if strEq k' k then option_map f (mapGet number k m) else mapGet number k m.
Proof.
  induction m as [| [k0 v0] m IH]; simpl; [destruct (strEq k' k); reflexivity |].
  destruct (strEq k0 k') eqn:E; simpl.
  - apply strEq_true in E as ->. destruct (strEq k' k); reflexivity.
  - destruct (strEq k0 k) eqn:E0; [| exact IH].
    apply strEq_true in E0. subst k0.
    destruct (strEq k' k) eqn:E1; [| reflexivity].
    apply strEq_true in E1. subst k'. rewrite strEq_refl in E. discriminate.
Qed.

Lemma mapAlter_guarded (f : NodeData number -> NodeData number) (k : jsstring) (m : list Entry) :
  match mapGet number k m with
  | Some _ => mapAlter number f k m
  | None => m
  end = mapAlter number f k m.
Proof.
  destruct (mapGet number k m) eqn:E; [reflexivity |].
  induction m as [| [k0 v0] m IH]; simpl in E |- *; [reflexivity |].
  destruct (strEq k0 k); [discriminate |]. rewrite <- IH by exact E. reflexivity.
Qed.

Lemma mapGet_In (k : jsstring) (d : NodeData number) (m : list Entry) :
  List.NoDup (map fst m) -> In (k, d) m -> mapGet number k m = Some d.
Proof.
  induction m as [| [k0 v0] m IH]; simpl; [intros _ [] |].
  intros Hdup [[= -> ->] | Hin].
  - rewrite strEq_refl. reflexivity.
  - apply List.NoDup_cons_iff in Hdup as [Hk Hdup].
    destruct (strEq k0 k) eqn:E; [| apply IH; assumption].
    apply strEq_true in E as ->. exfalso. apply Hk.
    apply in_map_iff. exists (k, d). auto.
Qed.

(** The effect of one cell on the entry stored under [k], when the cell
    does not store a vertex under [k] itself. *)
Lemma firstPassCell_entry (k : jsstring) (st st' : list Entry * list FlowchartEdge)
    (cell : Element) (d : NodeData number) :
  firstPassCell number parseFromString parseFloat st cell = Ok st' ->
  definesVertex k cell = false ->
  mapGet number k (fst st) = Some d ->
  exists d',
    mapGet number k (fst st') = Some d'
    /\ (0 <? size (nd_incoming number d'))
       = (0 <? size (nd_incoming number d)) || arrivesAt k [cell]
    /\ (0 <? size (nd_outgoing number d'))
       = (0 <? size (nd_outgoing number d)) || leavesFrom k [cell].
Proof.
  unfold firstPassCell, definesVertex, arrivesAt, leavesFrom, connection, cellId.
  destruct st as [nodeMap es]. simpl existsb. rewrite !orb_false_r.
  assert (forall b, b = b || false) as Hsame by (intros []; reflexivity).
  destruct (getAttribute cell (lit "id")) as [id |];
    [| intros [= <-] _ Hd; exists d; simpl; auto].
  destruct id as [| c0 id'];
    [intros [= <-] _ Hd; exists d; simpl; auto |].
  set (id := c0 :: id'). change (orUndefined (Some id)) with (Some id).
  change (negb (nonEmpty id)) with false. cbv iota.
  destruct (cellValue parseFromString cell) as [value |]; simpl bindExc; [| discriminate].
  destruct (bool_decide (getAttribute cell (lit "vertex") = Some (lit "1"))) eqn:Hv.
  { intros [= <-] Hk Hd. rewrite andb_true_r in Hk. apply bool_decide_eq_false in Hk.
    exists d. simpl fst. rewrite mapGet_mapSet_ne by congruence. auto. }
  destruct (bool_decide (getAttribute cell (lit "edge") = Some (lit "1")));
    [| intros [= <-] _ Hd; exists d; simpl; auto].
  destruct (orUndefined (getAttribute cell (lit "source"))) as [src |];
    [| intros [= <-] _ Hd; exists d; simpl; auto].
  destruct (orUndefined (getAttribute cell (lit "target"))) as [tgt |];
    [| intros [= <-] _ Hd; exists d; simpl; auto].
  intros [= <-] _ Hd. simpl fst. simpl in Hd.
  rewrite (mapAlter_guarded (addOutgoing number tgt) src nodeMap).
  assert (match mapGet number tgt nodeMap with
          | Some _ => mapAlter number (addIncoming number src) tgt
                        (mapAlter number (addOutgoing number tgt) src nodeMap)
          | None => mapAlter number (addOutgoing number tgt) src nodeMap
          end
          = mapAlter number (addIncoming number src) tgt
              (mapAlter number (addOutgoing number tgt) src nodeMap)) as ->.
  { rewrite <- (mapAlter_guarded (addIncoming number src) tgt
                  (mapAlter number (addOutgoing number tgt) src nodeMap)).
    rewrite mapGet_mapAlter.
    destruct (strEq src tgt); destruct (mapGet number tgt nodeMap); reflexivity. }
  rewrite !mapGet_mapAlter, Hd.
  destruct (strEq tgt k) eqn:Et, (strEq src k) eqn:Es; simpl;
    eexists; (split; [reflexivity |]); simpl;
    rewrite ?size_union_singleton, ?orb_true_r; auto.
Qed.

Lemma firstPass_entry (k : jsstring) (cells : list Element)
    (st st' : list Entry * list FlowchartEdge) (d : NodeData number) :
  forEachExc (firstPassCell number parseFromString parseFloat) cells st = Ok st' ->
  Forall (fun cell => definesVertex k cell = false) cells ->
  mapGet number k (fst st) = Some d ->
  exists d',
    mapGet number k (fst st') = Some d'
    /\ (0 <? size (nd_incoming number d'))
       = (0 <? size (nd_incoming number d)) || arrivesAt k cells
    /\ (0 <? size (nd_outgoing number d'))
       = (0 <? size (nd_outgoing number d)) || leavesFrom k cells.
Proof.
  revert st d. induction cells as [| cell cells IH]; intros st d; simpl forEachExc.
  - intros [= <-] _ Hd. exists d. simpl. rewrite !orb_false_r. auto.
  - destruct (firstPassCell number parseFromString parseFloat st cell) as [st1 |] eqn:E;
      simpl; [| discriminate].
    intros H Hall Hd. apply List.Forall_cons_iff in Hall as [Hcell Hall].
    destruct (firstPassCell_entry k st st1 cell d E Hcell Hd) as (d1 & Hd1 & Hin1 & Hout1).
    destruct (IH st1 d1 H Hall Hd1) as (d' & Hd' & Hin & Hout).
    exists d'. split; [exact Hd' |].
    unfold arrivesAt, leavesFrom in Hin1, Hout1, Hin, Hout |- *.
    simpl existsb in Hin1, Hout1 |- *.
    rewrite !orb_false_r in Hin1, Hout1.
    rewrite Hin, Hout, Hin1, Hout1, !orb_assoc. auto.
Qed.

Lemma firstPassCell_vertex (k : jsstring) (st st' : list Entry * list FlowchartEdge)
    (cell : Element) :
  firstPassCell number parseFromString parseFloat st cell = Ok st' ->
  definesVertex k cell = true ->
  exists d, mapGet number k (fst st') = Some d
            /\ nd_incoming number d = ∅ /\ nd_outgoing number d = ∅.
Proof.
  unfold firstPassCell, definesVertex, cellId. destruct st as [nodeMap es].
  intros H Hk. apply andb_true_iff in Hk as [Hid Hv].
  apply bool_decide_eq_true in Hid. rewrite Hv in H.
  destruct (getAttribute cell (lit "id")) as [[| c0 id'] |]; try discriminate.
  injection Hid as <-. simpl in H.
  destruct (cellValue parseFromString cell) as [value |]; simpl in H; [| discriminate].
  injection H as <-. simpl fst. rewrite mapGet_mapSet_eq. eexists. split; [reflexivity |].
  split; reflexivity.
Qed.

(** X22. The topology flags follow the order of the cells. For a document
    that is walked directly, a node is classified with 'has incoming' exactly
    when an edge cell that comes after the last vertex cell of its id records
    a connection to it, and with 'has outgoing' exactly when such a cell
    records a connection from it. An edge cell placed before the vertex cell
    of one of its ends does not count for that end. *)
Theorem topology_follows_cell_order (doc : XMLDocument) (root : Element)
    (pre post : list Element) (v : Element) (r : Elements number) (node : Node) :
  documentElement doc = Some root -> tagName root <> lit "mxfile" ->
  docElementsByTagName doc (lit "mxCell") = pre ++ v :: post ->
  definesVertex (node_id node) v = true ->
  Forall (fun cell => definesVertex (node_id node) cell = false) post ->
  extractFlowchartElements number toLowerCase inflateRaw parseFromString parseFloat (Some doc)
  = Some r ->
  In node (nodes r) ->
  node_type node
  = Some (classify toLowerCase (orElse (node_style node) []) (orElse (node_value node) [])
            (arrivesAt (node_id node) post) (leavesFrom (node_id node) post)).
Proof.
  intros Hroot Htag Hcells Hv Hpost Hr Hnode.
  unfold extractFlowchartElements in Hr. rewrite Hroot in Hr.
  destruct (extractBody _ _ _ _ _ doc root) as [[r' |] |] eqn:E; try discriminate.
  injection Hr as ->.
  apply extractBody_direct in E as (nodeMap & Hfirst & Hnodes); [| exact Htag |].
  2:{ rewrite Hcells. destruct pre; discriminate. }
  assert (@firstPassInv number (nodeMap, edges r)) as (Hdup & Hmap & _).
  { eapply (firstPass_inv number); [exact Hfirst |].
    split; [constructor | split; constructor]. }
  simpl in Hdup, Hmap.
  rewrite Hnodes in Hnode. apply in_map_iff in Hnode as ([k d] & <- & Hin).
  apply filter_In in Hin as [Hin _]. simpl in Hv, Hpost |- *.
  assert (node_id (nd_node number d) = k) as Hid.
  { apply (proj1 (List.Forall_forall _ _) Hmap) in Hin. destruct Hin as [H _]. exact H. }
  rewrite Hid in Hv, Hpost |- *.
  apply (mapGet_In k d nodeMap Hdup) in Hin.
  rewrite Hcells, forEachExc_app in Hfirst.
  destruct (forEachExc _ pre ([], [])) as [st1 |]; simpl in Hfirst; [| discriminate].
  destruct (firstPassCell number parseFromString parseFloat st1 v) as [st2 |] eqn:Ev;
    simpl in Hfirst; [| discriminate].
  destruct (firstPassCell_vertex k st1 st2 v Ev Hv) as (d0 & Hd0 & Hin0 & Hout0).
  destruct (firstPass_entry k post st2 _ d0 Hfirst Hpost Hd0) as (d' & Hd' & Hi & Ho).
  simpl in Hd'. rewrite Hin in Hd'. injection Hd' as <-.
  rewrite Hin0 in Hi. rewrite Hout0 in Ho. rewrite size_empty in Hi, Ho. simpl in Hi, Ho.
  unfold assignedType. simpl. rewrite Hi, Ho. reflexivity.
Qed.

(** X23. An mxfile wrapper is transparent: when the text of its first
    diagram element decodes to XML that the parser accepts and whose root is
    not again an mxfile, extraction from the wrapper is extraction from the
    decoded document. *)
Theorem mxfile_transparent (doc inner : XMLDocument) (root innerRoot diagramNode : Element)
    (decoded : jsstring) :
  documentElement doc = Some root -> tagName root = lit "mxfile" ->
  head (docElementsByTagName doc (lit "diagram")) = Some diagramNode ->
  textContent diagramNode <> [] ->
  decodeDiagramContent inflateRaw (textContent diagramNode) = Ok decoded ->
  decoded <> [] ->
  parseFromString decoded = Ok inner -> hasParserError inner = false ->
  documentElement inner = Some innerRoot -> tagName innerRoot <> lit "mxfile" ->
  extractFlowchartElements number toLowerCase inflateRaw parseFromString parseFloat (Some doc)
  = extractFlowchartElements number toLowerCase inflateRaw parseFromString parseFloat
      (Some inner).
Proof.
  intros Hroot Htag Hdiagram Htext Hdec Hne Hparse Hclean Hinner Hinnertag.
  unfold extractFlowchartElements. rewrite Hroot, Hinner.
  unfold extractBody, unwrapMxfile.
  apply strEq_true in Htag. apply strEq_false in Hinnertag.
  apply nonEmpty_true in Htext, Hne.
  rewrite Htag, Hinnertag, Hdiagram, Htext, Hdec. simpl.
  rewrite Hne, Hparse. simpl. rewrite Hclean. reflexivity.
Qed.

End Topology.

(** ** The order of the issues, and examples *)

Section IssueOrder.

Variable number : Type.
Variable toUpperCase : jsstring -> jsstring.

(** X24. The issues are listed in the order of the checks: the issues
    about start and end nodes first, then the disconnected nodes, the loop,
    the decision branches and the dead ends. *)
Theorem issues_in_check_order (el : Elements number) (a : FlowchartAnalysis number) :
  analyzeFlowchart number toUpperCase (Some el) = Ok (Some a) ->
  exists terminal disconnected loop branch deadEnd,
    issues a = terminal ++ disconnected ++ loop ++ branch ++ deadEnd
    /\ Forall (fun s => issueKind s = TerminalIssue) terminal
    /\ Forall (fun s => issueKind s = DisconnectedIssue) disconnected
    /\ Forall (fun s => issueKind s = LoopIssue) loop
    /\ Forall (fun s => issueKind s = BranchIssue) branch
    /\ Forall (fun s => issueKind s = DeadEndIssue) deadEnd.
Proof.
  intros Ha. destruct (analysis_issues_exact number toUpperCase el a Ha) as (cyc & Hcyc & Hi).
  do 5 eexists. split; [exact Hi |].
  split; [apply terminalIssues_kind |].
  split; [apply disconnectedIssues_kind |].
  split; [eapply cycleIssues_kind; exact Hcyc |].
  split; [apply branchIssues_kind | apply deadEndIssues_kind].
Qed.

End IssueOrder.

Lemma extraction_well_formed_witness :
  exists r,
    extractFlowchartElements N asciiLower noInflate (parserOf twoStepDiagram) zeroFloat
      (Some twoStepDiagram) = Some r
    /\ map node_id (nodes r) = [lit "2"; lit "3"]
    /\ List.NoDup (map node_id (nodes r))
    /\ Forall extractedNode (nodes r)
    /\ Forall extractedEdge (edges r).
Proof.
  eexists. split; [reflexivity |]. split; [reflexivity |].
  exact (extraction_well_formed N asciiLower noInflate (parserOf twoStepDiagram) zeroFloat
           (Some twoStepDiagram) _ eq_refl).
Defined.

Lemma topology_follows_cell_order_witness :
  exists r node,
    extractFlowchartElements N asciiLower noInflate (parserOf twoStepDiagram) zeroFloat
      (Some twoStepDiagram) = Some r
    /\ In node (nodes r)
    /\ node_id node = lit "2"
    /\ leavesFrom (lit "2") [stopCell; edgeCell] = true
    /\ arrivesAt (lit "2") [stopCell; edgeCell] = false
    /\ node_type node = Some (lit "start").
Proof.
  eexists. eexists. split; [reflexivity |]. split; [left; reflexivity |].
  split; [reflexivity |]. split; [reflexivity |]. split; [reflexivity |].
  lazymatch goal with
  | |- node_type ?n = _ =>
      refine (topology_follows_cell_order N asciiLower noInflate (parserOf twoStepDiagram)
                zeroFloat twoStepDiagram twoStepRoot containerCells [stopCell; edgeCell]
                startCell _ n eq_refl _ eq_refl eq_refl _ eq_refl (or_introl eq_refl))
  end.
  - discriminate.
  - repeat constructor.
Defined.

Lemma mxfile_transparent_witness :
  tagName wrappedRoot = lit "mxfile"
  /\ extractFlowchartElements N asciiLower noInflate (parserOf twoStepDiagram) zeroFloat
       (Some wrappedDiagram)
     = extractFlowchartElements N asciiLower noInflate (parserOf twoStepDiagram) zeroFloat
         (Some twoStepDiagram).
Proof.
  split; [reflexivity |].
  refine (mxfile_transparent N asciiLower noInflate (parserOf twoStepDiagram) zeroFloat
            wrappedDiagram twoStepDiagram wrappedRoot twoStepRoot
            (mkElement (lit "diagram") [] [TextNode (lit "<mxGraphModel>...</mxGraphModel>")])
            (lit "<mxGraphModel>...</mxGraphModel>")
            eq_refl eq_refl eq_refl _ eq_refl _ eq_refl eq_refl eq_refl _); discriminate.
Defined.

Lemma extraction_bounded_by_cells_witness :
  exists r info,
    extractFlowchartElements N asciiLower noInflate (parserOf twoStepDiagram) zeroFloat
      (Some twoStepDiagram) = Some r
    /\ getBasicDiagramInfo (Some twoStepDiagram) = Some info
    /\ cellCount info = 5
    /\ length (nodes r) + length (edges r) <= cellCount info.
Proof.
  destruct (extraction_bounded_by_cells N asciiLower noInflate (parserOf twoStepDiagram)
              zeroFloat (Some twoStepDiagram) _ eq_refl) as (info & Hinfo & Hbound).
  eexists. exists info. split; [reflexivity |]. split; [exact Hinfo |].
  injection Hinfo as <-. split; [reflexivity |].
  apply Hbound; [discriminate | discriminate | simpl; lia].
Defined.

Lemma parseDrawioXml_plain_witness :
  startsWith (trim (lit " <mxGraphModel/>")) (lit "<") = true
  /\ ~ In 38%N (lit " <mxGraphModel/>")
  /\ forall inflateRaw parseFromString,
       parseDrawioXml inflateRaw parseFromString (lit " <mxGraphModel/>")
       = Ok (cleanParse parseFromString (lit " <mxGraphModel/>")).
Proof.
  assert (~ In 38%N (lit " <mxGraphModel/>")) as Hamp by (simpl; intuition discriminate).
  split; [reflexivity |]. split; [exact Hamp |].
  intros inflateRaw parseFromString.
  exact (parseDrawioXml_plain inflateRaw parseFromString (lit " <mxGraphModel/>") eq_refl Hamp).
Defined.

Lemma extractXmlFromSvg_keeps_xml_witness :
  svgContentOf asciiLower svgExport = Some (lit "<mxfile/>")
  /\ forall inflate tempDoc,
       extractXmlFromSvg asciiLower inflate (parserOf tempDoc) (parserOf svgExport) []
       = Some (lit "<mxfile/>").
Proof.
  split; [reflexivity |].
  intros inflate tempDoc.
  refine (extractXmlFromSvg_keeps_xml asciiLower inflate (parserOf tempDoc) (parserOf svgExport)
            [] (lit "<mxfile/>") svgExport tempDoc 60%N eq_refl eq_refl eq_refl _ eq_refl).
  left. reflexivity.
Defined.

Lemma not_endpoint_idle : ~ isEndpoint (edges isolatedChart) (lit "idle").
Proof. intros (_ & e & [<- | []] & [H | H]); discriminate. Qed.

Lemma disconnected_check_witness :
  In idleNode (nodes isolatedChart)
  /\ ~ isEndpoint (edges isolatedChart) (node_id idleNode)
  /\ forall toUpperCase, exists a,
       analyzeFlowchart N toUpperCase (Some isolatedChart) = Ok (Some a)
       /\ In (disconnectedIssue N idleNode) (issues a).
Proof.
  assert (In idleNode (nodes isolatedChart)) as Hin by (simpl; tauto).
  split; [exact Hin |]. split; [exact not_endpoint_idle |].
  intros toUpperCase. eexists. split; [reflexivity |].
  refine (proj1 (disconnected_check N toUpperCase isolatedChart _ eq_refl)
            idleNode Hin _ not_endpoint_idle).
  simpl. lia.
Defined.

Lemma dead_end_check_witness :
  In idleNode (nodes isolatedChart)
  /\ deadEndCandidate N idleNode = true
  /\ isObjectPrototypeName (node_id idleNode) = false
  /\ outgoingCount (edges isolatedChart) idleNode = 0
  /\ forall toUpperCase, exists a,
       analyzeFlowchart N toUpperCase (Some isolatedChart) = Ok (Some a)
       /\ In (deadEndIssue N (capitalized toUpperCase (lit "process")) idleNode) (issues a).
Proof.
  assert (In idleNode (nodes isolatedChart)) as Hin by (simpl; tauto).
  split; [exact Hin |]. split; [reflexivity |]. split; [reflexivity |].
  split; [reflexivity |].
  intros toUpperCase. eexists. split; [reflexivity |].
  destruct (proj1 (dead_end_check N toUpperCase isolatedChart _ eq_refl)
              idleNode Hin eq_refl eq_refl eq_refl) as (ty & Hty & Hissue).
  injection Hty as <-. exact Hissue.
Defined.

(** The loop of three nodes is found, and can be reached. *)
Lemma detectCycles_exact_witness :
  prototypeFree (nodes loopChart) (edges loopChart) = true
  /\ detectCycles N (nodes loopChart) (edges loopChart) = Ok [loopIssue]
  /\ reachableCycle (nodes loopChart) (edges loopChart).
Proof.
  split; [reflexivity |]. split; [reflexivity |].
  exact (proj1 (proj2 (detectCycles_exact N (nodes loopChart) (edges loopChart))) eq_refl).
Defined.

(** The two-step diagram, whose ids are '2', '3' and '4', is extracted and
    analyzed. *)
Lemma pipeline_total_witness :
  exists el a,
    extractFlowchartElements N asciiLower noInflate (parserOf twoStepDiagram) zeroFloat
      (Some twoStepDiagram) = Some el
    /\ prototypeFree (nodes el) (edges el) = true
    /\ analyzeFlowchart N asciiLower (Some el) = Ok (Some a).
Proof.
  destruct (pipeline_total N asciiLower asciiLower noInflate (parserOf twoStepDiagram)
              zeroFloat (Some twoStepDiagram)) as (r & Hr & Hnone).
  { intros el [= <-]. reflexivity. }
  eexists. exists (match r with Some a => a | None => mkAnalysis 0 [] [] [] [] [] [] [] end).
  split; [reflexivity |]. split; [reflexivity |].
  destruct r as [a |]; [exact Hr |].
  exfalso. destruct (proj1 Hnone eq_refl) as [H | (el & [= <-] & H)]; discriminate.
Defined.

Lemma no_cycle_constructorChart :
  ~ reachableCycle (nodes constructorChart) (edges constructorChart).
Proof.
  intros (n & c & _ & _ & Hc).
  assert (forall u v, ~ linked (edges constructorChart) u v) as Hnone.
  { intros u v (e & He & _). simpl in He. set_solver. }
  destruct Hc as [x y H | x y z H _]; exact (Hnone _ _ H).
Qed.

(** A diagram whose only cell has the id 'constructor' cannot be analyzed. *)
Lemma prototype_name_throws_witness :
  In constructorNode (nodes constructorChart)
  /\ isObjectPrototypeName (node_id constructorNode) = true
  /\ forall toUpperCase,
       analyzeFlowchart N toUpperCase (Some constructorChart) = Err TypeError.
Proof.
  assert (In constructorNode (nodes constructorChart)) as Hin by (left; reflexivity).
  split; [exact Hin |]. split; [reflexivity |].
  intros toUpperCase.
  exact (prototype_name_throws N toUpperCase constructorChart constructorNode Hin eq_refl
           no_cycle_constructorChart).
Defined.

(** The node 'toString' has no outgoing edge and is not an end node, yet no
    dead end is reported for it: its count is read from Object.prototype. *)
Lemma inherited_count_is_not_checked :
  deadEndCandidate N (exNode "toString" (Some "process"%string)) = true
  /\ outgoingCount (edges shadowedChart) (exNode "toString" (Some "process"%string)) = 0
  /\ forall toUpperCase, exists a,
       analyzeFlowchart N toUpperCase (Some shadowedChart) = Ok (Some a)
       /\ map issueKind (issues a) = [DisconnectedIssue; LoopIssue].
Proof.
  split; [reflexivity |]. split; [reflexivity |].
  intros toUpperCase. eexists. split; reflexivity.
Qed.

Lemma no_issues_iff_witness :
  wellStructured danglingChart
  /\ forall toUpperCase, exists a,
       analyzeFlowchart N toUpperCase (Some danglingChart) = Ok (Some a) /\ issues a = [].
Proof.
  split.
  - exact (proj1 (no_issues_iff N asciiLower danglingChart _ eq_refl) eq_refl).
  - intros toUpperCase. eexists. split; reflexivity.
Defined.

Lemma issues_in_check_order_witness :
  exists a,
    analyzeFlowchart N asciiLower (Some isolatedChart) = Ok (Some a)
    /\ map issueKind (issues a) = [DisconnectedIssue; DeadEndIssue].
Proof.
  eexists. split; [reflexivity |].
  destruct (issues_in_check_order N asciiLower isolatedChart _ eq_refl)
    as (t & d & l & b & e & Hi & _).
  reflexivity.
Defined.
